(** * HyperlaneDeployer / HyperlaneCoreDeployer: a shallow embedding

    The two TypeScript classes

      - [typescript/sdk/src/deploy/HyperlaneDeployer.ts]
      - [typescript/sdk/src/core/HyperlaneCoreDeployer.ts]

    are embedded as computations in a state-and-exception monad.  The
    state holds the four public fields of the deployer object, the
    "world" (everything the deployer reaches only through its
    collaborators: chains, contracts, the ISM factory, the hook deployer,
    ...), the trace of calls made to mutating collaborator entry points and
    the lines written to the logger.

    Collaborators whose code lives outside these two files
    (MultiProvider, the contract bindings, [./proxy], [./verify/utils],
    [../ism/utils], HyperlaneIsmFactory, HyperlaneHookDeployer,
    TestRecipientDeployer, [runWithTimeout], [eqAddress]) are parameters:
    a record [Env] of operations over an abstract world [W]. *)

From Stdlib Require Import String ZArith List Bool Lia.
From stdpp Require Import base option gmap strings list fin_maps.
Import ListNotations.
Local Open Scope string_scope.

(** ** Plain data *)

Abbreviation ChainName := string (only parsing).
Abbreviation Address := string (only parsing).

(** [ethers.constants.AddressZero] *)
Definition AddressZero : Address := "0x0000000000000000000000000000000000000000".

(** A JavaScript [Error]: its [message] and, for provider errors, the
    nested [error.reason] read by [deployMailbox]. *)
Record JsError := mkError {
  message : string;
  error_reason : option string;
}.

Definition Error (msg : string) : JsError := mkError msg None.

(** An awaited promise: fulfilled with a value or rejected with an error. *)
Inductive Result (A : Type) : Type :=
| Ok (a : A)
| Throw (e : JsError).
Arguments Ok {A} a.
Arguments Throw {A} e.

(** [ProtocolType] of [@hyperlane-xyz/utils]; only [Ethereum] is named by
    the deployer. *)
Inductive ProtocolType := Ethereum | OtherProtocol (name : string).

Definition isEthereum (p : ProtocolType) : bool :=
  match p with Ethereum => true | OtherProtocol _ => false end.

(** JavaScript values passed as constructor / call arguments. *)
#[warnings="-register-all"]
Inductive Arg :=
| ANum (z : Z)
| AStr (s : string)
| AList (l : list Arg).

Abbreviation Overrides := (list (string * Arg)) (only parsing).

(** A transaction on a contract method (populated or already sent). *)
Record Tx := mkTx {
  tx_to : Address;
  tx_method : string;
  tx_args : list Arg;
  tx_overrides : option Overrides;
}.

Record Receipt := mkReceipt { transactionHash : string }.

(** [ContractVerificationInput] of [./verify/types] *)
Record VerificationInput := mkVI {
  vi_name : string;
  vi_address : Address;
  vi_constructorArguments : string;
  vi_isProxy : bool;
}.

(** An [ethers.ContractFactory]: the contract type it creates and its
    bytecode. *)
Record Factory := mkFactory {
  factory_name : string;
  bytecode : string;
}.

(** [HyperlaneContracts]: contract handles by name; a handle is identified
    by its address. *)
Abbreviation Contracts := (gmap string string) (only parsing).

(** [String.prototype.includes] *)
Definition includes (s sub : string) : bool :=
  match String.index 0 sub s with Some _ => true | None => false end.

(** Truthiness of a string ([!!s]). *)
Definition truthy (s : string) : bool := negb (String.eqb s "").

(** [IsmConfig = Address | { type: ..., ... }] *)
Inductive IsmConfig (IsmSpec : Type) :=
| IsmAddress (a : Address)
| IsmObject (spec : IsmSpec).
Arguments IsmAddress {IsmSpec} a.
Arguments IsmObject {IsmSpec} spec.

(** Truthiness of an [IsmConfig]: an address is a string, a structural
    configuration is an object. *)
Definition ismTruthy {IsmSpec} (config : IsmConfig IsmSpec) : bool :=
  match config with
  | IsmAddress a => truthy a
  | IsmObject _ => true
  end.

(** [OwnableConfig] of [./types] *)
Record OwnableConfig := mkOwnableConfig {
  oc_owner : Address;
  oc_ownerOverrides : option (gmap string string);
}.

(** [UpgradeConfig['timelock']] of [./proxy] *)
Record TimelockConfig := mkTimelock {
  tl_delay : Z;
  tl_proposer : Address;
  tl_executor : Address;
}.

(** [MailboxClientConfig] of [../router/types] *)
Record MailboxClientConfig (IsmSpec : Type) := mkClientConfig {
  cc_hook : option Address;
  cc_interchainSecurityModule : option (IsmConfig IsmSpec);
}.
Arguments cc_hook {IsmSpec} _.
Arguments cc_interchainSecurityModule {IsmSpec} _.

(** [CoreConfig] of [../core/types] *)
Record CoreConfig (IsmSpec HookConfig : Type) := mkCoreConfig {
  owner : Address;
  ownerOverrides : option (gmap string string);
  defaultIsm : IsmConfig IsmSpec;
  defaultHook : HookConfig;
  requiredHook : HookConfig;
  remove : bool;
  upgrade : option TimelockConfig;
}.
Arguments owner {IsmSpec HookConfig} _.
Arguments ownerOverrides {IsmSpec HookConfig} _.
Arguments defaultIsm {IsmSpec HookConfig} _.
Arguments defaultHook {IsmSpec HookConfig} _.
Arguments requiredHook {IsmSpec HookConfig} _.
Arguments remove {IsmSpec HookConfig} _.
Arguments upgrade {IsmSpec HookConfig} _.

(** [{ mailbox, proxyAdmin }] handed to the hook deployer *)
Record HookAddresses := mkHookAddresses {
  ha_mailbox : Address;
  ha_proxyAdmin : Address;
}.

(** A [ChainMap] whose key order matters ([Object.keys]): chain names are
    not integer-like, so the order is insertion order. *)
Abbreviation ChainMapL V := (list (string * V)) (only parsing).

Fixpoint chainMapGet {V} (m : list (string * V)) (chain : string) : option V :=
  match m with
  | [] => None
  | (c, v) :: m' => if String.eqb c chain then Some v else chainMapGet m' chain
  end.

(** ** Collaborators *)

(** Calls to collaborator entry points that may submit transactions. *)
Inductive Call (IsmSpec HookConfig : Type) :=
| CallHandleDeploy (chain : string) (factory : Factory) (args : list Arg)
| CallHandleTx (chain : string) (tx : Tx)
| CallSendTransaction (chain : string) (tx : Tx)
| CallVerifyContract (chain : string) (input : VerificationInput)
| CallIsmFactoryDeploy (chain : string) (config : IsmConfig IsmSpec)
    (mailbox : option Address)
| CallHookDeployer (chain : string) (config : HookConfig)
    (coreAddresses : HookAddresses)
| CallTestRecipientDeployer (chain : string)
    (ism : option (IsmConfig IsmSpec)).
Arguments CallHandleDeploy {IsmSpec HookConfig}.
Arguments CallHandleTx {IsmSpec HookConfig}.
Arguments CallSendTransaction {IsmSpec HookConfig}.
Arguments CallVerifyContract {IsmSpec HookConfig}.
Arguments CallIsmFactoryDeploy {IsmSpec HookConfig}.
Arguments CallHookDeployer {IsmSpec HookConfig}.
Arguments CallTestRecipientDeployer {IsmSpec HookConfig}.

(** The operations of the collaborators.  A read is a function of the
    world that may reject; a mutating operation also returns the next
    world. *)
Set Implicit Arguments.
Record Env (W IsmSpec HookConfig : Type) := mkEnv {
  (* @hyperlane-xyz/utils *)
  eqAddress : Address -> Address -> bool;
  (* MultiProvider, chain metadata *)
  getChainMetadata_protocol : string -> Result ProtocolType;
  intersect : list string -> bool -> Result (list string);
  getDomainId : string -> Result Z;
  getTransactionOverrides : string -> Overrides;
  (* MultiProvider and contract reads *)
  tryGetExplorerAddressUrl : string -> W -> Result (option string);
  getSignerAddress : string -> W -> Result Address;
  getSignerOrProvider : string -> W -> Result unit;
  getBlockNumber : string -> W -> Result Z;
  getCode : string -> Address -> W -> Result string;
  callStatic : string -> Address -> string -> W -> Result Address;
  (* ./proxy *)
  proxyAdmin : string -> Address -> W -> Result Address;
  isProxy : string -> Address -> W -> Result bool;
  proxyImplementation : string -> Address -> W -> Result Address;
  proxyConstructorArgs : Address -> Address -> option (list Arg) -> list Arg;
  encodeInitialize : list Arg -> string;
  (* ../ism/utils *)
  moduleMatchesConfig :
    string -> Address -> IsmConfig IsmSpec -> W -> Result bool;
  (* MultiProvider, mutating *)
  handleDeploy : string -> Factory -> list Arg -> W -> Result Address * W;
  handleTx : string -> Tx -> W -> Result Receipt * W;
  sendTransaction : string -> Tx -> W -> Result Receipt * W;
  (* ContractVerifier and ./verify/utils *)
  verifyContract : string -> VerificationInput -> W -> Result unit * W;
  getContractVerificationInput :
    string -> Address -> string -> VerificationInput;
  buildVerificationInput : string -> Address -> string -> VerificationInput;
  encodeDeploy : string -> list Arg -> string;
  (* factories of @hyperlane-xyz/core created in place *)
  TransparentUpgradeableProxy__factory : Factory;
  TimelockController__factory : Factory;
  (* HyperlaneIsmFactory *)
  ismFactory_deploy :
    string -> IsmConfig IsmSpec -> option Address -> W -> Result Address * W;
  ismFactory_deployedIsms : string -> W -> option Contracts;
  (* HyperlaneHookDeployer *)
  hookType : HookConfig -> string;
  hookDeployer_deployContracts :
    string -> HookConfig -> HookAddresses -> W -> Result Contracts * W;
  hookDeployer_deployedContracts : string -> W -> option Contracts;
  hookDeployer_verificationInputs :
    string -> W -> option (list VerificationInput);
  (* TestRecipientDeployer: [deployContracts] returns [{ testRecipient }],
     given here by the one handle *)
  testRecipient_deployContracts :
    string -> option (IsmConfig IsmSpec) -> W -> Result Address * W;
}.
Unset Implicit Arguments.

(** The read-only fields of a deployer instance. *)
Record Options := mkOptions {
  factories : string -> Factory;
  chainTimeoutMs : Z;
  ismFactoryProvided : bool;
  recoverVerificationInputs : bool;
}.

Inductive LogLevel := Debug | Info.

(** One constructor per message the two classes write to the logger,
    carrying the interpolated values. *)
Inductive LogMsg :=
| LStartDeploy (targetChains : list string)
| LDeployingTo (chain fromString : string)
| LSignerMismatch (signer label address : string)
| LAdminIsProxyAdmin (admin : string)
| LAdminIsEOA (admin : string)
| LSetIsm (chain targetIsm : string)
| LSetHook (chain targetHook configuredHook : string)
| LInitializingClient (local : string)
| LClientInitialized (local : string)
| LDeploy (contractName chain : string) (constructorArgs : list Arg)
| LInitialize (contractName chain : string)
| LErrorVerifying (error : JsError)
| LAdminSetCorrectly
| LChangingProxyAdmin
| LImplementationSetCorrectly
| LUpgrading
| LRecovered (contractName chain cachedAddress : string)
| LOwnerMismatch
| LTransferring (contractName owner chain : string)
| LDeployingDefaultIsm
| LDeployingDefaultHook
| LDeployingRequiredHook
| LInitializingMailbox
| LMailboxAlreadyInitialized.

(** ** The deployer state and its monad *)

Section State.
Context {W IsmSpec HookConfig : Type}.

  (** The mutable fields of [HyperlaneDeployer] ([verificationInputs],
      [cachedAddresses], [deployedContracts], [startingBlockNumbers]),
      the world behind the collaborators, the calls made and the log. *)
Record State := mkState {
    verificationInputs : gmap string (list VerificationInput);
    cachedAddresses : gmap string (gmap string string);
    deployedContracts : gmap string (gmap string string);
    startingBlockNumbers : gmap string Z;
    world : W;
    calls : list (Call IsmSpec HookConfig);
    logs : list (LogLevel * LogMsg);
  }.

Definition set_verificationInputs v (s : State) : State :=
    mkState v (cachedAddresses s) (deployedContracts s)
      (startingBlockNumbers s) (world s) (calls s) (logs s).
Definition set_cachedAddresses v (s : State) : State :=
    mkState (verificationInputs s) v (deployedContracts s)
      (startingBlockNumbers s) (world s) (calls s) (logs s).
Definition set_deployedContracts v (s : State) : State :=
    mkState (verificationInputs s) (cachedAddresses s) v
      (startingBlockNumbers s) (world s) (calls s) (logs s).
Definition set_startingBlockNumbers v (s : State) : State :=
    mkState (verificationInputs s) (cachedAddresses s) (deployedContracts s)
      v (world s) (calls s) (logs s).
Definition set_world v (s : State) : State :=
    mkState (verificationInputs s) (cachedAddresses s) (deployedContracts s)
      (startingBlockNumbers s) v (calls s) (logs s).
Definition set_calls v (s : State) : State :=
    mkState (verificationInputs s) (cachedAddresses s) (deployedContracts s)
      (startingBlockNumbers s) (world s) v (logs s).
Definition set_logs v (s : State) : State :=
    mkState (verificationInputs s) (cachedAddresses s) (deployedContracts s)
      (startingBlockNumbers s) (world s) (calls s) v.

  (** An [async] method body: runs from a state, settles with a value or
      an exception, and leaves a state. *)
Definition M (A : Type) : Type := State -> Result A * State.

Definition ret {A} (a : A) : M A := fun s => (Ok a, s).

Definition bind {A B} (m : M A) (k : A -> M B) : M B :=
    fun s =>
      match m s with
      | (Ok a, s') => k a s'
      | (Throw e, s') => (Throw e, s')
      end.

Definition throw {A} (e : JsError) : M A := fun s => (Throw e, s).

  (** [try { m } catch (e) { h e }] *)
Definition tryCatch {A} (m : M A) (h : JsError -> M A) : M A :=
    fun s =>
      match m s with
      | (Ok a, s') => (Ok a, s')
      | (Throw e, s') => h e s'
      end.

  (** A read through a collaborator: the world is left as it is. *)
Definition read {A} (f : W -> Result A) : M A :=
    fun s => (f (world s), s).

  (** A pure collaborator call that may throw. *)
Definition lift {A} (r : Result A) : M A := fun s => (r, s).

  (** A call to a mutating collaborator entry point: recorded in [calls],
      then the world moves on. *)
Definition act {A} (c : Call IsmSpec HookConfig)
      (f : W -> Result A * W) : M A :=
    fun s =>
      let '(r, w') := f (world s) in
      (r, set_world w' (set_calls (calls s ++ [c]) s)).

Definition log (level : LogLevel) (msg : LogMsg) : M unit :=
    fun s => (Ok tt, set_logs (logs s ++ [(level, msg)]) s).

Definition get {A} (f : State -> A) : M A := fun s => (Ok (f s), s).

Definition modify (f : State -> State) : M unit := fun s => (Ok tt, f s).
End State.

Arguments State : clear implicits.
Arguments M : clear implicits.

Declare Scope deployer_scope.
Delimit Scope deployer_scope with dep.
Notation "'let*' x := m 'in' k" := (bind m (fun x => k))
  (at level 10, x pattern, m at level 100, k at level 200) : deployer_scope.
Notation "m1 ';;;' m2" := (bind m1 (fun _ => m2))
  (at level 100, m2 at level 200, right associativity) : deployer_scope.
Local Open Scope deployer_scope.

(** [Array.prototype.filter] with a predicate that may throw. *)
Fixpoint filterR {A} (p : A -> Result bool) (l : list A) : Result (list A) :=
  match l with
  | [] => Ok []
  | x :: l' =>
      match p x with
      | Throw e => Throw e
      | Ok b =>
          match filterR p l' with
          | Throw e => Throw e
          | Ok r => Ok (if b then x :: r else r)
          end
      end
  end.

(** ** HyperlaneDeployer *)

Section HyperlaneDeployer.
Context {W IsmSpec HookConfig : Type}.
Context (env : Env W IsmSpec HookConfig) (opts : Options).

Local Abbreviation M := (M W IsmSpec HookConfig).
Local Abbreviation State := (State W IsmSpec HookConfig).

  (** [for (const x of l) { body x }] *)
Fixpoint forEach {A} (l : list A) (body : A -> M unit) : M unit :=
    match l with
    | [] => ret tt
    | x :: l' => body x ;;; forEach l' body
    end.

Definition cacheAddressesMap
      (addressesMap : gmap string (gmap string string)) : M unit :=
    modify (set_cachedAddresses addressesMap).

Definition addVerificationArtifacts (chain : string)
      (artifacts : list VerificationInput) : M unit :=
    modify (fun s =>
      set_verificationInputs
        (<[chain := (default [] (verificationInputs s !! chain) ++ artifacts)%list]>
           (verificationInputs s)) s).

  (** [contracts] and [verificationInputs] may be [undefined]; spreading
      [undefined] adds nothing. *)
Definition addDeployedContracts (chain : string)
      (contracts : option Contracts)
      (inputs : option (list VerificationInput)) : M unit :=
    modify (fun s =>
      set_deployedContracts
        (<[chain := default ∅ contracts
                      ∪ default ∅ (deployedContracts s !! chain)]>
           (deployedContracts s)) s) ;;;
    match inputs with
    | Some artifacts => addVerificationArtifacts chain artifacts
    | None => ret tt
    end.

Section Deploy.
Context {Config : Type}.
    (** [runWithTimeout] of [@hyperlane-xyz/utils] and the abstract method
        [deployContracts]. *)
Variable runWithTimeout : forall A, Z -> M A -> M A.
Variable deployContracts :
      string -> option Config -> M (option Contracts).

    (** The body of the [for] loop of [deploy]. *)
Definition deployChain (configMap : list (string * Config))
        (chain : string) : M unit :=
      let* signerUrl := read (tryGetExplorerAddressUrl env chain) in
      let* signerAddress := read (getSignerAddress env chain) in
      let fromString :=
        match signerUrl with
        | Some url => if truthy url then url else signerAddress
        | None => signerAddress
        end in
      log Info (LDeployingTo chain fromString) ;;;
      let* blockNumber := read (getBlockNumber env chain) in
      modify (fun s =>
        set_startingBlockNumbers
          (<[chain := blockNumber]> (startingBlockNumbers s)) s) ;;;
      runWithTimeout unit (chainTimeoutMs opts)
        (let* contracts :=
           deployContracts chain (chainMapGet configMap chain) in
         addDeployedContracts chain contracts None).

Definition deploy (configMap : list (string * Config))
        : M (gmap string (gmap string string)) :=
      let configChains := map fst configMap in
      let* ethereumConfigChains :=
        lift (filterR
                (fun chain =>
                   match getChainMetadata_protocol env chain with
                   | Ok protocol => Ok (isEthereum protocol)
                   | Throw e => Throw e
                   end)
                configChains) in
      let* targetChains := lift (intersect env ethereumConfigChains true) in
      log Debug (LStartDeploy targetChains) ;;;
      forEach targetChains (deployChain configMap) ;;;
      get deployedContracts.
End Deploy.

Definition runIf {T} (chain : string) (address : Address) (fn : M T)
      (label : string) : M (option T) :=
    let* signer := read (getSignerAddress env chain) in
    if eqAddress env address signer then
      let* r := fn in ret (Some r)
    else
      log Debug (LSignerMismatch signer label address) ;;;
      ret None.

Definition runIfOwner {T} (chain : string) (ownable : Address)
      (fn : M T) : M (option T) :=
    let* owner := read (callStatic env chain ownable "owner") in
    runIf chain owner fn "owner".

Definition runIfAdmin {T} (chain : string) (proxy : Address)
      (signerAdminFn : M T) (proxyAdminOwnerFn : Address -> M T)
      : M (option T) :=
    let* admin := read (proxyAdmin env chain proxy) in
    let* code := read (getCode env chain admin) in
    if negb (String.eqb code "0x") then
      log Debug (LAdminIsProxyAdmin admin) ;;;
      runIfOwner chain admin (proxyAdminOwnerFn admin)
    else
      log Debug (LAdminIsEOA admin) ;;;
      runIf chain admin signerAdminFn "admin".

  (** [getIsm] is a view call on the contract; [setIsm] populates a
      transaction. *)
Definition configureIsm (chain : string) (contract : Address)
      (config : IsmConfig IsmSpec)
      (getIsm : Address -> W -> Result Address)
      (setIsm : Address -> Address -> Tx) : M unit :=
    let* configuredIsm := read (getIsm contract) in
    let* (matches, targetIsm) :=
      match config with
      | IsmAddress a =>
          if eqAddress env configuredIsm a then ret (true, None)
          else ret (false, Some a)
      | IsmObject _ =>
          (if ismFactoryProvided opts then ret tt
           else throw (Error "No ISM factory provided")) ;;;
          let* matches :=
            read (moduleMatchesConfig env chain configuredIsm config) in
          let* deployed :=
            act (CallIsmFactoryDeploy chain config None)
                (ismFactory_deploy env chain config None) in
          ret (matches, Some deployed)
      end in
    if negb matches then
      match targetIsm with
      | Some targetIsm =>
          runIfOwner chain contract
            (log Debug (LSetIsm chain targetIsm) ;;;
             act (CallSendTransaction chain (setIsm contract targetIsm))
                 (sendTransaction env chain (setIsm contract targetIsm)) ;;;
             let* actual := read (getIsm contract) in
             if negb (eqAddress env targetIsm actual) then
               throw (Error ("Set ISM failed on " ++ chain))
             else ret tt) ;;;
          ret tt
      | None => ret tt (* [targetIsm] is assigned whenever [matches] is false *)
      end
    else ret tt.

Definition configureHook (chain : string) (contract : Address)
      (targetHook : Address)
      (getHook : Address -> W -> Result Address)
      (setHook : Address -> Address -> Tx) : M unit :=
    let* configuredHook := read (getHook contract) in
    if negb (eqAddress env targetHook configuredHook) then
      let* result :=
        runIfOwner chain contract
          (log Debug (LSetHook chain targetHook configuredHook) ;;;
           act (CallSendTransaction chain (setHook contract targetHook))
               (sendTransaction env chain (setHook contract targetHook)) ;;;
           let* actualHook := read (getHook contract) in
           if negb (eqAddress env targetHook actualHook) then
             throw (Error ("Set hook failed on " ++ chain ++ ", wanted "
                           ++ targetHook ++ ", got " ++ actualHook))
           else ret true) in
      match result with
      | Some true => ret tt
      | _ => addDeployedContracts chain (Some {["customHook" := targetHook]})
               None
      end
    else ret tt.

Definition configureClient (local : string) (client : Address)
      (config : MailboxClientConfig IsmSpec) : M unit :=
    log Debug (LInitializingClient local) ;;;
    match cc_hook config with
    | Some hook =>
        if truthy hook then
          read (getSignerOrProvider env local) ;;;
          configureHook local client hook
            (fun _client => callStatic env local _client "hook")
            (fun _client _hook => mkTx _client "setHook" [AStr _hook] None)
        else ret tt
    | None => ret tt
    end ;;;
    match cc_interchainSecurityModule config with
    | Some ism =>
        if ismTruthy ism then
          configureIsm local client ism
            (fun _client =>
               callStatic env local _client "interchainSecurityModule")
            (fun _client _module =>
               mkTx _client "setInterchainSecurityModule" [AStr _module]
                 None)
        else ret tt
    | None => ret tt
    end ;;;
    log Debug (LClientInitialized local).
Definition writeCache (chain contractName : string) (address : Address)
    : M unit :=
  modify (fun s =>
    set_cachedAddresses
      (<[chain := <[contractName := address]>
                    (default ∅ (cachedAddresses s !! chain))]>
         (cachedAddresses s)) s).

(** The handle is attached and connected whether or not the cache hits;
    [getSignerOrProvider] is the part of that which can fail. *)
Definition readCache (chain : string) (factory : Factory)
    (contractName : string) : M (option Address) :=
  let* cachedAddress :=
    get (fun s => cachedAddresses s !! chain ≫= (.!! contractName)) in
  let hit :=
    match cachedAddress with
    | Some a => truthy a && negb (String.eqb a AddressZero)
    | None => false
    end in
  read (getSignerOrProvider env chain) ;;;
  if hit then
    log Debug (LRecovered contractName chain (default "" cachedAddress)) ;;;
    ret cachedAddress
  else ret None.

(** The interface used by [encodeDeploy] is the one of the contract type,
    named here by [contractName]. *)
Definition recoverVerificationArtifacts (chain contractName : string)
    (cachedContract : Address) (constructorArgs : list Arg)
    (initializeArgs : option (list Arg)) : M (list VerificationInput) :=
  let* isProxied := read (isProxy env chain cachedContract) in
  let* implementation :=
    if isProxied then read (proxyImplementation env chain cachedContract)
    else ret cachedContract in
  let implementationInput :=
    buildVerificationInput env contractName implementation
      (encodeDeploy env contractName constructorArgs) in
  if negb isProxied then ret [implementationInput]
  else
    let* admin := read (proxyAdmin env chain cachedContract) in
    let proxyArgs :=
      proxyConstructorArgs env implementation admin initializeArgs in
    let proxyInput :=
      buildVerificationInput env "TransparentUpgradeableProxy"
        cachedContract
        (encodeDeploy env "TransparentUpgradeableProxy" proxyArgs) in
    ret [implementationInput; proxyInput].

Definition deployContractFromFactory (chain : string) (factory : Factory)
    (contractName : string) (constructorArgs : list Arg)
    (initializeArgs : option (list Arg)) (shouldRecover : bool)
    : M Address :=
  let* recovered :=
    if shouldRecover then
      let* cachedContract := readCache chain factory contractName in
      match cachedContract with
      | Some cached =>
          (if recoverVerificationInputs opts then
             let* recoveredInputs :=
               recoverVerificationArtifacts chain contractName cached
                 constructorArgs initializeArgs in
             addVerificationArtifacts chain recoveredInputs
           else ret tt) ;;;
          ret (Some cached)
      | None => ret None
      end
    else ret None in
  match recovered with
  | Some cached => ret cached
  | None =>
      log Info (LDeploy contractName chain constructorArgs) ;;;
      let* contract :=
        act (CallHandleDeploy chain factory constructorArgs)
            (handleDeploy env chain factory constructorArgs) in
      match initializeArgs with
      | Some args =>
          log Debug (LInitialize contractName chain) ;;;
          let overrides := getTransactionOverrides env chain in
          let initTx := mkTx contract "initialize" args (Some overrides) in
          act (CallHandleTx chain initTx) (handleTx env chain initTx) ;;;
          ret tt
      | None => ret tt
      end ;;;
      let verificationInput :=
        getContractVerificationInput env contractName contract
          (bytecode factory) in
      addVerificationArtifacts chain [verificationInput] ;;;
      tryCatch
        (act (CallVerifyContract chain verificationInput)
             (verifyContract env chain verificationInput))
        (fun error => log Debug (LErrorVerifying error)) ;;;
      ret contract
  end.

Definition deployContractWithName (chain contractKey contractName : string)
    (constructorArgs : list Arg) (initializeArgs : option (list Arg))
    (shouldRecover : bool) : M Address :=
  let* contract :=
    deployContractFromFactory chain (factories opts contractKey)
      contractName constructorArgs initializeArgs shouldRecover in
  writeCache chain contractName contract ;;;
  ret contract.

Definition deployContract (chain contractKey : string)
    (constructorArgs : list Arg) (initializeArgs : option (list Arg))
    (shouldRecover : bool) : M Address :=
  deployContractWithName chain contractKey contractKey constructorArgs
    initializeArgs shouldRecover.

Definition changeAdmin (chain : string) (proxy : Address) (admin : Address)
    : M unit :=
  let* actualAdmin := read (proxyAdmin env chain proxy) in
  if eqAddress env admin actualAdmin then
    log Debug LAdminSetCorrectly
  else
    let txOverrides := getTransactionOverrides env chain in
    log Debug LChangingProxyAdmin ;;;
    runIfAdmin chain proxy
      (let tx := mkTx proxy "changeAdmin" [AStr admin] (Some txOverrides) in
       act (CallHandleTx chain tx) (handleTx env chain tx))
      (fun proxyAdmin =>
         let tx := mkTx proxyAdmin "changeProxyAdmin"
                     [AStr proxy; AStr admin] (Some txOverrides) in
         act (CallHandleTx chain tx) (handleTx env chain tx)) ;;;
    ret tt.

Definition upgradeAndInitialize (chain : string) (proxy : Address)
    (implementation : Address) (initializeArgs : list Arg) : M unit :=
  let* current := read (callStatic env chain proxy "implementation") in
  if eqAddress env implementation current then
    log Debug LImplementationSetCorrectly
  else
    log Debug LUpgrading ;;;
    let initData := encodeInitialize env initializeArgs in
    let overrides := getTransactionOverrides env chain in
    runIfAdmin chain proxy
      (let tx := mkTx proxy "upgradeToAndCall"
                   [AStr implementation; AStr initData] (Some overrides) in
       act (CallHandleTx chain tx) (handleTx env chain tx))
      (fun proxyAdmin =>
         let tx := mkTx proxyAdmin "upgradeAndCall"
                     [AStr proxy; AStr implementation; AStr initData]
                     (Some overrides) in
         act (CallHandleTx chain tx) (handleTx env chain tx)) ;;;
    ret tt.

Definition deployProxy (chain : string) (implementation : Address)
    (proxyAdmin : Address) (initializeArgs : option (list Arg))
    : M Address :=
  let* isProxied := read (isProxy env chain implementation) in
  if isProxied then
    (* if the implementation is already a proxy, do not deploy a new proxy *)
    ret implementation
  else
    let constructorArgs :=
      proxyConstructorArgs env implementation proxyAdmin initializeArgs in
    let* proxy :=
      deployContractFromFactory chain
        (TransparentUpgradeableProxy__factory env)
        "TransparentUpgradeableProxy" constructorArgs None true in
    ret proxy.

Definition deployTimelock (chain : string) (timelockConfig : TimelockConfig)
    : M Address :=
  let args :=
    [ANum (tl_delay timelockConfig);
     AList [AStr (tl_proposer timelockConfig)];
     AList [AStr (tl_executor timelockConfig)];
     AStr AddressZero] in
  act (CallHandleDeploy chain (TimelockController__factory env) args)
      (handleDeploy env chain (TimelockController__factory env) args).

Definition deployProxiedContract (chain contractKey contractName : string)
    (proxyAdmin : Address) (constructorArgs : list Arg)
    (initializeArgs : option (list Arg)) : M Address :=
  (* Try to initialize the implementation even though it may not be
     necessary *)
  let* implementation :=
    deployContractWithName chain contractKey contractName constructorArgs
      initializeArgs true in
  (* Initialize the proxy the same way *)
  let* contract :=
    deployProxy chain implementation proxyAdmin initializeArgs in
  writeCache chain contractName contract ;;;
  ret contract.

Definition mergeWithExistingVerificationInputs
    (existingInputsMap : gmap string (list VerificationInput))
    : M (gmap string (list VerificationInput)) :=
  get (fun s =>
    union_with (fun existingInputs newInputs =>
                  Some (existingInputs ++ newInputs)%list)
      existingInputsMap (verificationInputs s)).

(** The loop of [transferOwnershipOfContracts] over
    [Object.entries(ownables)], with the receipts collected so far. *)
Fixpoint transferOwnershipLoop (chain : string) (config : OwnableConfig)
    (ownables : list (string * option Address)) (receipts : list Receipt)
    : M (list Receipt) :=
  match ownables with
  | [] => ret receipts
  | (contractName, None) :: rest =>
      transferOwnershipLoop chain config rest receipts
  | (contractName, Some ownable) :: rest =>
      let* current := read (callStatic env chain ownable "owner") in
      let owner :=
        match oc_ownerOverrides config ≫= (.!! contractName) with
        | Some override => override
        | None => oc_owner config
        end in
      if negb (eqAddress env current owner) then
        log Debug LOwnerMismatch ;;;
        let* receipt :=
          runIfOwner chain ownable
            (log Debug (LTransferring contractName owner chain) ;;;
             let tx := mkTx ownable "transferOwnership" [AStr owner]
                         (Some (getTransactionOverrides env chain)) in
             act (CallHandleTx chain tx) (handleTx env chain tx)) in
        transferOwnershipLoop chain config rest
          (match receipt with
           | Some r => (receipts ++ [r])%list
           | None => receipts
           end)
      else transferOwnershipLoop chain config rest receipts
  end.

Definition transferOwnershipOfContracts (chain : string)
    (config : OwnableConfig) (ownables : list (string * option Address))
    : M (list Receipt) :=
  transferOwnershipLoop chain config ownables [].
End HyperlaneDeployer.

(** ** HyperlaneCoreDeployer *)

Section HyperlaneCoreDeployer.
Context {W IsmSpec HookConfig : Type}.
Context (env : Env W IsmSpec HookConfig).
(** [coreFactories] of [./contracts] *)
Context (coreFactories : string -> Factory).

Local Abbreviation M := (M W IsmSpec HookConfig).
Local Abbreviation CoreConfig := (CoreConfig IsmSpec HookConfig).

(** The options the constructor passes to [super]. *)
Definition coreOptions : Options :=
  mkOptions coreFactories (1000 * 60 * 10) true false.

(** What reading a property of [undefined] throws. *)
Definition TypeError (property : string) : JsError :=
  Error ("Cannot read properties of undefined (reading '" ++ property ++ "')").

Definition deployHook (chain : string) (config : HookConfig)
    (coreAddresses : HookAddresses) : M (option Address) :=
  let* hooks :=
    act (CallHookDeployer chain config coreAddresses)
        (hookDeployer_deployContracts env chain config coreAddresses) in
  let* deployed :=
    get (fun s => hookDeployer_deployedContracts env chain (world s)) in
  let* inputs :=
    get (fun s => hookDeployer_verificationInputs env chain (world s)) in
  addDeployedContracts chain deployed inputs ;;;
  ret (hooks !! hookType env config).

Definition deployIsm (chain : string) (config : IsmConfig IsmSpec)
    (mailbox : Address) : M Address :=
  let* ism :=
    act (CallIsmFactoryDeploy chain config (Some mailbox))
        (ismFactory_deploy env chain config (Some mailbox)) in
  let* deployedIsms :=
    get (fun s => ismFactory_deployedIsms env chain (world s)) in
  addDeployedContracts chain deployedIsms None ;;;
  ret ism.

(** The rethrow test of the [catch] block of [deployMailbox]. *)
Definition notAlreadyInitialized (e : JsError) : bool :=
  negb (includes (message e) "already initialized")
  && negb (includes (message e) "Reverted 0x08c379a")
  && negb (match error_reason e with
           | Some reason => includes reason "already initialized"
           | None => false
           end).

(** The [try]/[catch] statement of [deployMailbox] ("configure mailbox").
    Both hooks are dereferenced ([.address]) inside the [try]; when one is
    [undefined] the TypeError raised there fails the rethrow test and
    leaves the [catch] block at once. *)
Definition deployMailbox_configure (chain : string) (config : CoreConfig)
    (mailbox ism : Address) (defaultHook requiredHook : option Address)
    : M unit :=
  match defaultHook, requiredHook with
  | Some defaultHook, Some requiredHook =>
      tryCatch
        (log Debug LInitializingMailbox ;;;
         let tx :=
           mkTx mailbox "initialize"
             [AStr (owner config); AStr ism; AStr defaultHook;
              AStr requiredHook]
             (Some (getTransactionOverrides env chain)) in
         act (CallHandleTx chain tx) (handleTx env chain tx) ;;;
         ret tt)
        (fun e =>
           if notAlreadyInitialized e then throw e
           else
             log Debug LMailboxAlreadyInitialized ;;;
             let overrides := getTransactionOverrides env chain in
             configureHook env chain mailbox defaultHook
               (fun _mailbox => callStatic env chain _mailbox "defaultHook")
               (fun _mailbox _hook =>
                  mkTx _mailbox "setDefaultHook" [AStr _hook]
                    (Some overrides)) ;;;
             configureHook env chain mailbox requiredHook
               (fun _mailbox => callStatic env chain _mailbox "requiredHook")
               (fun _mailbox _hook =>
                  mkTx _mailbox "setRequiredHook" [AStr _hook]
                    (Some overrides)) ;;;
             configureIsm env coreOptions chain mailbox (IsmAddress ism)
               (fun _mailbox => callStatic env chain _mailbox "defaultIsm")
               (fun _mailbox _module =>
                  mkTx _mailbox "setDefaultIsm" [AStr _module] None))
  | _, _ =>
      log Debug LInitializingMailbox ;;;
      throw (TypeError "address")
  end.

Definition deployMailbox (chain : string) (config : CoreConfig)
    (proxyAdmin : Address) : M Address :=
  let* domain := lift (getDomainId env chain) in
  let* mailbox :=
    deployProxiedContract env coreOptions chain "mailbox" "mailbox"
      proxyAdmin [ANum domain] None in
  let* configured := read (callStatic env chain mailbox "defaultIsm") in
  let* matches :=
    read (moduleMatchesConfig env chain configured (defaultIsm config)) in
  let* ism :=
    if negb matches then
      log Debug LDeployingDefaultIsm ;;;
      deployIsm chain (defaultIsm config) mailbox
    else ret configured in
  let* cached := get (fun s => cachedAddresses s !! chain) in
  match cached with
  | Some addresses =>
      modify (fun s =>
        set_cachedAddresses
          (<[chain := <["interchainSecurityModule" := ism]> addresses]>
             (cachedAddresses s)) s)
  | None => throw (TypeError "interchainSecurityModule")
  end ;;;
  let hookAddresses := mkHookAddresses mailbox proxyAdmin in
  log Debug LDeployingDefaultHook ;;;
  let* defaultHook := deployHook chain (defaultHook config) hookAddresses in
  log Debug LDeployingRequiredHook ;;;
  let* requiredHook := deployHook chain (requiredHook config) hookAddresses in
  (* configure mailbox *)
  deployMailbox_configure chain config mailbox ism defaultHook requiredHook ;;;
  ret mailbox.

Definition deployValidatorAnnounce (chain : string)
    (mailboxAddress : Address) : M Address :=
  deployContract env coreOptions chain "validatorAnnounce"
    [AStr mailboxAddress] None true.

(** [TestRecipientDeployer.deployContracts] returns [{ testRecipient }]. *)
Definition deployTestRecipient (chain : string)
    (interchainSecurityModule : option (IsmConfig IsmSpec)) : M Address :=
  let* testRecipient :=
    act (CallTestRecipientDeployer chain interchainSecurityModule)
        (testRecipient_deployContracts env chain interchainSecurityModule) in
  addDeployedContracts chain (Some {["testRecipient" := testRecipient]})
    None ;;;
  ret testRecipient.

(** [config] is [configMap[chain]]: [undefined] for a chain without an
    entry.  The assignment to [config.ownerOverrides] is followed locally
    ([config'] below). *)
Definition deployContracts (chain : string) (config : option CoreConfig)
    : M (option Contracts) :=
  match config with
  | None => throw (TypeError "remove")
  | Some config =>
      if remove config then
        (* skip deploying to chains configured to be removed *)
        ret None
      else
        let* proxyAdmin :=
          deployContract env coreOptions chain "proxyAdmin" [] None true in
        let* mailbox := deployMailbox chain config proxyAdmin in
        let* validatorAnnounce := deployValidatorAnnounce chain mailbox in
        let* overrides' :=
          match upgrade config with
          | Some timelock =>
              let* timelockController :=
                deployTimelock env chain timelock in
              ret (Some (<["proxyAdmin" := timelockController]>
                           (default ∅ (ownerOverrides config))))
          | None => ret (ownerOverrides config)
          end in
        let* cached := get (fun s => cachedAddresses s !! chain) in
        let* ism :=
          match cached with
          | Some addresses => ret (addresses !! "interchainSecurityModule")
          | None => throw (TypeError "interchainSecurityModule")
          end in
        let* testRecipient :=
          deployTestRecipient chain (IsmAddress <$> ism) in
        let contracts :=
          [("mailbox", mailbox); ("proxyAdmin", proxyAdmin);
           ("validatorAnnounce", validatorAnnounce);
           ("testRecipient", testRecipient)] in
        transferOwnershipOfContracts env chain
          (mkOwnableConfig (owner config) overrides')
          (map (fun '(name, c) => (name, Some c)) contracts) ;;;
        ret (Some (list_to_map contracts))
  end.
End HyperlaneCoreDeployer.

(** ** Properties of the base class *)

Section Properties.
Context {W IsmSpec HookConfig : Type}.
Context (env : Env W IsmSpec HookConfig) (opts : Options).

Local Abbreviation M := (M W IsmSpec HookConfig).
Local Abbreviation State := (State W IsmSpec HookConfig).

Lemma bind_Ok {A B} (m : M A) (k : A -> M B) s a s' :
  m s = (Ok a, s') -> bind m k s = k a s'.
Proof. intros H. unfold bind. now rewrite H. Qed.

Lemma bind_Throw {A B} (m : M A) (k : A -> M B) s e s' :
  m s = (Throw e, s') -> bind m k s = (Throw e, s').
Proof. intros H. unfold bind. now rewrite H. Qed.

Lemma read_Ok {A} (f : W -> Result A) (s : State) a :
  f (world s) = Ok a -> read f s = (Ok a, s).
Proof. intros H. unfold read. now rewrite H. Qed.

(** *** Authority resolution *)

Lemma runIf_mismatch {T} chain address (fn : M T) label (s : State) signer :
  getSignerAddress env chain (world s) = Ok signer ->
  eqAddress env address signer = false ->
  runIf env chain address fn label s
  = (Ok None,
     set_logs (logs s ++ [(Debug, LSignerMismatch signer label address)]) s).
Proof.
  intros Hs He. unfold runIf.
  rewrite (bind_Ok _ _ _ _ _ (read_Ok _ _ _ Hs)). rewrite He. reflexivity.
Qed.

Lemma runIf_match {T} chain address (fn : M T) label (s : State) signer :
  getSignerAddress env chain (world s) = Ok signer ->
  eqAddress env address signer = true ->
  runIf env chain address fn label s = bind fn (fun r => ret (Some r)) s.
Proof.
  intros Hs He. unfold runIf.
  rewrite (bind_Ok _ _ _ _ _ (read_Ok _ _ _ Hs)). rewrite He. reflexivity.
Qed.

Lemma runIfOwner_mismatch {T} chain ownable (fn : M T) (s : State)
    signer ownr :
  callStatic env chain ownable "owner" (world s) = Ok ownr ->
  getSignerAddress env chain (world s) = Ok signer ->
  eqAddress env ownr signer = false ->
  runIfOwner env chain ownable fn s
  = (Ok None,
     set_logs (logs s ++ [(Debug, LSignerMismatch signer "owner" ownr)]) s).
Proof.
  intros Ho Hs He. unfold runIfOwner.
  rewrite (bind_Ok _ _ _ _ _ (read_Ok _ _ _ Ho)).
  now apply runIf_mismatch.
Qed.

Lemma runIfOwner_match {T} chain ownable (fn : M T) (s : State)
    signer ownr :
  callStatic env chain ownable "owner" (world s) = Ok ownr ->
  getSignerAddress env chain (world s) = Ok signer ->
  eqAddress env ownr signer = true ->
  runIfOwner env chain ownable fn s = bind fn (fun r => ret (Some r)) s.
Proof.
  intros Ho Hs He. unfold runIfOwner.
  rewrite (bind_Ok _ _ _ _ _ (read_Ok _ _ _ Ho)).
  now apply runIf_match with (signer := signer).
Qed.

Lemma runIfAdmin_ProxyAdmin {T} chain proxy (f : M T) (g : Address -> M T)
    (s : State) admin code :
  proxyAdmin env chain proxy (world s) = Ok admin ->
  getCode env chain admin (world s) = Ok code ->
  String.eqb code "0x" = false ->
  runIfAdmin env chain proxy f g s
  = runIfOwner env chain admin (g admin)
      (set_logs (logs s ++ [(Debug, LAdminIsProxyAdmin admin)]) s).
Proof.
  intros Ha Hc Hx. unfold runIfAdmin.
  rewrite (bind_Ok _ _ _ _ _ (read_Ok _ _ _ Ha)).
  rewrite (bind_Ok _ _ _ _ _ (read_Ok _ _ _ Hc)).
  rewrite Hx. reflexivity.
Qed.

Lemma runIfAdmin_EOA {T} chain proxy (f : M T) (g : Address -> M T)
    (s : State) admin :
  proxyAdmin env chain proxy (world s) = Ok admin ->
  getCode env chain admin (world s) = Ok "0x" ->
  runIfAdmin env chain proxy f g s
  = runIf env chain admin f "admin"
      (set_logs (logs s ++ [(Debug, LAdminIsEOA admin)]) s).
Proof.
  intros Ha Hc. unfold runIfAdmin.
  rewrite (bind_Ok _ _ _ _ _ (read_Ok _ _ _ Ha)).
  rewrite (bind_Ok _ _ _ _ _ (read_Ok _ _ _ Hc)).
  reflexivity.
Qed.


(** *** Reconciliation of the module and of the hook *)

Ltac run_reads :=
  repeat match goal with
  | H : ?f (world ?s) = Ok ?a |- context [bind (read ?f) _ ?s] =>
      rewrite (bind_Ok _ _ _ _ _ (read_Ok f s a H))
  end.

(** *** Authority gating of the operations *)

(** The signer is not the owner the contract reports. *)
Definition notOwner (chain : string) (contract signer : Address) (w : W)
    : Prop :=
  exists ownr,
    callStatic env chain contract "owner" w = Ok ownr
    /\ eqAddress env ownr signer = false.


(** No call was made and the chain is as it was. *)
Definition untouched (s s' : State) : Prop :=
  calls s' = calls s /\ world s' = world s.


Lemma runIfOwner_nonowner {T} chain ownable (fn : M T) (s : State) signer :
  getSignerAddress env chain (world s) = Ok signer ->
  notOwner chain ownable signer (world s) ->
  exists s',
    runIfOwner env chain ownable fn s = (Ok None, s') /\ untouched s s'.
Proof.
  intros Hs (ownr & Ho & He).
  rewrite (runIfOwner_mismatch _ _ _ _ _ _ Ho Hs He).
  eexists. split; [reflexivity|]. now split.
Qed.









(** *** What resolution throws *)





(** C3.  Post-write verification: when the configured value differs from
    the target, the signer is the owner and the set transaction is
    accepted, the value is read again; if that read does not give the
    target, [configureIsm] (with a literal or a structural target) and
    [configureHook] throw. *)
Theorem post_write_mismatch_throws chain contract target (s : State) :
  (forall getIsm setIsm configured ownr signer receipt w' actual,
      getIsm contract (world s) = Ok configured ->
      eqAddress env configured target = false ->
      callStatic env chain contract "owner" (world s) = Ok ownr ->
      getSignerAddress env chain (world s) = Ok signer ->
      eqAddress env ownr signer = true ->
      sendTransaction env chain (setIsm contract target) (world s)
      = (Ok receipt, w') ->
      getIsm contract w' = Ok actual ->
      eqAddress env target actual = false ->
      exists s',
        configureIsm env opts chain contract (IsmAddress target) getIsm
          setIsm s
        = (Throw (Error ("Set ISM failed on " ++ chain)), s')
        /\ world s' = w'
        /\ calls s'
           = (calls s ++ [CallSendTransaction chain (setIsm contract target)])
             %list)
  /\ (forall spec getIsm setIsm configured w1 ownr signer receipt w' actual,
      ismFactoryProvided opts = true ->
      getIsm contract (world s) = Ok configured ->
      moduleMatchesConfig env chain configured (IsmObject spec) (world s)
      = Ok false ->
      ismFactory_deploy env chain (IsmObject spec) None (world s)
      = (Ok target, w1) ->
      callStatic env chain contract "owner" w1 = Ok ownr ->
      getSignerAddress env chain w1 = Ok signer ->
      eqAddress env ownr signer = true ->
      sendTransaction env chain (setIsm contract target) w1
      = (Ok receipt, w') ->
      getIsm contract w' = Ok actual ->
      eqAddress env target actual = false ->
      exists s',
        configureIsm env opts chain contract (IsmObject spec) getIsm
          setIsm s
        = (Throw (Error ("Set ISM failed on " ++ chain)), s')
        /\ world s' = w'
        /\ calls s'
           = (calls s ++ [CallIsmFactoryDeploy chain (IsmObject spec) None;
                          CallSendTransaction chain (setIsm contract target)])
             %list)
  /\ (forall getHook setHook configured ownr signer receipt w' actual,
      getHook contract (world s) = Ok configured ->
      eqAddress env target configured = false ->
      callStatic env chain contract "owner" (world s) = Ok ownr ->
      getSignerAddress env chain (world s) = Ok signer ->
      eqAddress env ownr signer = true ->
      sendTransaction env chain (setHook contract target) (world s)
      = (Ok receipt, w') ->
      getHook contract w' = Ok actual ->
      eqAddress env target actual = false ->
      exists s',
        configureHook env chain contract target getHook setHook s
        = (Throw (Error ("Set hook failed on " ++ chain ++ ", wanted "
                         ++ target ++ ", got " ++ actual)), s')
        /\ world s' = w'
        /\ calls s'
           = (calls s ++ [CallSendTransaction chain (setHook contract target)])
             %list).
Proof.
  repeat split.
  - intros getIsm setIsm configured ownr signer receipt w' actual
      Hget Hne Ho Hs Heq Htx Hget' Hne'.
    unfold configureIsm. run_reads. rewrite Hne.
    unfold bind at 1. cbn [ret negb].
    unfold bind at 1.
    rewrite (runIfOwner_match _ _ _ _ _ _ Ho Hs Heq).
    unfold bind, log, act, read. cbn. rewrite Htx. cbn. rewrite Hget', Hne'.
    cbn. eexists. split; [reflexivity|]. now split.
  - intros spec getIsm setIsm configured w1 ownr signer receipt w' actual
      Hp Hget Hm Hd Ho Hs Heq Htx Hget' Hne'.
    unfold configureIsm. run_reads. rewrite Hp.
    unfold bind, ret, act, read, log. cbn. rewrite Hm, Hd. cbn.
    unfold runIfOwner, runIf, bind, read, log, act. cbn.
    rewrite Ho, Hs, Heq. cbn. rewrite Htx. cbn. rewrite Hget', Hne'. cbn.
    eexists. split; [reflexivity|]. split; [reflexivity|].
    now rewrite <- app_assoc.
  - intros getHook setHook configured ownr signer receipt w' actual
      Hget Hne Ho Hs Heq Htx Hget' Hne'.
    unfold configureHook. run_reads. rewrite Hne. cbn [negb].
    unfold bind at 1.
    rewrite (runIfOwner_match _ _ _ _ _ _ Ho Hs Heq).
    unfold bind, log, act, read. cbn. rewrite Htx. cbn. rewrite Hget', Hne'.
    cbn. eexists. split; [reflexivity|]. now split.
Qed.

(** C9.  [configureHook]: when the configured hook is the target, nothing
    happens at all; when it differs and the signer is not the owner, no
    call is made, the world is untouched, and the target hook is recorded
    under ["customHook"] in the chain's [deployedContracts] (the chain's
    other slots and the other chains are kept). *)
Theorem configureHook_customHook chain contract targetHook getHook setHook
    (s : State) configuredHook :
  getHook contract (world s) = Ok configuredHook ->
  (eqAddress env targetHook configuredHook = true ->
     configureHook env chain contract targetHook getHook setHook s
     = (Ok tt, s))
  /\ (forall ownr signer,
      eqAddress env targetHook configuredHook = false ->
      callStatic env chain contract "owner" (world s) = Ok ownr ->
      getSignerAddress env chain (world s) = Ok signer ->
      eqAddress env ownr signer = false ->
      exists s' slots,
        configureHook env chain contract targetHook getHook setHook s
        = (Ok tt, s')
        /\ calls s' = calls s
        /\ world s' = world s
        /\ deployedContracts s' !! chain = Some slots
        /\ slots !! "customHook" = Some targetHook
        /\ (forall slot, slot <> "customHook" ->
              slots !! slot = deployedContracts s !! chain ≫= (.!! slot))
        /\ (forall other, other <> chain ->
              deployedContracts s' !! other = deployedContracts s !! other)).
Proof.
  intros Hget. split.
  - intros Heq. unfold configureHook. run_reads. now rewrite Heq.
  - intros ownr signer Hne Ho Hs Hneq.
    unfold configureHook. run_reads. rewrite Hne. cbn [negb].
    unfold bind at 1.
    rewrite (runIfOwner_mismatch _ _ _ _ _ _ Ho Hs Hneq).
    unfold addDeployedContracts, bind, modify, ret. cbn.
    eexists. eexists. split; [reflexivity|]. cbn.
    split; [reflexivity|]. split; [reflexivity|].
    split; [apply lookup_insert_eq|].
    split; [|split].
    + apply lookup_union_Some_l. apply lookup_singleton_eq.
    + intros slot Hslot.
      rewrite lookup_union_r by (now apply lookup_singleton_ne).
      now destruct (deployedContracts s !! chain).
    + intros other Hother. now apply lookup_insert_ne.
Qed.

(** C8 (what the code does).  [configureIsm] with a structural
    configuration asks [moduleMatchesConfig] first, but calls
    [ismFactory.deploy] whatever the answer: when the configured module
    already matches, a module is still deployed; only the set-module
    transaction is left out. *)
Theorem configureIsm_deploys_although_matching chain contract spec getIsm
    setIsm (s : State) configured deployed w1 :
  ismFactoryProvided opts = true ->
  getIsm contract (world s) = Ok configured ->
  moduleMatchesConfig env chain configured (IsmObject spec) (world s)
  = Ok true ->
  ismFactory_deploy env chain (IsmObject spec) None (world s)
  = (Ok deployed, w1) ->
  exists s',
    configureIsm env opts chain contract (IsmObject spec) getIsm setIsm s
    = (Ok tt, s')
    /\ calls s'
       = (calls s ++ [CallIsmFactoryDeploy chain (IsmObject spec) None])%list
    /\ world s' = w1.
Proof.
  intros Hp Hget Hm Hd.
  unfold configureIsm. run_reads. rewrite Hp.
  unfold bind, ret, act, read. cbn. rewrite Hm, Hd. cbn.
  eexists. split; [reflexivity|]. now split.
Qed.

(** *** The address ledger and proxies *)

Lemma writeCache_lookup chain contractName address (s : State) :
  cachedAddresses (snd (writeCache chain contractName address s)) !! chain
    ≫= (.!! contractName) = Some address.
Proof.
  unfold writeCache, modify. cbn.
  rewrite lookup_insert_eq. cbn. apply lookup_insert_eq.
Qed.

Lemma writeCache_same chain contractName address
    (cache : gmap string (gmap string string)) :
  cache !! chain ≫= (.!! contractName) = Some address ->
  <[chain := <[contractName := address]> (default ∅ (cache !! chain))]> cache
  = cache.
Proof.
  intros H. destruct (cache !! chain) as [slots|] eqn:Hc; [|discriminate].
  cbn in *. apply insert_id. rewrite Hc. f_equal. symmetry.
  now apply insert_id.
Qed.

Lemma deployProxiedContract_cached chain contractKey contractName admin
    constructorArgs initializeArgs (s : State) p s' :
  deployProxiedContract env opts chain contractKey contractName admin
    constructorArgs initializeArgs s = (Ok p, s') ->
  cachedAddresses s' !! chain ≫= (.!! contractName) = Some p.
Proof.
  unfold deployProxiedContract. unfold bind at 1.
  destruct (deployContractWithName _ _ _ _ _ _ _ _ s) as [[impl|e] s1];
    [|discriminate].
  unfold bind at 1.
  destruct (deployProxy _ _ _ _ _ _ s1) as [[c|e] s2]; [|discriminate].
  unfold bind at 1.
  pose proof (writeCache_lookup chain contractName c s2) as Hw.
  destruct (writeCache chain contractName c s2) as [[[]|e] s3] eqn:Hwc;
    [|discriminate].
  unfold ret. intros H. inversion H; subst. exact Hw.
Qed.

(** C5.  [deployProxy] probes the address first and returns an address
    that already is a proxy as it is, with no effect whatever.  Hence,
    when [deployProxiedContract] has returned [p] and runs again for the
    same slot (a resumed run) while the chain reports [p] as a proxy, it
    returns [p] again from the ledger: no call is made, so no second
    proxy is deployed around [p]. *)
Theorem no_double_proxy chain (s : State) :
  (forall implementation admin initializeArgs,
      isProxy env chain implementation (world s) = Ok true ->
      deployProxy env opts chain implementation admin initializeArgs s
      = (Ok implementation, s))
  /\ (forall contractKey contractName admin constructorArgs initializeArgs
        admin' constructorArgs' initializeArgs' p s1,
      deployProxiedContract env opts chain contractKey contractName admin
        constructorArgs initializeArgs s = (Ok p, s1) ->
      truthy p = true ->
      String.eqb p AddressZero = false ->
      recoverVerificationInputs opts = false ->
      getSignerOrProvider env chain (world s1) = Ok tt ->
      isProxy env chain p (world s1) = Ok true ->
      exists s2,
        deployProxiedContract env opts chain contractKey contractName admin'
          constructorArgs' initializeArgs' s1 = (Ok p, s2)
        /\ calls s2 = calls s1
        /\ world s2 = world s1
        /\ cachedAddresses s2 = cachedAddresses s1).
Proof.
  split.
  - intros implementation admin initializeArgs Hp.
    unfold deployProxy. run_reads. reflexivity.
  - intros contractKey contractName admin constructorArgs initializeArgs
      admin' constructorArgs' initializeArgs' p s1 Hrun Ht Hz Hr Hsp Hp.
    apply deployProxiedContract_cached in Hrun.
    unfold deployProxiedContract, deployContractWithName,
      deployContractFromFactory, readCache, deployProxy.
    unfold bind, get, read, log, ret, writeCache, modify. cbn.
    rewrite Hrun, Ht, Hz, Hsp, Hr. cbn.
    rewrite Hp. cbn.
    eexists. split; [reflexivity|]. cbn.
    split; [reflexivity|]. split; [reflexivity|].
    rewrite (writeCache_same _ _ _ (cachedAddresses s1) Hrun).
    now apply writeCache_same.
Qed.

(** *** Relations between the state before and the state after *)

(** The reconciliation phase a call belongs to: 1 for a set-hook
    transaction, 2 for a set-module transaction, 3 for an ownership
    transfer; other calls belong to none. *)
Definition phase (c : Call IsmSpec HookConfig) : option nat :=
  match c with
  | CallSendTransaction _ tx =>
      if (String.eqb (tx_method tx) "setHook"
          || String.eqb (tx_method tx) "setDefaultHook"
          || String.eqb (tx_method tx) "setRequiredHook")%bool then Some 1
      else if (String.eqb (tx_method tx) "setInterchainSecurityModule"
               || String.eqb (tx_method tx) "setDefaultIsm")%bool then Some 2
      else None
  | CallHandleTx _ tx =>
      if String.eqb (tx_method tx) "transferOwnership" then Some 3 else None
  | _ => None
  end.

(** [m] relates every state it starts from to the state it leaves,
    whether it returns or throws. *)
Definition respects {A} (R : State -> State -> Prop) (m : M A) : Prop :=
  forall s r s', m s = (r, s') -> R s s'.

(** A preorder on states that does not look at the log, the ledger, the
    verification inputs or the starting block numbers, that accepts the
    calls satisfying [okCall] -- among them every call outside the three
    phases -- and the writes to [deployedContracts] at the chains
    satisfying [okChain]. *)
Class Insensitive (R : State -> State -> Prop)
    (okCall : Call IsmSpec HookConfig -> Prop) (okChain : string -> Prop) := {
  ins_refl : forall s, R s s;
  ins_trans : forall s1 s2 s3, R s1 s2 -> R s2 s3 -> R s1 s3;
  ins_logs : forall s l, R s (set_logs l s);
  ins_verificationInputs : forall s v, R s (set_verificationInputs v s);
  ins_cachedAddresses : forall s v, R s (set_cachedAddresses v s);
  ins_startingBlockNumbers : forall s v, R s (set_startingBlockNumbers v s);
  ins_deployedContracts : forall chain, okChain chain -> forall s slots,
    R s (set_deployedContracts (<[chain := slots]> (deployedContracts s)) s);
  ins_call : forall c, okCall c -> forall s w,
    R s (set_world w (set_calls (calls s ++ [c]) s));
  ins_quiet : forall c, phase c = None -> okCall c;
}.

Section Respects.
Context (R : State -> State -> Prop).
Context (okCall : Call IsmSpec HookConfig -> Prop) (okChain : string -> Prop).
Context `{!Insensitive R okCall okChain}.

Lemma respects_ret {A} (a : A) : respects R (ret a).
Proof. intros s r s' H. inversion H. apply ins_refl. Qed.

Lemma respects_throw {A} e : respects R (@throw W IsmSpec HookConfig A e).
Proof. intros s r s' H. inversion H. apply ins_refl. Qed.

Lemma respects_lift {A} (x : Result A) : respects R (lift x).
Proof. intros s r s' H. inversion H. apply ins_refl. Qed.

Lemma respects_get {A} (f : State -> A) : respects R (get f).
Proof. intros s r s' H. inversion H. apply ins_refl. Qed.

Lemma respects_read {A} (f : W -> Result A) : respects R (read f).
Proof. intros s r s' H. inversion H. apply ins_refl. Qed.

Lemma respects_log level msg : respects R (log level msg).
Proof. intros s r s' H. inversion H. apply ins_logs. Qed.

Lemma respects_act {A} c (f : W -> Result A * W) :
  okCall c -> respects R (act c f).
Proof.
  intros Hc s r s'. unfold act. destruct (f (world s)) as [r0 w'].
  intros H. inversion H. now apply ins_call.
Qed.

Lemma respects_act_quiet {A} c (f : W -> Result A * W) :
  phase c = None -> respects R (act c f).
Proof. intros Hc. apply respects_act. now apply ins_quiet. Qed.

Lemma respects_bind {A B} (m : M A) (k : A -> M B) :
  respects R m -> (forall a, respects R (k a)) -> respects R (bind m k).
Proof.
  intros Hm Hk s r s'. unfold bind.
  destruct (m s) as [[a|e] s1] eqn:E; intros H.
  - eapply ins_trans; [eapply Hm, E | eapply Hk, H].
  - inversion H; subst. eapply Hm, E.
Qed.

Lemma respects_tryCatch {A} (m : M A) (h : JsError -> M A) :
  respects R m -> (forall e, respects R (h e)) -> respects R (tryCatch m h).
Proof.
  intros Hm Hh s r s'. unfold tryCatch.
  destruct (m s) as [[a|e] s1] eqn:E; intros H.
  - inversion H; subst. eapply Hm, E.
  - eapply ins_trans; [eapply Hm, E | eapply Hh, H].
Qed.

Lemma respects_forEach {A} (l : list A) (body : A -> M unit) :
  (forall x, In x l -> respects R (body x)) -> respects R (forEach l body).
Proof.
  induction l as [|x l IH]; intros H; cbn [forEach].
  - apply respects_ret.
  - apply respects_bind; [apply H; now left|].
    intros _. apply IH. intros y Hy. apply H. now right.
Qed.

Lemma respects_addVerificationArtifacts chain artifacts :
  respects R (addVerificationArtifacts chain artifacts).
Proof. intros s r s' H. inversion H. apply ins_verificationInputs. Qed.

Lemma respects_writeCache chain contractName address :
  respects R (writeCache chain contractName address).
Proof. intros s r s' H. inversion H. apply ins_cachedAddresses. Qed.

Lemma respects_addDeployedContracts chain contracts inputs :
  okChain chain -> respects R (addDeployedContracts chain contracts inputs).
Proof.
  intros Hc. unfold addDeployedContracts. apply respects_bind.
  - intros s r s' H. inversion H. now apply ins_deployedContracts.
  - intros _. destruct inputs.
    + apply respects_addVerificationArtifacts.
    + apply respects_ret.
Qed.
End Respects.
End Properties.

Create HintDb respects.
#[export] Hint Extern 1 => exact I : respects.

Ltac respects_step :=
  match goal with
  | |- respects _ (bind _ _) => eapply respects_bind; [tc_solve | | intros ?]
  | |- respects _ (ret _) => eapply respects_ret; tc_solve
  | |- respects _ (throw _) => eapply respects_throw; tc_solve
  | |- respects _ (lift _) => eapply respects_lift; tc_solve
  | |- respects _ (get _) => eapply respects_get; tc_solve
  | |- respects _ (read _) => eapply respects_read; tc_solve
  | |- respects _ (log _ _) => eapply respects_log; tc_solve
  | |- respects _ (tryCatch _ _) =>
      eapply respects_tryCatch; [tc_solve | | intros ?]
  | |- respects _ (act _ _) =>
      first [solve [eapply respects_act_quiet; [tc_solve | reflexivity]]
            | eapply respects_act; [tc_solve | solve [eauto]]]
  | |- respects _ (writeCache _ _ _) => eapply respects_writeCache; tc_solve
  | |- respects _ (addVerificationArtifacts _ _) =>
      eapply respects_addVerificationArtifacts; tc_solve
  | |- respects _ (addDeployedContracts _ _ _) =>
      eapply respects_addDeployedContracts;
      [tc_solve | first [eassumption | exact I]]
  | |- respects _ (if ?b then _ else _) => destruct b
  | |- respects _ (match ?x with _ => _ end) => destruct x
  | |- respects _ (let _ := _ in _) => cbv zeta
  | |- respects _ (modify _) =>
      let H := fresh in
      intros ? ? ? H; inversion H;
      first [eapply ins_cachedAddresses | eapply ins_startingBlockNumbers]
  | |- respects _ _ => solve [eauto with respects typeclass_instances]
  end.

Ltac respects_go := repeat respects_step.

Section RespectsBase.
Context {W IsmSpec HookConfig : Type}.
Context (env : Env W IsmSpec HookConfig) (opts : Options).
Context (R : State W IsmSpec HookConfig -> State W IsmSpec HookConfig -> Prop).
Context (okCall : Call IsmSpec HookConfig -> Prop) (okChain : string -> Prop).
Context `{!Insensitive R okCall okChain}.

Local Abbreviation M := (M W IsmSpec HookConfig).

Lemma respects_runIf {T} chain address (fn : M T) label :
  respects R fn -> respects R (runIf env chain address fn label).
Proof. intros Hfn. unfold runIf. respects_go. Qed.
#[local] Hint Resolve respects_runIf : respects.

Lemma respects_runIfOwner {T} chain ownable (fn : M T) :
  respects R fn -> respects R (runIfOwner env chain ownable fn).
Proof. intros Hfn. unfold runIfOwner. respects_go. Qed.
#[local] Hint Resolve respects_runIfOwner : respects.

Lemma respects_runIfAdmin {T} chain proxy (f : M T) (g : Address -> M T) :
  respects R f -> (forall a, respects R (g a)) ->
  respects R (runIfAdmin env chain proxy f g).
Proof. intros Hf Hg. unfold runIfAdmin. respects_go. Qed.
#[local] Hint Resolve respects_runIfAdmin : respects.

Lemma respects_configureIsm chain contract config getIsm setIsm :
  (forall target, okCall (CallSendTransaction chain (setIsm contract target))) ->
  respects R (configureIsm env opts chain contract config getIsm setIsm).
Proof.
  intros Hset. unfold configureIsm. respects_go.
  eapply respects_runIfOwner. respects_go.
Qed.
#[local] Hint Resolve respects_configureIsm : respects.

Lemma respects_configureHook chain contract targetHook getHook setHook :
  okChain chain ->
  okCall (CallSendTransaction chain (setHook contract targetHook)) ->
  respects R (configureHook env chain contract targetHook getHook setHook).
Proof.
  intros Hc Hset. unfold configureHook. respects_go.
  eapply respects_runIfOwner. respects_go.
Qed.
#[local] Hint Resolve respects_configureHook : respects.
Lemma respects_configureClient local client config :
  okChain local ->
  (forall target, okCall (CallSendTransaction local
                            (mkTx client "setHook" [AStr target] None))) ->
  (forall target,
      okCall (CallSendTransaction local
                (mkTx client "setInterchainSecurityModule" [AStr target]
                   None))) ->
  respects R (configureClient env opts local client config).
Proof. intros Hc Hh Hi. unfold configureClient. respects_go. Qed.

Lemma respects_readCache chain factory contractName :
  respects R (readCache env chain factory contractName).
Proof. unfold readCache. respects_go. Qed.
#[local] Hint Resolve respects_readCache : respects.

Lemma respects_recoverVerificationArtifacts chain contractName cached
    constructorArgs initializeArgs :
  respects R (recoverVerificationArtifacts env chain contractName cached
                constructorArgs initializeArgs).
Proof. unfold recoverVerificationArtifacts. respects_go. Qed.
#[local] Hint Resolve respects_recoverVerificationArtifacts : respects.

Lemma respects_deployContractFromFactory chain factory contractName
    constructorArgs initializeArgs shouldRecover :
  respects R (deployContractFromFactory env opts chain factory contractName
                constructorArgs initializeArgs shouldRecover).
Proof. unfold deployContractFromFactory. respects_go. Qed.
#[local] Hint Resolve respects_deployContractFromFactory : respects.

Lemma respects_deployContractWithName chain contractKey contractName
    constructorArgs initializeArgs shouldRecover :
  respects R (deployContractWithName env opts chain contractKey contractName
                constructorArgs initializeArgs shouldRecover).
Proof. unfold deployContractWithName. respects_go. Qed.
#[local] Hint Resolve respects_deployContractWithName : respects.

Lemma respects_deployContract chain contractKey constructorArgs
    initializeArgs shouldRecover :
  respects R (deployContract env opts chain contractKey constructorArgs
                initializeArgs shouldRecover).
Proof. unfold deployContract. respects_go. Qed.

Lemma respects_changeAdmin chain proxy admin :
  respects R (changeAdmin env chain proxy admin).
Proof.
  unfold changeAdmin. respects_go.
  eapply respects_runIfAdmin; intros; respects_go.
Qed.

Lemma respects_upgradeAndInitialize chain proxy implementation
    initializeArgs :
  respects R (upgradeAndInitialize env chain proxy implementation
                initializeArgs).
Proof.
  unfold upgradeAndInitialize. respects_go.
  eapply respects_runIfAdmin; intros; respects_go.
Qed.

Lemma respects_deployProxy chain implementation admin initializeArgs :
  respects R (deployProxy env opts chain implementation admin initializeArgs).
Proof. unfold deployProxy. respects_go. Qed.
#[local] Hint Resolve respects_deployProxy : respects.

Lemma respects_deployTimelock chain timelockConfig :
  respects R (deployTimelock env chain timelockConfig).
Proof. unfold deployTimelock. respects_go. Qed.

Lemma respects_deployProxiedContract chain contractKey contractName admin
    constructorArgs initializeArgs :
  respects R (deployProxiedContract env opts chain contractKey contractName
                admin constructorArgs initializeArgs).
Proof. unfold deployProxiedContract. respects_go. Qed.

Lemma respects_transferOwnershipLoop chain config ownables receipts :
  (forall tx, tx_method tx = "transferOwnership" ->
              okCall (CallHandleTx chain tx)) ->
  respects R (transferOwnershipLoop env chain config ownables receipts).
Proof.
  intros Htx. revert receipts.
  induction ownables as [|[contractName [ownable|]] rest IH]; intros receipts;
    cbn [transferOwnershipLoop]; respects_go.
  eapply respects_runIfOwner. respects_go.
Qed.

Lemma respects_transferOwnershipOfContracts chain config ownables :
  (forall tx, tx_method tx = "transferOwnership" ->
              okCall (CallHandleTx chain tx)) ->
  respects R (transferOwnershipOfContracts env chain config ownables).
Proof. intros. now apply respects_transferOwnershipLoop. Qed.
End RespectsBase.

#[export] Hint Resolve respects_runIf respects_runIfOwner respects_runIfAdmin
  respects_configureIsm respects_configureHook respects_readCache
  respects_recoverVerificationArtifacts respects_deployContractFromFactory
  respects_deployContractWithName respects_deployContract
  respects_deployProxy respects_deployTimelock respects_deployProxiedContract
  respects_transferOwnershipOfContracts : respects.

Section RespectsCore.
Context {W IsmSpec HookConfig : Type}.
Context (env : Env W IsmSpec HookConfig) (coreFactories : string -> Factory).
Context (R : State W IsmSpec HookConfig -> State W IsmSpec HookConfig -> Prop).
Context (okCall : Call IsmSpec HookConfig -> Prop) (okChain : string -> Prop).
Context `{!Insensitive R okCall okChain}.

Lemma respects_deployHook chain config coreAddresses :
  okChain chain -> respects R (deployHook env chain config coreAddresses).
Proof. intros Hc. unfold deployHook. respects_go. Qed.
#[local] Hint Resolve respects_deployHook : respects.

Lemma respects_deployIsm chain config mailbox :
  okChain chain -> respects R (deployIsm env chain config mailbox).
Proof. intros Hc. unfold deployIsm. respects_go. Qed.
#[local] Hint Resolve respects_deployIsm : respects.

Lemma respects_deployTestRecipient chain ism :
  okChain chain -> respects R (deployTestRecipient env chain ism).
Proof. intros Hc. unfold deployTestRecipient. respects_go. Qed.
#[local] Hint Resolve respects_deployTestRecipient : respects.

Lemma respects_deployValidatorAnnounce chain mailbox :
  respects R (deployValidatorAnnounce env coreFactories chain mailbox).
Proof. unfold deployValidatorAnnounce. respects_go. Qed.
#[local] Hint Resolve respects_deployValidatorAnnounce : respects.

Lemma respects_deployMailbox_configure chain config mailbox ism defaultHook
    requiredHook :
  okChain chain ->
  (forall tx, okCall (CallSendTransaction chain tx)) ->
  respects R (deployMailbox_configure env coreFactories chain config mailbox
                ism defaultHook requiredHook).
Proof.
  intros Hc Htx. unfold deployMailbox_configure. respects_go.
Qed.
#[local] Hint Resolve respects_deployMailbox_configure : respects.

Lemma respects_deployMailbox chain config admin :
  okChain chain ->
  (forall tx, okCall (CallSendTransaction chain tx)) ->
  respects R (deployMailbox env coreFactories chain config admin).
Proof.
  intros Hc Htx. unfold deployMailbox. respects_go.
Qed.
#[local] Hint Resolve respects_deployMailbox : respects.

Lemma respects_deployContracts chain config :
  okChain chain ->
  (forall tx, okCall (CallSendTransaction chain tx)) ->
  (forall tx, okCall (CallHandleTx chain tx)) ->
  respects R (deployContracts env coreFactories chain config).
Proof.
  intros Hc Htx Hh. unfold deployContracts. respects_go.
Qed.
End RespectsCore.

#[export] Hint Resolve respects_deployHook respects_deployIsm
  respects_deployTestRecipient respects_deployValidatorAnnounce
  respects_deployMailbox_configure respects_deployMailbox
  respects_deployContracts : respects.

(** ** Properties of [deploy] *)

Section DeployProperties.
Context {W IsmSpec HookConfig Config : Type}.
Context (env : Env W IsmSpec HookConfig) (opts : Options).
Context (runWithTimeout :
           forall A, Z -> M W IsmSpec HookConfig A -> M W IsmSpec HookConfig A).
Context (deployContracts :
           string -> option Config -> M W IsmSpec HookConfig (option Contracts)).

Local Abbreviation M := (M W IsmSpec HookConfig).
Local Abbreviation State := (State W IsmSpec HookConfig).

(** The predicate [deploy] filters the configured chains with. *)
Definition isEthereumChain (chain : string) : Result bool :=
  match getChainMetadata_protocol env chain with
  | Ok protocol => Ok (isEthereum protocol)
  | Throw e => Throw e
  end.

(** A chain the provider knows under another protocol than Ethereum. *)
Definition otherProtocol (chain : string) : bool :=
  match getChainMetadata_protocol env chain with
  | Ok (OtherProtocol _) => true
  | _ => false
  end.

(** [other]'s entry of [deployedContracts] is the same before and after. *)
Definition keeps (other : string) (s s' : State) : Prop :=
  deployedContracts s' !! other = deployedContracts s !! other.

Lemma forEach_stops {A} (before : list A) x after (body : A -> M unit)
    (s s1 s2 : State) e :
  forEach before body s = (Ok tt, s1) ->
  body x s1 = (Throw e, s2) ->
  forEach (before ++ x :: after) body s = (Throw e, s2).
Proof.
  revert s. induction before as [|y before IH]; intros s Hb Hx; cbn in *.
  - inversion Hb; subst. now rewrite (bind_Throw _ _ _ _ _ Hx).
  - unfold bind in *. destruct (body y s) as [[[]|e0] s0]; [|discriminate].
    now apply IH.
Qed.

Lemma forEach_ext {A} (l : list A) (f g : A -> M unit) :
  (forall x, In x l -> f x = g x) -> forEach l f = forEach l g.
Proof.
  induction l as [|x l IH]; intros H; cbn; [reflexivity|].
  rewrite (H x) by now left. rewrite IH; [reflexivity|].
  intros y Hy. apply H. now right.
Qed.

Lemma filterR_In {A} (p : A -> Result bool) l r x :
  filterR p l = Ok r -> In x r -> In x l /\ p x = Ok true.
Proof.
  revert r. induction l as [|y l IH]; intros r H Hx; cbn in H.
  - inversion H; subst. destruct Hx.
  - destruct (p y) as [b|e] eqn:Hy; [|discriminate].
    destruct (filterR p l) as [r0|e]; [|discriminate].
    inversion H; subst. destruct b.
    + destruct Hx as [->|Hx]; [split; [now left|assumption]|].
      destruct (IH _ eq_refl Hx). split; [now right|assumption].
    + destruct (IH _ eq_refl Hx). split; [now right|assumption].
Qed.

Lemma filterR_drop_other (configMap : list (string * Config)) :
  filterR isEthereumChain
    (map fst (List.filter (fun '(c, _) => negb (otherProtocol c)) configMap))
  = filterR isEthereumChain (map fst configMap).
Proof.
  induction configMap as [|[c cfg] l IH]; cbn; [reflexivity|].
  unfold otherProtocol at 1, isEthereumChain at 2.
  destruct (getChainMetadata_protocol env c) as [[|name]|e] eqn:Hc; cbn.
  - unfold isEthereumChain at 1. rewrite Hc. now rewrite IH.
  - rewrite IH. now destruct (filterR isEthereumChain (map fst l)).
  - unfold isEthereumChain at 1. now rewrite Hc.
Qed.

Lemma chainMapGet_drop_other (configMap : list (string * Config)) chain :
  otherProtocol chain = false ->
  chainMapGet
    (List.filter (fun '(c, _) => negb (otherProtocol c)) configMap) chain
  = chainMapGet configMap chain.
Proof.
  intros Hk. induction configMap as [|[c cfg] l IH]; cbn; [reflexivity|].
  destruct (String.eqb c chain) eqn:E.
  - apply String.eqb_eq in E. subst. rewrite Hk. cbn.
    now rewrite String.eqb_refl.
  - destruct (otherProtocol c); cbn; [assumption|]. now rewrite E.
Qed.

#[export] Instance keeps_insensitive other :
  Insensitive (keeps other) (fun _ => True) (fun chain => chain <> other).
Proof.
  unfold keeps. split; try (intros; reflexivity); try (intros; exact I).
  - intros s1 s2 s3 H1 H2. now rewrite H2.
  - intros chain Hc s slots. cbn. now apply lookup_insert_ne.
Qed.

Lemma isEthereumChain_not_other chain :
  isEthereumChain chain = Ok true -> otherProtocol chain = false.
Proof.
  unfold isEthereumChain, otherProtocol.
  destruct (getChainMetadata_protocol env chain) as [[|name]|e];
    cbn; intros H; now inversion H.
Qed.

Lemma respects_deployChain other (configMap : list (string * Config)) chain :
  (forall ms (cb : M unit) s0 r s1,
      runWithTimeout unit ms cb s0 = (r, s1) -> exists r0, cb s0 = (r0, s1)) ->
  (forall cfg, respects (keeps other) (deployContracts chain cfg)) ->
  chain <> other ->
  respects (keeps other)
    (deployChain env opts runWithTimeout deployContracts configMap chain).
Proof.
  intros Hrwt Hdc Hne. unfold deployChain. respects_go.
  intros s r s' H. destruct (Hrwt _ _ _ _ _ H) as [r0 Hcb].
  {
    assert (Hresp : respects (keeps other)
      (let* contracts := deployContracts chain (chainMapGet configMap chain)
       in addDeployedContracts chain contracts None)) by respects_go.
    eapply Hresp, Hcb. }
Qed.

(** C1 (as the code has it).  [deploy] has no handler around a chain's
    run: when the chains [before] have completed and the run of [chain]
    throws [e] -- an exception of [deployContracts] or the timeout of
    [runWithTimeout] -- [deploy] throws [e] at once.  No contract map is
    returned, and the state left is the one in which [chain] failed,
    whatever the chains [after] it are: none of them is attempted.  What
    the chains [before] recorded in [deployedContracts] stays there: the
    entry of every chain other than the failing one is, after the
    failure, the one the chains [before] left.  The latter needs of the
    collaborators that a timed-out callback leaves the state it leaves
    anyway and that [deployContracts] writes [deployedContracts] for its
    own chain only. *)
Theorem deploy_stops_at_first_failure (configMap : list (string * Config))
    (s : State) ethereumConfigChains before chain after s1 e s2 :
  filterR isEthereumChain (map fst configMap) = Ok ethereumConfigChains ->
  intersect env ethereumConfigChains true
  = Ok (before ++ chain :: after)%list ->
  forEach before
    (deployChain env opts runWithTimeout deployContracts configMap)
    (set_logs
       (logs s ++ [(Debug, LStartDeploy (before ++ chain :: after)%list)]) s)
  = (Ok tt, s1) ->
  deployChain env opts runWithTimeout deployContracts configMap chain s1
  = (Throw e, s2) ->
  deploy env opts runWithTimeout deployContracts configMap s = (Throw e, s2)
  /\ ((forall ms (cb : M unit) s0 r s1,
         runWithTimeout unit ms cb s0 = (r, s1) ->
         exists r0, cb s0 = (r0, s1)) ->
      (forall cfg other,
         chain <> other -> respects (keeps other) (deployContracts chain cfg)) ->
      forall other,
        other <> chain ->
        deployedContracts s2 !! other = deployedContracts s1 !! other).
Proof.
  intros Hf Hi Hb Hc. split.
  - unfold deploy.
    fold isEthereumChain. rewrite Hf. unfold bind at 1, lift at 1.
    rewrite Hi. unfold bind at 1, lift at 1.
    unfold bind at 1, log at 1.
    rewrite (bind_Throw _ _ _ _ _ (forEach_stops _ _ _ _ _ _ _ _ Hb Hc)).
    reflexivity.
  - intros Hrwt Hdc other Hne.
    assert (Hresp : respects (keeps other)
              (deployChain env opts runWithTimeout deployContracts configMap
                 chain)).
    { apply respects_deployChain; [assumption | | congruence].
      intros cfg. apply Hdc. congruence. }
    exact (Hresp _ _ _ Hc).
Qed.

Lemma deploy_unfold (configMap : list (string * Config)) (s : State) :
  deploy env opts runWithTimeout deployContracts configMap s
  = match filterR isEthereumChain (map fst configMap) with
    | Throw e => (Throw e, s)
    | Ok ethereumConfigChains =>
        match intersect env ethereumConfigChains true with
        | Throw e => (Throw e, s)
        | Ok targetChains =>
            match
              forEach targetChains
                (deployChain env opts runWithTimeout deployContracts
                   configMap)
                (set_logs (logs s ++ [(Debug, LStartDeploy targetChains)]) s)
            with
            | (Ok _, s') => (Ok (deployedContracts s'), s')
            | (Throw e, s') => (Throw e, s')
            end
        end
    end.
Proof.
  unfold deploy. fold isEthereumChain. unfold bind, lift, log, get.
  destruct (filterR isEthereumChain (map fst configMap)) as [eth|e];
    [|reflexivity].
  destruct (intersect env eth true) as [targets|e]; reflexivity.
Qed.

(** C10.  [deploy] keeps, of the configured chains, those whose metadata
    names the Ethereum protocol, and runs the chains [intersect] returns
    for them.  A configured chain of another protocol is skipped in
    silence: the whole run -- result, exception if any, and state -- is
    the run of the configuration map without that chain's entry, and the
    chain's entry in [deployedContracts], hence in the map that is
    returned, is the one it had before the call.  This needs of the
    collaborators that [intersect] returns chains of its argument, that a
    timed-out callback leaves the state it leaves anyway, and that
    [deployContracts] writes [deployedContracts] for its own chain
    only. *)
Theorem deploy_skips_other_protocols (configMap : list (string * Config))
    (s : State) :
  (forall chains targets,
      intersect env chains true = Ok targets ->
      forall c, In c targets -> In c chains) ->
  (forall ms (cb : M unit) s0 r s1,
      runWithTimeout unit ms cb s0 = (r, s1) -> exists r0, cb s0 = (r0, s1)) ->
  (forall chain cfg other,
      chain <> other -> respects (keeps other) (deployContracts chain cfg)) ->
  deploy env opts runWithTimeout deployContracts configMap s
  = deploy env opts runWithTimeout deployContracts
      (List.filter (fun '(c, _) => negb (otherProtocol c)) configMap) s
  /\ (forall ethereumConfigChains targets,
        filterR isEthereumChain (map fst configMap) = Ok ethereumConfigChains ->
        intersect env ethereumConfigChains true = Ok targets ->
        forall c, In c targets ->
                  In c (map fst configMap)
                  /\ getChainMetadata_protocol env c = Ok Ethereum)
  /\ (forall chain r s',
        otherProtocol chain = true ->
        deploy env opts runWithTimeout deployContracts configMap s = (r, s') ->
        deployedContracts s' !! chain = deployedContracts s !! chain
        /\ forall contractsMap,
             r = Ok contractsMap ->
             contractsMap !! chain = deployedContracts s !! chain).
Proof.
  intros Hint Hrwt Hdc.
  assert (Htargets : forall ethereumConfigChains targets,
             filterR isEthereumChain (map fst configMap)
             = Ok ethereumConfigChains ->
             intersect env ethereumConfigChains true = Ok targets ->
             forall c, In c targets ->
                       In c (map fst configMap)
                       /\ isEthereumChain c = Ok true).
  { intros eth targets Hf Hi c Hc.
    apply (filterR_In _ _ _ _ Hf). eapply Hint; eassumption. }
  split; [|split].
  - rewrite !deploy_unfold, filterR_drop_other.
    destruct (filterR isEthereumChain (map fst configMap)) as [eth|e] eqn:Hf;
      [|reflexivity].
    destruct (intersect env eth true) as [targets|e] eqn:Hi; [|reflexivity].
    rewrite (forEach_ext targets
               (deployChain env opts runWithTimeout deployContracts configMap)
               (deployChain env opts runWithTimeout deployContracts
                  (List.filter (fun '(c, _) => negb (otherProtocol c))
                     configMap))); [reflexivity|].
    intros c Hc. unfold deployChain.
    rewrite chainMapGet_drop_other; [reflexivity|].
    apply isEthereumChain_not_other. apply (Htargets _ _ eq_refl Hi c Hc).
  - intros eth targets Hf Hi c Hc.
    destruct (Htargets _ _ Hf Hi c Hc) as [Hin He]. split; [assumption|].
    unfold isEthereumChain in He.
    destruct (getChainMetadata_protocol env c) as [[|name]|e];
      cbn in He; now inversion He.
  - intros chain r s' Hother Hrun.
    rewrite deploy_unfold in Hrun.
    destruct (filterR isEthereumChain (map fst configMap)) as [eth|e] eqn:Hf.
    2:{ inversion Hrun; subst. split; [reflexivity|discriminate]. }
    destruct (intersect env eth true) as [targets|e] eqn:Hi.
    2:{ inversion Hrun; subst. split; [reflexivity|discriminate]. }
    assert (Hloop : respects (keeps chain)
              (forEach targets
                 (deployChain env opts runWithTimeout deployContracts
                    configMap))).
    { eapply respects_forEach; [tc_solve|]. intros c Hc.
      apply respects_deployChain; [assumption| |].
      - intros cfg. apply Hdc. intros ->.
        destruct (Htargets _ _ eq_refl Hi _ Hc) as [_ He].
        apply isEthereumChain_not_other in He. congruence.
      - intros ->.
        destruct (Htargets _ _ eq_refl Hi _ Hc) as [_ He].
        apply isEthereumChain_not_other in He. congruence. }
    destruct (forEach targets _ _) as [[[]|e] s1] eqn:Hfe;
      inversion Hrun; subst; apply Hloop in Hfe; unfold keeps in Hfe;
      cbn in Hfe.
    + split; [assumption|]. intros m Hm. inversion Hm; subst. assumption.
    + split; [assumption|discriminate].
Qed.
End DeployProperties.

(** ** The order of reconciliation *)

Section Phases.
Context {W IsmSpec HookConfig : Type}.

Local Abbreviation M := (M W IsmSpec HookConfig).
Local Abbreviation State := (State W IsmSpec HookConfig).
Local Abbreviation Call := (Call IsmSpec HookConfig).

(** In a trace, a call of a phase never comes after a call of a later
    phase. *)
Definition ordered (l : list Call) : Prop :=
  forall i j ci cj pi pj,
    l !! i = Some ci -> l !! j = Some cj -> i < j ->
    phase ci = Some pi -> phase cj = Some pj -> pi <= pj.

Definition within (lo hi : nat) (l : list Call) : Prop :=
  Forall (fun c => forall p, phase c = Some p -> lo <= p <= hi) l.

Definition quietOr (k : nat) (c : Call) : Prop :=
  phase c = None \/ phase c = Some k.

(** The calls made between [s] and [s'] are outside the phases or in
    phase [k]. *)
Definition inPhase (k : nat) (s s' : State) : Prop :=
  exists l, calls s' = (calls s ++ l)%list /\ Forall (quietOr k) l.

(** The calls made between [s] and [s'] are ordered and their phases lie
    between [lo] and [hi]. *)
Definition inPhases (lo hi : nat) (s s' : State) : Prop :=
  exists l, calls s' = (calls s ++ l)%list /\ ordered l /\ within lo hi l.

#[export] Instance inPhase_insensitive k :
  Insensitive (inPhase k) (quietOr k) (fun _ => True).
Proof.
  split.
  - intros s. exists []. split; [now rewrite app_nil_r|constructor].
  - intros s1 s2 s3 [l1 [H1 F1]] [l2 [H2 F2]]. exists (l1 ++ l2)%list.
    split; [now rewrite H2, H1, app_assoc | now apply Forall_app].
  - intros s l. exists []. split; [cbn; now rewrite app_nil_r|constructor].
  - intros s l. exists []. split; [cbn; now rewrite app_nil_r|constructor].
  - intros s l. exists []. split; [cbn; now rewrite app_nil_r|constructor].
  - intros s l. exists []. split; [cbn; now rewrite app_nil_r|constructor].
  - intros chain _ s l. exists [].
    split; [cbn; now rewrite app_nil_r|constructor].
  - intros c Hc s w. exists [c]. split; [reflexivity|].
    constructor; [assumption|constructor].
  - intros c Hc. now left.
Qed.

Lemma quietOr_ordered k (l : list Call) :
  Forall (quietOr k) l -> ordered l /\ within k k l.
Proof.
  intros H. split.
  - intros i j ci cj pi pj Hi Hj _ Hpi Hpj.
    destruct (Forall_lookup_1 _ _ _ _ H Hi) as [E|E]; [congruence|].
    destruct (Forall_lookup_1 _ _ _ _ H Hj) as [E'|E']; [congruence|].
    assert (pi = k) by congruence. assert (pj = k) by congruence. lia.
  - eapply Forall_impl; [exact H|]. intros c [E|E] p Hp; [congruence|].
    assert (p = k) by congruence. lia.
Qed.

Lemma ordered_app lo mid hi (l1 l2 : list Call) :
  ordered l1 -> within lo mid l1 -> ordered l2 -> within mid hi l2 ->
  ordered (l1 ++ l2).
Proof.
  intros O1 W1 O2 W2 i j ci cj pi pj Hi Hj Hlt Hpi Hpj.
  apply lookup_app_Some in Hi. apply lookup_app_Some in Hj.
  destruct Hi as [Hi|[Hli Hi]], Hj as [Hj|[Hlj Hj]].
  - exact (O1 i j ci cj pi pj Hi Hj Hlt Hpi Hpj).
  - pose proof (Forall_lookup_1 _ _ _ _ W1 Hi _ Hpi).
    pose proof (Forall_lookup_1 _ _ _ _ W2 Hj _ Hpj). lia.
  - apply lookup_lt_Some in Hj. lia.
  - apply (O2 (i - length l1) (j - length l1) ci cj pi pj Hi Hj); [lia|..];
      assumption.
Qed.

Lemma within_weaken lo hi lo' hi' (l : list Call) :
  lo' <= lo -> hi <= hi' -> within lo hi l -> within lo' hi' l.
Proof.
  intros Hlo Hhi H. eapply Forall_impl; [exact H|].
  intros c Hc p Hp. specialize (Hc p Hp). lia.
Qed.

Lemma inPhases_seq a b c (s1 s2 s3 : State) :
  a <= b -> b <= c ->
  inPhases a b s1 s2 -> inPhases b c s2 s3 -> inPhases a c s1 s3.
Proof.
  intros Hab Hbc [l1 [H1 [O1 W1]]] [l2 [H2 [O2 W2]]].
  exists (l1 ++ l2)%list. split; [now rewrite H2, H1, app_assoc|]. split.
  - eapply ordered_app; eassumption.
  - apply Forall_app. split.
    + apply (within_weaken a b); [lia|lia|assumption].
    + apply (within_weaken b c); [lia|lia|assumption].
Qed.

Lemma inPhases_weaken a b a' b' (s s' : State) :
  a' <= a -> b <= b' -> inPhases a b s s' -> inPhases a' b' s s'.
Proof.
  intros Ha Hb [l [H [O Wi]]]. exists l. split; [assumption|].
  split; [assumption|]. now apply (within_weaken a b).
Qed.

Lemma respects_inPhase {A} k lo hi (m : M A) :
  lo <= k -> k <= hi -> respects (inPhase k) m -> respects (inPhases lo hi) m.
Proof.
  intros Hlo Hhi H s r s' Hrun. destruct (H _ _ _ Hrun) as [l [Hl F]].
  destruct (quietOr_ordered _ _ F) as [O Wi].
  exists l. split; [assumption|]. split; [assumption|].
  now apply (within_weaken k k).
Qed.

Lemma inPhases_bind {A B} a b c (m : M A) (k : A -> M B) :
  a <= b -> b <= c ->
  respects (inPhases a b) m -> (forall x, respects (inPhases b c) (k x)) ->
  respects (inPhases a c) (bind m k).
Proof.
  intros Hab Hbc Hm Hk s r s'. unfold bind.
  destruct (m s) as [[x|e] s1] eqn:E; intros H.
  - eapply inPhases_seq; [exact Hab|exact Hbc|eapply Hm, E|eapply Hk, H].
  - inversion H; subst.
    apply (inPhases_weaken a b); [lia|lia|eapply Hm, E].
Qed.

Lemma inPhases_tryCatch {A} a b c (m : M A) (h : JsError -> M A) :
  a <= b -> b <= c ->
  respects (inPhases a b) m -> (forall e, respects (inPhases b c) (h e)) ->
  respects (inPhases a c) (tryCatch m h).
Proof.
  intros Hab Hbc Hm Hh s r s'. unfold tryCatch.
  destruct (m s) as [[x|e] s1] eqn:E; intros H.
  - inversion H; subst.
    apply (inPhases_weaken a b); [lia|lia|eapply Hm, E].
  - eapply inPhases_seq; [exact Hab|exact Hbc|eapply Hm, E|eapply Hh, H].
Qed.
End Phases.

Ltac quiet_in k :=
  solve [eapply (respects_inPhase k); [lia | lia | respects_go]].

Ltac phase_bind b :=
  eapply (inPhases_bind _ b _); [lia | lia | | intros ?].

Section Order.
Context {W IsmSpec HookConfig : Type}.
Context (env : Env W IsmSpec HookConfig) (coreFactories : string -> Factory).

Local Abbreviation M := (M W IsmSpec HookConfig).
Local Abbreviation State := (State W IsmSpec HookConfig).

Lemma configureHook_inPhase chain contract targetHook getHook setHook :
  phase (IsmSpec := IsmSpec) (HookConfig := HookConfig)
    (CallSendTransaction chain (setHook contract targetHook)) = Some 1 ->
  respects (inPhase 1)
    (configureHook env chain contract targetHook getHook setHook).
Proof.
  intros Hm. eapply respects_configureHook; [tc_solve | exact I |].
  now right.
Qed.

Lemma configureIsm_inPhase opts chain contract config getIsm setIsm :
  (forall target,
      phase (IsmSpec := IsmSpec) (HookConfig := HookConfig)
        (CallSendTransaction chain (setIsm contract target)) = Some 2) ->
  respects (inPhase 2)
    (configureIsm env opts chain contract config getIsm setIsm).
Proof.
  intros Hm. eapply respects_configureIsm; [tc_solve|].
  intros target. right. apply Hm.
Qed.

Lemma transferOwnershipOfContracts_inPhase chain config ownables :
  respects (inPhase 3)
    (transferOwnershipOfContracts env chain config ownables).
Proof.
  eapply respects_transferOwnershipOfContracts; [tc_solve|].
  intros tx Htx. right. cbn. now rewrite Htx.
Qed.

Lemma deployMailbox_configure_inPhases chain config mailbox ism defaultHook
    requiredHook :
  respects (inPhases 1 2)
    (deployMailbox_configure env coreFactories chain config mailbox ism
       defaultHook requiredHook).
Proof.
  unfold deployMailbox_configure.
  destruct defaultHook as [dh|], requiredHook as [rh|]; try (quiet_in 1).
  apply (inPhases_tryCatch 1 1 2); [lia | lia | quiet_in 1 |].
  intros e. destruct (notAlreadyInitialized e); [quiet_in 1|].
  phase_bind 1; [quiet_in 1|]. cbv zeta.
  phase_bind 1.
  { apply (respects_inPhase 1); [lia | lia |].
    now apply configureHook_inPhase. }
  phase_bind 1.
  { apply (respects_inPhase 1); [lia | lia |].
    now apply configureHook_inPhase. }
  apply (respects_inPhase 2); [lia | lia |].
  now apply configureIsm_inPhase.
Qed.

Lemma deployMailbox_inPhases chain config admin :
  respects (inPhases 1 2) (deployMailbox env coreFactories chain config admin).
Proof.
  unfold deployMailbox.
  repeat (phase_bind 1; [quiet_in 1 |]).
  phase_bind 2; [apply deployMailbox_configure_inPhases | quiet_in 2].
Qed.

Lemma deployContracts_inPhases chain config :
  respects (inPhases 1 3) (deployContracts env coreFactories chain config).
Proof.
  unfold deployContracts.
  destruct config as [config|]; [|quiet_in 1].
  destruct (remove config); [quiet_in 1|].
  phase_bind 1; [quiet_in 1|].
  phase_bind 2; [apply deployMailbox_inPhases|].
  repeat (phase_bind 2; [quiet_in 2 |]).
  phase_bind 3; [|quiet_in 3].
  apply (respects_inPhase 3); [lia | lia |].
  apply transferOwnershipOfContracts_inPhase.
Qed.

Lemma configureClient_inPhases opts local client config :
  respects (inPhases 1 2) (configureClient env opts local client config).
Proof.
  unfold configureClient.
  phase_bind 1; [quiet_in 1|].
  phase_bind 1.
  { apply (respects_inPhase 1); [lia | lia |].
    destruct (cc_hook config) as [hook|]; [|respects_go].
    destruct (truthy hook); [|respects_go].
    eapply respects_bind; [tc_solve | respects_go |]. intros _.
    now apply configureHook_inPhase. }
  phase_bind 2; [|quiet_in 2].
  apply (respects_inPhase 2); [lia | lia |].
  destruct (cc_interchainSecurityModule config) as [ism|]; [|respects_go].
  destruct (ismTruthy ism); [|respects_go].
  now apply configureIsm_inPhase.
Qed.

(** C7 (as the code has it).  In the calls of one chain's
    [deployContracts], and in those of [configureClient], a set-hook
    transaction (phase 1) never comes after a set-module transaction
    (phase 2), and neither comes after an ownership transfer (phase 3):
    hooks are reconciled first, then the module, and ownership is
    transferred last. *)
Theorem reconciliation_order chain (s : State) :
  (forall config r s',
      deployContracts env coreFactories chain config s = (r, s') ->
      exists l, calls s' = (calls s ++ l)%list /\ ordered l)
  /\ (forall opts client config r s',
      configureClient env opts chain client config s = (r, s') ->
      exists l, calls s' = (calls s ++ l)%list /\ ordered l).
Proof.
  split.
  - intros config r s' H.
    destruct (deployContracts_inPhases chain config _ _ _ H) as [l [Hl [O _]]].
    now exists l.
  - intros opts client config r s' H.
    destruct (configureClient_inPhases opts chain client config _ _ _ H)
      as [l [Hl [O _]]].
    now exists l.
Qed.
End Order.

(** ** Properties of the core deployer *)

Section CoreProperties.
Context {W IsmSpec HookConfig : Type}.
Context (env : Env W IsmSpec HookConfig) (coreFactories : string -> Factory).

Local Abbreviation M := (M W IsmSpec HookConfig).
Local Abbreviation State := (State W IsmSpec HookConfig).











(** [deployTimelock] never looks at the ledger: whatever the state, one
    deployment of a TimelockController is requested. *)
Lemma deployTimelock_always_deploys chain timelockConfig (s : State) :
  calls (snd (deployTimelock env chain timelockConfig s))
  = (calls s
     ++ [CallHandleDeploy chain (TimelockController__factory env)
           [ANum (tl_delay timelockConfig);
            AList [AStr (tl_proposer timelockConfig)];
            AList [AStr (tl_executor timelockConfig)];
            AStr AddressZero]])%list.
Proof.
  unfold deployTimelock, act.
  now destruct (handleDeploy env chain _ _ (world s)).
Qed.
End CoreProperties.

(** ** Further properties of the base class *)

(** Runs the leading reads of the goal whose results are hypotheses. *)
Ltac step_reads :=
  repeat match goal with
  | H : ?f (world ?s) = Ok ?a |- context [bind (read ?f) _ ?s] =>
      rewrite (bind_Ok _ _ _ _ _ (read_Ok f s a H))
  end.

Section Ledger.
Context {W IsmSpec HookConfig : Type}.
Context (env : Env W IsmSpec HookConfig) (opts : Options).

Local Abbreviation M := (M W IsmSpec HookConfig).
Local Abbreviation State := (State W IsmSpec HookConfig).

(** The address the ledger holds for a slot of a chain. *)
Definition ledger (s : State) (chain contractName : string) : option string :=
  cachedAddresses s !! chain ≫= (.!! contractName).

Lemma ledger_writeCache chain contractName address (s : State) c n :
  ledger (snd (writeCache chain contractName address s)) c n
  = if decide (c = chain /\ n = contractName) then Some address
    else ledger s c n.
Proof.
  unfold ledger, writeCache, modify. cbn.
  destruct (decide (c = chain)) as [->|Hc].
  - rewrite lookup_insert_eq. cbn.
    destruct (decide (n = contractName)) as [->|Hn].
    + rewrite lookup_insert_eq. now rewrite decide_True.
    + rewrite lookup_insert_ne by congruence.
      rewrite decide_False by (intros [_ ?]; congruence).
      now destruct (cachedAddresses s !! chain).
  - rewrite lookup_insert_ne by congruence.
    now rewrite decide_False by (intros [? _]; congruence).
Qed.

(** X1.  Ledger round trip: once [writeCache] has bound a slot to an
    address that is neither empty nor the zero address, [readCache] for
    that slot returns this address -- whatever the slot held before --
    and touches neither the world nor the call trace. *)
Theorem readCache_after_writeCache chain factory contractName address
    (s : State) :
  truthy address = true ->
  String.eqb address AddressZero = false ->
  getSignerOrProvider env chain (world s) = Ok tt ->
  exists s',
    (writeCache chain contractName address ;;;
     readCache env chain factory contractName) s
    = (Ok (Some address), s')
    /\ calls s' = calls s
    /\ world s' = world s
    /\ ledger s' chain contractName = Some address.
Proof.
  intros Ht Hz Hsp.
  set (s1 := snd (writeCache chain contractName address s)).
  assert (Hl : ledger s1 chain contractName = Some address).
  { unfold s1. rewrite ledger_writeCache. now rewrite decide_True. }
  assert (Hw : writeCache chain contractName address s = (Ok tt, s1))
    by reflexivity.
  rewrite (bind_Ok _ _ _ _ _ Hw).
  unfold readCache, bind, get, read, log, ret.
  fold (ledger s1 chain contractName). rewrite Hl.
  change (world s1) with (world s). rewrite Hsp, Ht, Hz. cbn.
  eexists. split; [reflexivity|]. cbn. repeat split. exact Hl.
Qed.

Lemma readCache_sentinel chain factory contractName (s : State) :
  ledger s chain contractName = None
  \/ ledger s chain contractName = Some ""
  \/ ledger s chain contractName = Some AddressZero ->
  getSignerOrProvider env chain (world s) = Ok tt ->
  readCache env chain factory contractName s = (Ok None, s).
Proof.
  unfold ledger. intros H Hsp.
  unfold readCache, bind, get, read, log, ret. rewrite Hsp.
  destruct H as [->|[->| ->]]; reflexivity.
Qed.

(** X2.  The zero sentinel: a slot that is absent from the ledger, or
    bound to the empty string or to the zero address, is a miss:
    [readCache] returns [undefined] and leaves the state exactly as it
    was (not even a log line). *)
Theorem readCache_miss chain factory contractName (s : State) :
  ledger s chain contractName = None
  \/ ledger s chain contractName = Some ""
  \/ ledger s chain contractName = Some AddressZero ->
  getSignerOrProvider env chain (world s) = Ok tt ->
  readCache env chain factory contractName s = (Ok None, s).
Proof. apply readCache_sentinel. Qed.

(** X3.  [writeCache] overwrites its own slot only: after two writes to
    a slot the ledger holds the second address (last write wins), and
    every other slot of every chain holds what it held before. *)
Theorem writeCache_last_write_wins chain contractName first second
    (s : State) :
  let s' :=
    snd ((writeCache chain contractName first ;;;
          writeCache chain contractName second) s) in
  ledger s' chain contractName = Some second
  /\ (forall c n, ~ (c = chain /\ n = contractName) ->
                  ledger s' c n = ledger s c n)
  /\ calls s' = calls s /\ world s' = world s
  /\ deployedContracts s' = deployedContracts s
  /\ verificationInputs s' = verificationInputs s.
Proof.
  cbv zeta.
  set (s1 := snd (writeCache chain contractName first s)).
  assert (E : (writeCache chain contractName first ;;;
               writeCache chain contractName second) s
              = writeCache chain contractName second s1) by reflexivity.
  rewrite E. split; [|split].
  - rewrite ledger_writeCache. now rewrite decide_True.
  - intros c n Hne. rewrite ledger_writeCache. rewrite decide_False by done.
    unfold s1. rewrite ledger_writeCache. now rewrite decide_False.
  - repeat split.
Qed.
End Ledger.

Section FreshDeployment.
Context {W IsmSpec HookConfig : Type}.
Context (env : Env W IsmSpec HookConfig) (opts : Options).

Local Abbreviation M := (M W IsmSpec HookConfig).
Local Abbreviation State := (State W IsmSpec HookConfig).

(** No reuse: recovery is switched off, or the slot is a miss. *)
Definition notRecovered (shouldRecover : bool) (chain contractName : string)
    (s : State) : Prop :=
  shouldRecover = false
  \/ ((ledger s chain contractName = None
       \/ ledger s chain contractName = Some ""
       \/ ledger s chain contractName = Some AddressZero)
      /\ getSignerOrProvider env chain (world s) = Ok tt).

Lemma deployContractFromFactory_notRecovered chain factory contractName
    constructorArgs initializeArgs shouldRecover (s : State) :
  notRecovered shouldRecover chain contractName s ->
  deployContractFromFactory env opts chain factory contractName
    constructorArgs initializeArgs shouldRecover s
  = deployContractFromFactory env opts chain factory contractName
      constructorArgs initializeArgs false s.
Proof.
  intros [->|[Hmiss Hsp]]; [reflexivity|].
  destruct shouldRecover; [|reflexivity].
  unfold deployContractFromFactory. unfold bind at 1. unfold bind at 1.
  rewrite (readCache_sentinel env chain factory contractName s Hmiss Hsp).
  reflexivity.
Qed.

(** X4.  A fresh deployment -- recovery switched off (then the ledger is
    not consulted at all, even if the slot is bound) or the slot a miss
    -- cannot be failed by the verification step: whatever
    [verifyContract] answers, also an exception, the deployed contract is
    returned, and its verification input has been appended to the
    chain's list.  The ledger is not written by
    [deployContractFromFactory]. *)
Theorem deployContractFromFactory_fresh chain factory contractName
    constructorArgs shouldRecover (s : State) contract w1 verification w2 :
  let input :=
    getContractVerificationInput env contractName contract
      (bytecode factory) in
  notRecovered shouldRecover chain contractName s ->
  handleDeploy env chain factory constructorArgs (world s)
  = (Ok contract, w1) ->
  verifyContract env chain input w1 = (verification, w2) ->
  exists s',
    deployContractFromFactory env opts chain factory contractName
      constructorArgs None shouldRecover s = (Ok contract, s')
    /\ world s' = w2
    /\ calls s'
       = (calls s ++ [CallHandleDeploy chain factory constructorArgs;
                      CallVerifyContract chain input])%list
    /\ verificationInputs s' !! chain
       = Some (default [] (verificationInputs s !! chain) ++ [input])%list
    /\ cachedAddresses s' = cachedAddresses s.
Proof.
  intros input Hn Hd Hv.
  rewrite (deployContractFromFactory_notRecovered _ _ _ _ _ _ _ Hn).
  unfold deployContractFromFactory, bind, ret, log, act, tryCatch,
    addVerificationArtifacts, modify.
  cbn. rewrite Hd. cbn. fold input. rewrite Hv.
  destruct verification as [[]|e]; cbn;
    (eexists; split; [reflexivity|]; cbn;
     split; [reflexivity|]; split; [now rewrite <- app_assoc|];
     split; [apply lookup_insert_eq|reflexivity]).
Qed.

(** X5.  A failing initializer leaves an orphan: when a fresh deployment
    is accepted and the [initialize] call that follows throws,
    [deployContractWithName] throws that error; the contract exists in
    the world, but the ledger is not written and no verification input
    is recorded, so a resumed run deploys the slot again. *)
Theorem deployContractWithName_initialize_fails chain contractKey
    contractName constructorArgs args shouldRecover (s : State) contract w1
    e w2 :
  let initTx :=
    mkTx contract "initialize" args
      (Some (getTransactionOverrides env chain)) in
  notRecovered shouldRecover chain contractName s ->
  handleDeploy env chain (factories opts contractKey) constructorArgs
    (world s) = (Ok contract, w1) ->
  handleTx env chain initTx w1 = (Throw e, w2) ->
  exists s',
    deployContractWithName env opts chain contractKey contractName
      constructorArgs (Some args) shouldRecover s = (Throw e, s')
    /\ world s' = w2
    /\ calls s'
       = (calls s
          ++ [CallHandleDeploy chain (factories opts contractKey)
                constructorArgs;
              CallHandleTx chain initTx])%list
    /\ cachedAddresses s' = cachedAddresses s
    /\ verificationInputs s' = verificationInputs s.
Proof.
  intros initTx Hn Hd Hi.
  unfold deployContractWithName. unfold bind at 1.
  rewrite (deployContractFromFactory_notRecovered _ _ _ _ _ _ _ Hn).
  unfold deployContractFromFactory, bind, ret, log, act.
  cbn. rewrite Hd. cbn. fold initTx. rewrite Hi. cbn.
  eexists. split; [reflexivity|]. cbn.
  split; [reflexivity|]. split; [now rewrite <- app_assoc|]. now split.
Qed.
End FreshDeployment.

Section ProxyResume.
Context {W IsmSpec HookConfig : Type}.
Context (env : Env W IsmSpec HookConfig) (opts : Options).

Local Abbreviation M := (M W IsmSpec HookConfig).
Local Abbreviation State := (State W IsmSpec HookConfig).

(** A slot the ledger resolves: bound to an address that is neither empty
    nor zero. *)
Definition bound (s : State) (chain contractName address : string) : Prop :=
  ledger s chain contractName = Some address
  /\ truthy address = true
  /\ String.eqb address AddressZero = false.

Lemma deployContractFromFactory_hit chain factory contractName
    constructorArgs initializeArgs (s : State) address :
  bound s chain contractName address ->
  getSignerOrProvider env chain (world s) = Ok tt ->
  recoverVerificationInputs opts = false ->
  deployContractFromFactory env opts chain factory contractName
    constructorArgs initializeArgs true s
  = (Ok address,
     set_logs (logs s ++ [(Debug, LRecovered contractName chain address)]) s).
Proof.
  intros (Hl & Ht & Hz) Hsp Hr. unfold ledger in Hl.
  unfold deployContractFromFactory, readCache, bind, get, read, log, ret.
  rewrite Hl, Hsp, Ht, Hz, Hr. reflexivity.
Qed.

(** X6.  [deployProxy] looks the proxy up in the ledger under the one
    name "TransparentUpgradeableProxy": when the chain's ledger binds
    that name, every implementation that is not yet a proxy gets this
    same address back, and no proxy is deployed for it. *)
Theorem deployProxy_reuses_ledger_proxy chain implementation admin
    initializeArgs (s : State) proxy :
  isProxy env chain implementation (world s) = Ok false ->
  bound s chain "TransparentUpgradeableProxy" proxy ->
  getSignerOrProvider env chain (world s) = Ok tt ->
  recoverVerificationInputs opts = false ->
  exists s',
    deployProxy env opts chain implementation admin initializeArgs s
    = (Ok proxy, s')
    /\ calls s' = calls s
    /\ world s' = world s.
Proof.
  intros Hp Hb Hsp Hr. unfold deployProxy. step_reads. cbv zeta.
  unfold bind at 1.
  rewrite (deployContractFromFactory_hit _ _ _ _ _ _ _ Hb Hsp Hr).
  eexists. split; [reflexivity|]. now split.
Qed.

(** X7.  Resuming after the proxy deployment failed: when the ledger
    binds the slot to the implementation (not a proxy) and holds no
    proxy entry, [deployProxiedContract] does not deploy the
    implementation again; it deploys the proxy around the recorded
    implementation, and binds the slot to the proxy. *)
Theorem deployProxiedContract_resumes chain contractKey contractName admin
    constructorArgs initializeArgs (s : State) implementation proxy w1
    verification w2 :
  let proxyArgs :=
    proxyConstructorArgs env implementation admin initializeArgs in
  let input :=
    getContractVerificationInput env "TransparentUpgradeableProxy" proxy
      (bytecode (TransparentUpgradeableProxy__factory env)) in
  contractName <> "TransparentUpgradeableProxy" ->
  bound s chain contractName implementation ->
  ledger s chain "TransparentUpgradeableProxy" = None ->
  getSignerOrProvider env chain (world s) = Ok tt ->
  recoverVerificationInputs opts = false ->
  isProxy env chain implementation (world s) = Ok false ->
  handleDeploy env chain (TransparentUpgradeableProxy__factory env)
    proxyArgs (world s) = (Ok proxy, w1) ->
  verifyContract env chain input w1 = (verification, w2) ->
  exists s',
    deployProxiedContract env opts chain contractKey contractName admin
      constructorArgs initializeArgs s = (Ok proxy, s')
    /\ calls s'
       = (calls s
          ++ [CallHandleDeploy chain
                (TransparentUpgradeableProxy__factory env) proxyArgs;
              CallVerifyContract chain input])%list
    /\ world s' = w2
    /\ ledger s' chain contractName = Some proxy.
Proof.
  intros proxyArgs input Hname Hb Hmiss Hsp Hr Hp Hd Hv.
  unfold deployProxiedContract, deployContractWithName.
  unfold bind at 1. unfold bind at 1.
  rewrite (deployContractFromFactory_hit _ _ _ _ _ _ _ Hb Hsp Hr).
  set (s0 := set_logs _ s).
  unfold bind at 1.
  set (s1 := snd (writeCache chain contractName implementation s0)).
  change (writeCache chain contractName implementation s0) with (Ok tt, s1).
  cbn [ret]. unfold ret at 1.
  assert (Hmiss1 : ledger s1 chain "TransparentUpgradeableProxy" = None).
  { unfold s1. rewrite ledger_writeCache.
    rewrite decide_False by (intros [_ ?]; congruence). exact Hmiss. }
  assert (Hw1 : world s1 = world s) by reflexivity.
  assert (Hc1 : calls s1 = calls s) by reflexivity.
  unfold bind at 1. unfold deployProxy. unfold bind at 1, read at 1.
  rewrite Hw1, Hp. cbv zeta. unfold bind at 1. fold proxyArgs.
  rewrite (deployContractFromFactory_notRecovered env opts chain _
             "TransparentUpgradeableProxy" proxyArgs None true s1)
    by (right; split; [now left | now rewrite Hw1]).
  unfold deployContractFromFactory, bind, ret, log, act, tryCatch,
    addVerificationArtifacts, modify.
  cbn [world set_logs set_calls set_world set_verificationInputs calls].
  rewrite Hw1, Hd. cbn [world set_logs set_calls set_world
                       set_verificationInputs calls].
  fold input. rewrite Hv.
  assert (Hfin : forall s2 : State,
             ledger (snd (writeCache chain contractName proxy s2)) chain
               contractName = Some proxy).
  { intros s2. rewrite ledger_writeCache. now rewrite decide_True. }
  destruct verification as [[]|e];
    (eexists; split; [reflexivity|];
     split; [cbn; try rewrite Hc1; now rewrite <- ?app_assoc|];
     split; [reflexivity|apply Hfin]).
Qed.
End ProxyResume.

Section Recovery.
Context {W IsmSpec HookConfig : Type}.
Context (env : Env W IsmSpec HookConfig) (opts : Options).

Local Abbreviation M := (M W IsmSpec HookConfig).
Local Abbreviation State := (State W IsmSpec HookConfig).

(** X8.  Reuse with [recoverVerificationInputs] set: a slot resolved from
    the ledger makes no call and leaves the world and the ledger alone,
    but the verification inputs a fresh deployment would have produced
    are rebuilt and appended to the chain's list: one input, for the
    address itself, when it is not a proxy; two -- the implementation the
    proxy reports, then the proxy with its re-derived constructor
    arguments -- when it is. *)
Theorem deployContractFromFactory_recovers_inputs chain factory contractName
    constructorArgs initializeArgs (s : State) address proxied :
  bound s chain contractName address ->
  getSignerOrProvider env chain (world s) = Ok tt ->
  recoverVerificationInputs opts = true ->
  isProxy env chain address (world s) = Ok proxied ->
  (proxied = false ->
   exists s',
     deployContractFromFactory env opts chain factory contractName
       constructorArgs initializeArgs true s = (Ok address, s')
     /\ calls s' = calls s /\ world s' = world s
     /\ cachedAddresses s' = cachedAddresses s
     /\ verificationInputs s' !! chain
        = Some (default [] (verificationInputs s !! chain)
                ++ [buildVerificationInput env contractName address
                      (encodeDeploy env contractName constructorArgs)])%list)
  /\ (forall implementation admin,
      proxied = true ->
      proxyImplementation env chain address (world s) = Ok implementation ->
      proxyAdmin env chain address (world s) = Ok admin ->
      exists s',
        deployContractFromFactory env opts chain factory contractName
          constructorArgs initializeArgs true s = (Ok address, s')
        /\ calls s' = calls s /\ world s' = world s
        /\ cachedAddresses s' = cachedAddresses s
        /\ verificationInputs s' !! chain
           = Some (default [] (verificationInputs s !! chain)
                   ++ [buildVerificationInput env contractName implementation
                         (encodeDeploy env contractName constructorArgs);
                       buildVerificationInput env
                         "TransparentUpgradeableProxy" address
                         (encodeDeploy env "TransparentUpgradeableProxy"
                            (proxyConstructorArgs env implementation admin
                               initializeArgs))])%list).
Proof.
  intros (Hl & Ht & Hz) Hsp Hr Hp. unfold ledger in Hl. split.
  - intros ->.
    unfold deployContractFromFactory, readCache, recoverVerificationArtifacts,
      addVerificationArtifacts, bind, get, read, log, ret, modify.
    rewrite Hl, Hsp, Ht, Hz, Hr. cbn. rewrite Hp. cbn.
    eexists. split; [reflexivity|]. cbn. repeat split.
    apply lookup_insert_eq.
  - intros implementation admin -> Hi Ha.
    unfold deployContractFromFactory, readCache, recoverVerificationArtifacts,
      addVerificationArtifacts, bind, get, read, log, ret, modify.
    rewrite Hl, Hsp, Ht, Hz, Hr. cbn. rewrite Hp. cbn. rewrite Hi. cbn.
    rewrite Ha. cbn.
    eexists. split; [reflexivity|]. cbn. repeat split.
    apply lookup_insert_eq.
Qed.
End Recovery.

Section ProxyAdministration.
Context {W IsmSpec HookConfig : Type}.
Context (env : Env W IsmSpec HookConfig).

Local Abbreviation M := (M W IsmSpec HookConfig).
Local Abbreviation State := (State W IsmSpec HookConfig).

(** How an upgrade-style operation on a proxy ends: [direct] is the
    transaction sent to the proxy itself, [indirect] the one sent to the
    ProxyAdmin contract.  The admin is the address the proxy reports. *)
Lemma runIfAdmin_routes chain proxy (direct : Tx) (indirect : Address -> Tx)
    (s : State) admin signer :
  proxyAdmin env chain proxy (world s) = Ok admin ->
  getSignerAddress env chain (world s) = Ok signer ->
  let run :=
    runIfAdmin env chain proxy
      (act (CallHandleTx chain direct) (handleTx env chain direct))
      (fun proxyAdmin =>
         act (CallHandleTx chain (indirect proxyAdmin))
             (handleTx env chain (indirect proxyAdmin))) s in
  (getCode env chain admin (world s) = Ok "0x" ->
   (eqAddress env admin signer = false ->
    fst run = Ok None
    /\ calls (snd run) = calls s /\ world (snd run) = world s)
   /\ (forall receipt w',
         eqAddress env admin signer = true ->
         handleTx env chain direct (world s) = (Ok receipt, w') ->
         fst run = Ok (Some receipt)
         /\ calls (snd run) = (calls s ++ [CallHandleTx chain direct])%list
         /\ world (snd run) = w'))
  /\ (forall code ownr,
        getCode env chain admin (world s) = Ok code ->
        String.eqb code "0x" = false ->
        callStatic env chain admin "owner" (world s) = Ok ownr ->
        (eqAddress env ownr signer = false ->
         fst run = Ok None
         /\ calls (snd run) = calls s /\ world (snd run) = world s)
        /\ (forall receipt w',
              eqAddress env ownr signer = true ->
              handleTx env chain (indirect admin) (world s) = (Ok receipt, w') ->
              fst run = Ok (Some receipt)
              /\ calls (snd run)
                 = (calls s ++ [CallHandleTx chain (indirect admin)])%list
              /\ world (snd run) = w')).
Proof.
  intros Ha Hs run. subst run. split.
  - intros Hc. rewrite (runIfAdmin_EOA env _ _ _ _ _ _ Ha Hc). split.
    + intros He.
      rewrite (runIf_mismatch env _ _ _ _ _ signer) by assumption.
      now repeat split.
    + intros receipt w' He Htx.
      rewrite (runIf_match env _ _ _ _ _ signer) by assumption.
      unfold bind, act, ret. cbn. rewrite Htx. now repeat split.
  - intros code ownr Hc Hx Ho.
    rewrite (runIfAdmin_ProxyAdmin env _ _ _ _ _ _ _ Ha Hc Hx). split.
    + intros He.
      rewrite (runIfOwner_mismatch env _ _ _ _ signer ownr) by assumption.
      now repeat split.
    + intros receipt w' He Htx.
      rewrite (runIfOwner_match env _ _ _ _ signer ownr) by assumption.
      unfold bind, act, ret. cbn. rewrite Htx. now repeat split.
Qed.
Lemma bind_discard {A} (m : M A) (s : State) :
  bind m (fun _ => ret tt) s
  = (match fst (m s) with Ok _ => Ok tt | Throw e => Throw e end, snd (m s)).
Proof. unfold bind, ret. now destruct (m s) as [[a|e] s']. Qed.

(** X9.  [changeAdmin]: when the proxy already reports the wanted admin
    nothing is sent (one log line).  Otherwise the change goes through
    the authority the proxy reports: if the admin address holds no code,
    the transaction [changeAdmin] is sent to the proxy itself, and only
    if the signer is that admin; if it holds code, the transaction
    [changeProxyAdmin] is sent to that ProxyAdmin contract, and only if
    the signer is its owner.  Without authority no call is made and
    nothing is thrown. *)
Theorem changeAdmin_routes chain proxy admin (s : State) actualAdmin signer :
  proxyAdmin env chain proxy (world s) = Ok actualAdmin ->
  getSignerAddress env chain (world s) = Ok signer ->
  let overrides := Some (getTransactionOverrides env chain) in
  let direct := mkTx proxy "changeAdmin" [AStr admin] overrides in
  let indirect :=
    mkTx actualAdmin "changeProxyAdmin" [AStr proxy; AStr admin] overrides in
  let run := changeAdmin env chain proxy admin s in
  (eqAddress env admin actualAdmin = true ->
   run = (Ok tt, set_logs (logs s ++ [(Debug, LAdminSetCorrectly)]) s))
  /\ (eqAddress env admin actualAdmin = false ->
      (getCode env chain actualAdmin (world s) = Ok "0x" ->
       (eqAddress env actualAdmin signer = false ->
        fst run = Ok tt
        /\ calls (snd run) = calls s /\ world (snd run) = world s)
       /\ (forall receipt w',
             eqAddress env actualAdmin signer = true ->
             handleTx env chain direct (world s) = (Ok receipt, w') ->
             fst run = Ok tt
             /\ calls (snd run) = (calls s ++ [CallHandleTx chain direct])%list
             /\ world (snd run) = w'))
      /\ (forall code ownr,
            getCode env chain actualAdmin (world s) = Ok code ->
            String.eqb code "0x" = false ->
            callStatic env chain actualAdmin "owner" (world s) = Ok ownr ->
            (eqAddress env ownr signer = false ->
             fst run = Ok tt
             /\ calls (snd run) = calls s /\ world (snd run) = world s)
            /\ (forall receipt w',
                  eqAddress env ownr signer = true ->
                  handleTx env chain indirect (world s) = (Ok receipt, w') ->
                  fst run = Ok tt
                  /\ calls (snd run)
                     = (calls s ++ [CallHandleTx chain indirect])%list
                  /\ world (snd run) = w'))).
Proof.
  intros Ha Hs overrides direct indirect run. subst run. split.
  - intros He. unfold changeAdmin. step_reads. now rewrite He.
  - intros He.
    assert (E : changeAdmin env chain proxy admin s
                = bind (runIfAdmin env chain proxy
                          (act (CallHandleTx chain direct)
                               (handleTx env chain direct))
                          (fun proxyAdmin =>
                             act (CallHandleTx chain
                                    (mkTx proxyAdmin "changeProxyAdmin"
                                       [AStr proxy; AStr admin] overrides))
                                 (handleTx env chain
                                    (mkTx proxyAdmin "changeProxyAdmin"
                                       [AStr proxy; AStr admin] overrides))))
                    (fun _ => ret tt)
                    (set_logs (logs s ++ [(Debug, LChangingProxyAdmin)]) s)).
    { unfold changeAdmin. step_reads. now rewrite He. }
    rewrite E, bind_discard. cbn [fst snd].
    destruct (runIfAdmin_routes chain proxy direct
                (fun proxyAdmin =>
                   mkTx proxyAdmin "changeProxyAdmin"
                     [AStr proxy; AStr admin] overrides)
                (set_logs (logs s ++ [(Debug, LChangingProxyAdmin)]) s)
                actualAdmin signer Ha Hs) as [Heoa Hpa].
    split.
    + intros Hc. destruct (Heoa Hc) as [Hno Hyes]. split.
      * intros Hn. destruct (Hno Hn) as (-> & -> & ->). now repeat split.
      * intros receipt w' Hy Htx.
        destruct (Hyes receipt w' Hy Htx) as (-> & -> & ->).
        now repeat split.
    + intros code ownr Hc Hx Ho.
      destruct (Hpa code ownr Hc Hx Ho) as [Hno Hyes]. split.
      * intros Hn. destruct (Hno Hn) as (-> & -> & ->). now repeat split.
      * intros receipt w' Hy Htx.
        destruct (Hyes receipt w' Hy Htx) as (-> & -> & ->).
        now repeat split.
Qed.

(** X10.  [upgradeAndInitialize]: when the proxy already reports the
    implementation nothing is sent (one log line).  Otherwise the
    upgrade, with the encoded [initialize] call, goes to the proxy itself
    ([upgradeToAndCall]) if its admin holds no code and is the signer, to
    the ProxyAdmin contract ([upgradeAndCall]) if the admin holds code
    and the signer owns it; without authority the upgrade is skipped
    without a call and without an exception. *)
Theorem upgradeAndInitialize_routes chain proxy implementation initializeArgs
    (s : State) current actualAdmin signer :
  callStatic env chain proxy "implementation" (world s) = Ok current ->
  proxyAdmin env chain proxy (world s) = Ok actualAdmin ->
  getSignerAddress env chain (world s) = Ok signer ->
  let overrides := Some (getTransactionOverrides env chain) in
  let initData := encodeInitialize env initializeArgs in
  let direct :=
    mkTx proxy "upgradeToAndCall" [AStr implementation; AStr initData]
      overrides in
  let indirect :=
    mkTx actualAdmin "upgradeAndCall"
      [AStr proxy; AStr implementation; AStr initData] overrides in
  let run :=
    upgradeAndInitialize env chain proxy implementation initializeArgs s in
  (eqAddress env implementation current = true ->
   run = (Ok tt, set_logs (logs s ++ [(Debug, LImplementationSetCorrectly)]) s))
  /\ (eqAddress env implementation current = false ->
      (getCode env chain actualAdmin (world s) = Ok "0x" ->
       (eqAddress env actualAdmin signer = false ->
        fst run = Ok tt
        /\ calls (snd run) = calls s /\ world (snd run) = world s)
       /\ (forall receipt w',
             eqAddress env actualAdmin signer = true ->
             handleTx env chain direct (world s) = (Ok receipt, w') ->
             fst run = Ok tt
             /\ calls (snd run) = (calls s ++ [CallHandleTx chain direct])%list
             /\ world (snd run) = w'))
      /\ (forall code ownr,
            getCode env chain actualAdmin (world s) = Ok code ->
            String.eqb code "0x" = false ->
            callStatic env chain actualAdmin "owner" (world s) = Ok ownr ->
            (eqAddress env ownr signer = false ->
             fst run = Ok tt
             /\ calls (snd run) = calls s /\ world (snd run) = world s)
            /\ (forall receipt w',
                  eqAddress env ownr signer = true ->
                  handleTx env chain indirect (world s) = (Ok receipt, w') ->
                  fst run = Ok tt
                  /\ calls (snd run)
                     = (calls s ++ [CallHandleTx chain indirect])%list
                  /\ world (snd run) = w'))).
Proof.
  intros Hi Ha Hs overrides initData direct indirect run. subst run. split.
  - intros He. unfold upgradeAndInitialize. step_reads. now rewrite He.
  - intros He.
    assert (E : upgradeAndInitialize env chain proxy implementation
                  initializeArgs s
                = bind (runIfAdmin env chain proxy
                          (act (CallHandleTx chain direct)
                               (handleTx env chain direct))
                          (fun proxyAdmin =>
                             act (CallHandleTx chain
                                    (mkTx proxyAdmin "upgradeAndCall"
                                       [AStr proxy; AStr implementation;
                                        AStr initData] overrides))
                                 (handleTx env chain
                                    (mkTx proxyAdmin "upgradeAndCall"
                                       [AStr proxy; AStr implementation;
                                        AStr initData] overrides))))
                    (fun _ => ret tt)
                    (set_logs (logs s ++ [(Debug, LUpgrading)]) s)).
    { unfold upgradeAndInitialize. step_reads. now rewrite He. }
    rewrite E, bind_discard. cbn [fst snd].
    destruct (runIfAdmin_routes chain proxy direct
                (fun proxyAdmin =>
                   mkTx proxyAdmin "upgradeAndCall"
                     [AStr proxy; AStr implementation; AStr initData]
                     overrides)
                (set_logs (logs s ++ [(Debug, LUpgrading)]) s)
                actualAdmin signer Ha Hs) as [Heoa Hpa].
    split.
    + intros Hc. destruct (Heoa Hc) as [Hno Hyes]. split.
      * intros Hn. destruct (Hno Hn) as (-> & -> & ->). now repeat split.
      * intros receipt w' Hy Htx.
        destruct (Hyes receipt w' Hy Htx) as (-> & -> & ->).
        now repeat split.
    + intros code ownr Hc Hx Ho.
      destruct (Hpa code ownr Hc Hx Ho) as [Hno Hyes]. split.
      * intros Hn. destruct (Hno Hn) as (-> & -> & ->). now repeat split.
      * intros receipt w' Hy Htx.
        destruct (Hyes receipt w' Hy Htx) as (-> & -> & ->).
        now repeat split.
Qed.
End ProxyAdministration.

Section OwnershipTransfer.
Context {W IsmSpec HookConfig : Type}.
Context (env : Env W IsmSpec HookConfig).

Local Abbreviation M := (M W IsmSpec HookConfig).
Local Abbreviation State := (State W IsmSpec HookConfig).

(** The owner wanted for a contract: its override, else [config.owner]. *)
Definition wantedOwner (config : OwnableConfig) (contractName : string)
    : Address :=
  match oc_ownerOverrides config ≫= (.!! contractName) with
  | Some override => override
  | None => oc_owner config
  end.

(** The ownership transfer [transferOwnershipOfContracts] sends. *)
Definition transferTx (chain : string) (ownable owner : Address) : Tx :=
  mkTx ownable "transferOwnership" [AStr owner]
    (Some (getTransactionOverrides env chain)).

(** X11.  Ownership already as configured: when every listed contract
    reports the owner wanted for it (its override if it has one, else
    [config.owner]), [transferOwnershipOfContracts] returns no receipt
    and leaves the state exactly as it was; entries without a contract
    are passed over. *)
Theorem transferOwnership_settled chain config ownables (s : State) :
  (forall contractName ownable,
      In (contractName, Some ownable) ownables ->
      exists current,
        callStatic env chain ownable "owner" (world s) = Ok current
        /\ eqAddress env current (wantedOwner config contractName) = true) ->
  transferOwnershipOfContracts env chain config ownables s = (Ok [], s).
Proof.
  unfold transferOwnershipOfContracts. generalize (@nil Receipt).
  induction ownables as [|[contractName [ownable|]] rest IH];
    intros receipts H; cbn [transferOwnershipLoop].
  - reflexivity.
  - destruct (H contractName ownable (or_introl eq_refl)) as (cur & Hc & He).
    step_reads. unfold wantedOwner in He. rewrite He. cbn [negb].
    apply IH. intros n o Hin. apply H. now right.
  - apply IH. intros n o Hin. apply H. now right.
Qed.

(** X12.  What [transferOwnershipOfContracts] sends: every call it makes
    is a [transferOwnership] transaction on the chain, to one of the
    listed contracts, naming the owner wanted for that contract; and
    when it returns, it returns exactly one receipt per transaction
    sent.  (When no transfer is authorised the list is empty.) *)
Theorem transferOwnership_receipts chain config ownables (s : State) r s' :
  transferOwnershipOfContracts env chain config ownables s = (r, s') ->
  exists l,
    calls s' = (calls s ++ l)%list
    /\ Forall (fun c =>
                 exists contractName ownable,
                   In (contractName, Some ownable) ownables
                   /\ c = CallHandleTx chain
                            (transferTx chain ownable
                               (wantedOwner config contractName))) l
    /\ forall receipts, r = Ok receipts -> length receipts = length l.
Proof.
  unfold transferOwnershipOfContracts.
  assert (G : forall receipts0 (s0 : State) r0 s1,
             transferOwnershipLoop env chain config ownables receipts0 s0
             = (r0, s1) ->
             exists l,
               calls s1 = (calls s0 ++ l)%list
               /\ Forall (fun c =>
                            exists contractName ownable,
                              In (contractName, Some ownable) ownables
                              /\ c = CallHandleTx chain
                                       (transferTx chain ownable
                                          (wantedOwner config contractName)))
                         l
               /\ forall receipts,
                    r0 = Ok receipts ->
                    length receipts = length receipts0 + length l).
  { clear. induction ownables as [|[contractName [ownable|]] rest IH];
      intros receipts0 s0 r0 s1 Hrun; cbn [transferOwnershipLoop] in Hrun.
    - inversion Hrun; subst. exists []. rewrite app_nil_r.
      split; [reflexivity|]. split; [constructor|].
      intros receipts E. inversion E; subst. cbn. lia.
    - (* a contract: read its owner *)
      assert (Hext : forall l : list (Call IsmSpec HookConfig),
                 Forall (fun c =>
                           exists contractName0 ownable0,
                             In (contractName0, Some ownable0) rest
                             /\ c = CallHandleTx chain
                                      (transferTx chain ownable0
                                         (wantedOwner config contractName0)))
                        l ->
                 Forall (fun c =>
                           exists contractName0 ownable0,
                             In (contractName0, Some ownable0)
                               ((contractName, Some ownable) :: rest)
                             /\ c = CallHandleTx chain
                                      (transferTx chain ownable0
                                         (wantedOwner config contractName0)))
                        l).
      { intros l Hl. eapply Forall_impl; [exact Hl|].
        intros c (n & o & Hin & E).
        exists n, o. split; [now right|assumption]. }
      unfold bind at 1, read at 1 in Hrun.
      destruct (callStatic env chain ownable "owner" (world s0))
        as [current|e].
      2:{ inversion Hrun; subst. exists []. rewrite app_nil_r.
          split; [reflexivity|]. split; [constructor|]. discriminate. }
      fold (wantedOwner config contractName) in Hrun.
      destruct (eqAddress env current (wantedOwner config contractName)).
      + cbn [negb] in Hrun. destruct (IH _ _ _ _ Hrun) as (l & Hl & Hf & Hn).
        exists l. split; [assumption|]. split; [now apply Hext|assumption].
      + cbn [negb] in Hrun.
        unfold bind at 1, log at 1 in Hrun.
        unfold bind at 1, runIfOwner, bind at 1, read at 1 in Hrun.
        cbn [world set_logs] in Hrun.
        destruct (callStatic env chain ownable "owner" (world s0))
          as [ownr|e].
        2:{ inversion Hrun; subst. exists []. cbn. rewrite app_nil_r.
            split; [reflexivity|]. split; [constructor|]. discriminate. }
        unfold runIf, bind at 1, read at 1 in Hrun.
        cbn [world set_logs] in Hrun.
        destruct (getSignerAddress env chain (world s0)) as [signer|e].
        2:{ inversion Hrun; subst. exists []. cbn. rewrite app_nil_r.
            split; [reflexivity|]. split; [constructor|]. discriminate. }
        destruct (eqAddress env ownr signer).
        * (* the transfer is sent *)
          unfold bind at 1, bind at 1, log at 1, act at 1 in Hrun.
          cbn [world set_logs calls] in Hrun.
          fold (transferTx chain ownable (wantedOwner config contractName))
            in Hrun.
          destruct (handleTx env chain _ (world s0)) as [[receipt|e] w'].
          -- cbn in Hrun. destruct (IH _ _ _ _ Hrun) as (l & Hl & Hf & Hn).
             exists (CallHandleTx chain
                       (transferTx chain ownable
                          (wantedOwner config contractName)) :: l).
             split; [cbn in Hl; rewrite Hl; now rewrite <- app_assoc|].
             split.
             ++ constructor; [|now apply Hext].
                exists contractName, ownable. split; [now left|reflexivity].
             ++ intros receipts E. rewrite (Hn receipts E).
                rewrite length_app. cbn. lia.
          -- cbn in Hrun. inversion Hrun; subst.
             exists [CallHandleTx chain
                       (transferTx chain ownable
                          (wantedOwner config contractName))].
             split; [reflexivity|]. split; [|discriminate].
             constructor; [|constructor].
             exists contractName, ownable. split; [now left|reflexivity].
        * (* not the owner: skipped *)
          unfold bind, log, ret in Hrun.
          cbn in Hrun. destruct (IH _ _ _ _ Hrun) as (l & Hl & Hf & Hn).
          exists l. split; [assumption|]. split; [now apply Hext|assumption].
    - destruct (IH _ _ _ _ Hrun) as (l & Hl & Hf & Hn).
      exists l. split; [assumption|]. split; [|assumption].
      eapply Forall_impl; [exact Hf|]. intros c (n & o & Hin & E).
      exists n, o. split; [now right|assumption]. }
  intros Hrun. destruct (G _ _ _ _ Hrun) as (l & Hl & Hf & Hn).
  exists l. split; [assumption|]. split; [assumption|].
  intros receipts E. now rewrite (Hn receipts E).
Qed.
End OwnershipTransfer.

Section Bookkeeping.
Context {W IsmSpec HookConfig : Type}.
Context (env : Env W IsmSpec HookConfig) (opts : Options).

Local Abbreviation M := (M W IsmSpec HookConfig).
Local Abbreviation State := (State W IsmSpec HookConfig).

(** The contract bound to a slot of a chain in [deployedContracts]. *)
Definition deployed (s : State) (chain contractName : string)
    : option string :=
  deployedContracts s !! chain ≫= (.!! contractName).

(** X13.  [addDeployedContracts] merges like the object spread it is: a
    slot named by the new contracts takes the new contract, every other
    slot of the chain keeps its contract, other chains are untouched, and
    the chain has an entry afterwards even if [contracts] is undefined;
    verification inputs, when given, are appended to the chain's list. *)
Theorem addDeployedContracts_merge chain contracts inputs (s : State) :
  let run := addDeployedContracts chain contracts inputs s in
  fst run = Ok tt
  /\ (forall contractName,
        deployed (snd run) chain contractName
        = match contracts ≫= (.!! contractName) with
          | Some contract => Some contract
          | None => deployed s chain contractName
          end)
  /\ (forall other, other <> chain ->
        deployedContracts (snd run) !! other = deployedContracts s !! other)
  /\ is_Some (deployedContracts (snd run) !! chain)
  /\ verificationInputs (snd run) !! chain
     = match inputs with
       | Some artifacts =>
           Some (default [] (verificationInputs s !! chain) ++ artifacts)%list
       | None => verificationInputs s !! chain
       end
  /\ calls (snd run) = calls s /\ world (snd run) = world s
  /\ cachedAddresses (snd run) = cachedAddresses s.
Proof.
  cbv zeta. unfold addDeployedContracts, addVerificationArtifacts, deployed.
  unfold bind, modify, ret.
  destruct inputs as [artifacts|]; cbn.
  all: split; [reflexivity|]; split;
    [intros contractName; rewrite lookup_insert_eq; cbn;
     destruct contracts as [m|]; cbn;
     [rewrite lookup_union;
      destruct (m !! contractName);
      destruct (deployedContracts s !! chain) as [old|]; cbn;
      try rewrite lookup_empty;
      try destruct (old !! contractName); reflexivity
     |rewrite lookup_union, lookup_empty;
      destruct (deployedContracts s !! chain) as [old|]; cbn;
      try rewrite lookup_empty;
      try destruct (old !! contractName); reflexivity]
    |].
  all: split; [intros other Hne; now apply lookup_insert_ne|].
  all: split; [rewrite lookup_insert_eq; eauto|].
  - split; [apply lookup_insert_eq|]. now repeat split.
  - now repeat split.
Qed.

(** X14.  [addVerificationArtifacts] is append-only and composes: adding
    [a] and then [b] to a chain is adding [a ++ b]; the chain's list
    afterwards is its list before followed by the new artifacts, in
    order; the lists of other chains are untouched. *)
Theorem addVerificationArtifacts_appends chain a b (s : State) :
  (addVerificationArtifacts chain a ;;; addVerificationArtifacts chain b) s
  = addVerificationArtifacts chain (a ++ b) s
  /\ verificationInputs (snd (addVerificationArtifacts chain a s)) !! chain
     = Some (default [] (verificationInputs s !! chain) ++ a)%list
  /\ (forall other, other <> chain ->
        verificationInputs (snd (addVerificationArtifacts chain a s)) !! other
        = verificationInputs s !! other).
Proof.
  unfold addVerificationArtifacts, bind, modify. cbn. split; [|split].
  - unfold set_verificationInputs. cbn. f_equal. f_equal.
    rewrite lookup_insert_eq. cbn. rewrite insert_insert_eq.
    now rewrite app_assoc.
  - apply lookup_insert_eq.
  - intros other Hne. now apply lookup_insert_ne.
Qed.

(** X15.  [mergeWithExistingVerificationInputs] returns, for every chain
    that has a list on either side, the existing inputs followed by the
    deployer's own (a missing side counting as empty), has no entry for
    the other chains, and changes nothing in the deployer. *)
Theorem mergeWithExistingVerificationInputs_lookup existingInputsMap
    (s : State) :
  exists merged,
    mergeWithExistingVerificationInputs existingInputsMap s = (Ok merged, s)
    /\ forall chain,
         merged !! chain
         = match existingInputsMap !! chain, verificationInputs s !! chain with
           | None, None => None
           | existingInputs, newInputs =>
               Some (default [] existingInputs ++ default [] newInputs)%list
           end.
Proof.
  eexists. split; [reflexivity|]. intros chain.
  rewrite lookup_union_with.
  destruct (existingInputsMap !! chain) as [e|],
    (verificationInputs s !! chain) as [n|]; cbn; try reflexivity.
  now rewrite app_nil_r.
Qed.
End Bookkeeping.

Section DeployEdges.
Context {W IsmSpec HookConfig Config : Type}.
Context (env : Env W IsmSpec HookConfig) (opts : Options).
Context (runWithTimeout :
           forall A, Z -> M W IsmSpec HookConfig A -> M W IsmSpec HookConfig A).
Context (deployContracts :
           string -> option Config -> M W IsmSpec HookConfig (option Contracts)).

Local Abbreviation M := (M W IsmSpec HookConfig).
Local Abbreviation State := (State W IsmSpec HookConfig).

Lemma filterR_throws {A} (p : A -> Result bool) (l : list A) :
  (exists x e, In x l /\ p x = Throw e) ->
  exists x e, In x l /\ p x = Throw e /\ filterR p l = Throw e.
Proof.
  induction l as [|y l IH]; intros (x & e & Hin & Hx); [destruct Hin|].
  cbn [filterR]. destruct (p y) as [b|e'] eqn:Hy.
  - destruct Hin as [->|Hin]; [congruence|].
    destruct IH as (x' & e'' & Hin' & Hx' & Hf); [eauto|].
    exists x', e''. rewrite Hf. split; [now right|]. now split.
  - exists y, e'. split; [now left|]. now split.
Qed.

(** X16.  An unknown chain is not skipped: if the metadata of any
    configured chain cannot be read, or if [intersect] rejects the
    Ethereum chains, [deploy] throws that error before it does anything:
    the state is exactly the one before the call -- no chain is started,
    nothing is logged. *)
Theorem deploy_aborts_before_any_chain (configMap : list (string * Config))
    (s : State) :
  ((exists chain e,
      In chain (map fst configMap)
      /\ getChainMetadata_protocol env chain = Throw e) ->
   exists chain e,
     In chain (map fst configMap)
     /\ getChainMetadata_protocol env chain = Throw e
     /\ deploy env opts runWithTimeout deployContracts configMap s
        = (Throw e, s))
  /\ (forall ethereumConfigChains e,
        filterR (isEthereumChain env) (map fst configMap)
        = Ok ethereumConfigChains ->
        intersect env ethereumConfigChains true = Throw e ->
        deploy env opts runWithTimeout deployContracts configMap s
        = (Throw e, s)).
Proof.
  split.
  - intros (chain & e & Hin & He).
    destruct (filterR_throws (isEthereumChain env) (map fst configMap))
      as (x & e' & Hx & Hp & Hf).
    { exists chain, e. split; [assumption|].
      unfold isEthereumChain. now rewrite He. }
    exists x, e'. split; [assumption|]. split.
    + unfold isEthereumChain in Hp.
      destruct (getChainMetadata_protocol env x); [discriminate|].
      now inversion Hp.
    + rewrite deploy_unfold. now rewrite Hf.
  - intros eth e Hf Hi. rewrite deploy_unfold. now rewrite Hf, Hi.
Qed.

(** X17.  A chain whose starting block number, signer or explorer URL
    cannot be read is not deployed: the chain's run throws the error of
    the read, [deployContracts] is not invoked, no call is made and no
    starting block number is recorded for the chain. *)
Theorem deployChain_read_failure (configMap : list (string * Config))
    chain (s : State) e :
  tryGetExplorerAddressUrl env chain (world s) = Throw e
  \/ (exists url,
        tryGetExplorerAddressUrl env chain (world s) = Ok url
        /\ getSignerAddress env chain (world s) = Throw e)
  \/ (exists url signerAddress,
        tryGetExplorerAddressUrl env chain (world s) = Ok url
        /\ getSignerAddress env chain (world s) = Ok signerAddress
        /\ getBlockNumber env chain (world s) = Throw e) ->
  exists s',
    deployChain env opts runWithTimeout deployContracts configMap chain s
    = (Throw e, s')
    /\ calls s' = calls s
    /\ world s' = world s
    /\ startingBlockNumbers s' = startingBlockNumbers s
    /\ deployedContracts s' = deployedContracts s
    /\ cachedAddresses s' = cachedAddresses s.
Proof.
  intros [H|[(url & Hu & H)|(url & sg & Hu & Hs & H)]];
    unfold deployChain, bind, read, log; cbn.
  - rewrite H. eexists. split; [reflexivity|]. now repeat split.
  - rewrite Hu, H. eexists. split; [reflexivity|]. now repeat split.
  - rewrite Hu, Hs, H. eexists. split; [reflexivity|]. now repeat split.
Qed.
End DeployEdges.

(** ** What a chain's deployment never does *)

Section Grows.
Context {W IsmSpec HookConfig : Type}.

Local Abbreviation M := (M W IsmSpec HookConfig).
Local Abbreviation State := (State W IsmSpec HookConfig).

(** The chain a call is made on. *)
Definition callChain (c : Call IsmSpec HookConfig) : string :=
  match c with
  | CallHandleDeploy chain _ _ | CallHandleTx chain _
  | CallSendTransaction chain _ | CallVerifyContract chain _
  | CallIsmFactoryDeploy chain _ _ | CallHookDeployer chain _ _
  | CallTestRecipientDeployer chain _ => chain
  end.

(** From [s] to [s'] the deployer's books only grow, and only for
    [chain]: no ledger slot and no [deployedContracts] slot loses its
    binding, verification inputs are only appended, the books of other
    chains are untouched, every call made is a call on [chain], and the
    starting block numbers are not written. *)
Record grows (chain : string) (s s' : State) : Prop := mkGrows {
  grows_ledger : forall c n,
    is_Some (ledger s c n) -> is_Some (ledger s' c n);
  grows_ledger_other : forall c,
    c <> chain -> cachedAddresses s' !! c = cachedAddresses s !! c;
  grows_inputs : forall c, exists l,
    default [] (verificationInputs s' !! c)
    = (default [] (verificationInputs s !! c) ++ l)%list;
  grows_inputs_other : forall c,
    c <> chain -> verificationInputs s' !! c = verificationInputs s !! c;
  grows_deployed : forall c n,
    is_Some (deployed s c n) -> is_Some (deployed s' c n);
  grows_deployed_other : forall c,
    c <> chain -> deployedContracts s' !! c = deployedContracts s !! c;
  grows_calls : exists l,
    calls s' = (calls s ++ l)%list
    /\ Forall (fun call => callChain call = chain) l;
  grows_blocks : startingBlockNumbers s' = startingBlockNumbers s;
}.

Lemma grows_refl chain (s : State) : grows chain s s.
Proof.
  split; try done.
  - intros c. exists []. now rewrite app_nil_r.
  - exists []. split; [now rewrite app_nil_r|constructor].
Qed.

Lemma grows_trans chain (s1 s2 s3 : State) :
  grows chain s1 s2 -> grows chain s2 s3 -> grows chain s1 s3.
Proof.
  intros [A1 B1 C1 D1 E1 F1 G1 H1] [A2 B2 C2 D2 E2 F2 G2 H2]. split.
  - intros c n H. apply A2, A1, H.
  - intros c Hc. now rewrite B2, B1.
  - intros c. destruct (C1 c) as [l1 E], (C2 c) as [l2 E'].
    exists (l1 ++ l2)%list. now rewrite E', E, app_assoc.
  - intros c Hc. now rewrite D2, D1.
  - intros c n H. apply E2, E1, H.
  - intros c Hc. now rewrite F2, F1.
  - destruct G1 as (l1 & E & Fa), G2 as (l2 & E' & Fa').
    exists (l1 ++ l2)%list. split; [now rewrite E', E, app_assoc|].
    now apply Forall_app.
  - now rewrite H2, H1.
Qed.

Lemma grows_ret {A} chain (a : A) : respects (grows chain) (ret a).
Proof. intros s r s' H. inversion H. apply grows_refl. Qed.

Lemma grows_throw {A} chain e :
  respects (grows chain) (@throw W IsmSpec HookConfig A e).
Proof. intros s r s' H. inversion H. apply grows_refl. Qed.

Lemma grows_lift {A} chain (x : Result A) : respects (grows chain) (lift x).
Proof. intros s r s' H. inversion H. apply grows_refl. Qed.

Lemma grows_get {A} chain (f : State -> A) : respects (grows chain) (get f).
Proof. intros s r s' H. inversion H. apply grows_refl. Qed.

Lemma grows_read {A} chain (f : W -> Result A) :
  respects (grows chain) (read f).
Proof. intros s r s' H. inversion H. apply grows_refl. Qed.

Lemma grows_log chain level msg : respects (grows chain) (log level msg).
Proof.
  intros s r s' H. inversion H. split; try done.
  - intros c. exists []. now rewrite app_nil_r.
  - exists []. split; [cbn; now rewrite app_nil_r|constructor].
Qed.

Lemma grows_act {A} chain c (f : W -> Result A * W) :
  callChain c = chain -> respects (grows chain) (act c f).
Proof.
  intros Hc s r s'. unfold act. destruct (f (world s)) as [r0 w'].
  intros H. inversion H. split; try done.
  - intros c0. exists []. now rewrite app_nil_r.
  - exists [c]. split; [reflexivity|]. constructor; [assumption|constructor].
Qed.

Lemma grows_bind {A B} chain (m : M A) (k : A -> M B) :
  respects (grows chain) m -> (forall a, respects (grows chain) (k a)) ->
  respects (grows chain) (bind m k).
Proof.
  intros Hm Hk s r s'. unfold bind.
  destruct (m s) as [[a|e] s1] eqn:E; intros H.
  - eapply grows_trans; [eapply Hm, E | eapply Hk, H].
  - inversion H; subst. eapply Hm, E.
Qed.

Lemma grows_tryCatch {A} chain (m : M A) (h : JsError -> M A) :
  respects (grows chain) m -> (forall e, respects (grows chain) (h e)) ->
  respects (grows chain) (tryCatch m h).
Proof.
  intros Hm Hh s r s'. unfold tryCatch.
  destruct (m s) as [[a|e] s1] eqn:E; intros H.
  - inversion H; subst. eapply Hm, E.
  - eapply grows_trans; [eapply Hm, E | eapply Hh, H].
Qed.

Lemma grows_writeCache chain contractName address :
  respects (grows chain) (writeCache chain contractName address).
Proof.
  intros s r s' H. inversion H. subst r s'.
  change (set_cachedAddresses _ s)
    with (snd (writeCache chain contractName address s)).
  split; try done.
  - intros c n Hs. rewrite ledger_writeCache. case_decide; eauto.
  - intros c Hc. cbn. now apply lookup_insert_ne.
  - intros c. exists []. now rewrite app_nil_r.
  - exists []. split; [cbn; now rewrite app_nil_r|constructor].
Qed.

Lemma grows_addVerificationArtifacts chain artifacts :
  respects (grows chain) (addVerificationArtifacts chain artifacts).
Proof.
  intros s r s' H. inversion H. split; try done.
  - intros c. cbn. destruct (decide (c = chain)) as [->|Hc].
    + rewrite lookup_insert_eq. now exists artifacts.
    + rewrite lookup_insert_ne by congruence. exists [].
      now rewrite app_nil_r.
  - intros c Hc. cbn. now apply lookup_insert_ne.
  - exists []. split; [cbn; now rewrite app_nil_r|constructor].
Qed.

Lemma grows_addDeployedContracts chain contracts inputs :
  respects (grows chain) (addDeployedContracts chain contracts inputs).
Proof.
  unfold addDeployedContracts. apply grows_bind.
  - intros s r s' H. inversion H. split; try done.
    + intros c. exists []. now rewrite app_nil_r.
    + intros c n. unfold deployed. cbn.
      destruct (decide (c = chain)) as [->|Hc].
      * rewrite lookup_insert_eq. cbn. intros [a Ha].
        destruct (deployedContracts s !! chain) as [old|]; [|discriminate].
        cbn in *. rewrite lookup_union, Ha.
        destruct (default ∅ contracts !! n); cbn; eauto.
      * now rewrite lookup_insert_ne by congruence.
    + intros c Hc. cbn. now apply lookup_insert_ne.
    + exists []. split; [cbn; now rewrite app_nil_r|constructor].
  - intros _. destruct inputs.
    + apply grows_addVerificationArtifacts.
    + apply grows_ret.
Qed.
End Grows.

Create HintDb grows.

Ltac grows_step :=
  match goal with
  | |- respects _ (bind _ _) => eapply grows_bind; [|intros ?]
  | |- respects _ (ret _) => eapply grows_ret
  | |- respects _ (throw _) => eapply grows_throw
  | |- respects _ (lift _) => eapply grows_lift
  | |- respects _ (get _) => eapply grows_get
  | |- respects _ (read _) => eapply grows_read
  | |- respects _ (log _ _) => eapply grows_log
  | |- respects _ (tryCatch _ _) => eapply grows_tryCatch; [|intros ?]
  | |- respects _ (act _ _) => eapply grows_act; reflexivity
  | |- respects _ (writeCache _ _ _) => eapply grows_writeCache
  | |- respects _ (addVerificationArtifacts _ _) =>
      eapply grows_addVerificationArtifacts
  | |- respects _ (addDeployedContracts _ _ _) =>
      eapply grows_addDeployedContracts
  | |- respects _ (if ?b then _ else _) => destruct b
  | |- respects _ (match ?x with _ => _ end) => destruct x
  | |- respects _ (let _ := _ in _) => cbv zeta
  | |- respects _ _ => solve [eauto with grows]
  end.

Ltac grows_go := repeat grows_step.

Section GrowsFunctions.
Context {W IsmSpec HookConfig : Type}.
Context (env : Env W IsmSpec HookConfig) (opts : Options).
Context (coreFactories : string -> Factory).

Local Abbreviation M := (M W IsmSpec HookConfig).
Local Abbreviation State := (State W IsmSpec HookConfig).

Lemma grows_runIf {T} chain address (fn : M T) label :
  respects (grows chain) fn ->
  respects (grows chain) (runIf env chain address fn label).
Proof. intros Hfn. unfold runIf. grows_go. Qed.
#[local] Hint Resolve grows_runIf : grows.

Lemma grows_runIfOwner {T} chain ownable (fn : M T) :
  respects (grows chain) fn ->
  respects (grows chain) (runIfOwner env chain ownable fn).
Proof. intros Hfn. unfold runIfOwner. grows_go. Qed.
#[local] Hint Resolve grows_runIfOwner : grows.

Lemma grows_configureIsm o chain contract config getIsm setIsm :
  respects (grows chain)
    (configureIsm env o chain contract config getIsm setIsm).
Proof.
  unfold configureIsm. grows_go. eapply grows_runIfOwner. grows_go.
Qed.
#[local] Hint Resolve grows_configureIsm : grows.

Lemma grows_configureHook chain contract targetHook getHook setHook :
  respects (grows chain)
    (configureHook env chain contract targetHook getHook setHook).
Proof.
  unfold configureHook. grows_go. eapply grows_runIfOwner. grows_go.
Qed.
#[local] Hint Resolve grows_configureHook : grows.

Lemma grows_readCache chain factory contractName :
  respects (grows chain) (readCache env chain factory contractName).
Proof. unfold readCache. grows_go. Qed.
#[local] Hint Resolve grows_readCache : grows.

Lemma grows_recoverVerificationArtifacts chain contractName cached
    constructorArgs initializeArgs :
  respects (grows chain)
    (recoverVerificationArtifacts env chain contractName cached
       constructorArgs initializeArgs).
Proof. unfold recoverVerificationArtifacts. grows_go. Qed.
#[local] Hint Resolve grows_recoverVerificationArtifacts : grows.

Lemma grows_deployContractFromFactory o chain factory contractName
    constructorArgs initializeArgs shouldRecover :
  respects (grows chain)
    (deployContractFromFactory env o chain factory contractName
       constructorArgs initializeArgs shouldRecover).
Proof. unfold deployContractFromFactory. grows_go. Qed.
#[local] Hint Resolve grows_deployContractFromFactory : grows.

Lemma grows_deployContractWithName o chain contractKey contractName
    constructorArgs initializeArgs shouldRecover :
  respects (grows chain)
    (deployContractWithName env o chain contractKey contractName
       constructorArgs initializeArgs shouldRecover).
Proof. unfold deployContractWithName. grows_go. Qed.
#[local] Hint Resolve grows_deployContractWithName : grows.

Lemma grows_deployContract o chain contractKey constructorArgs
    initializeArgs shouldRecover :
  respects (grows chain)
    (deployContract env o chain contractKey constructorArgs initializeArgs
       shouldRecover).
Proof. unfold deployContract. grows_go. Qed.
#[local] Hint Resolve grows_deployContract : grows.

Lemma grows_deployProxy o chain implementation admin initializeArgs :
  respects (grows chain)
    (deployProxy env o chain implementation admin initializeArgs).
Proof. unfold deployProxy. grows_go. Qed.
#[local] Hint Resolve grows_deployProxy : grows.

Lemma grows_deployProxiedContract o chain contractKey contractName admin
    constructorArgs initializeArgs :
  respects (grows chain)
    (deployProxiedContract env o chain contractKey contractName admin
       constructorArgs initializeArgs).
Proof. unfold deployProxiedContract. grows_go. Qed.
#[local] Hint Resolve grows_deployProxiedContract : grows.

Lemma grows_deployTimelock chain timelockConfig :
  respects (grows chain) (deployTimelock env chain timelockConfig).
Proof. unfold deployTimelock. grows_go. Qed.
#[local] Hint Resolve grows_deployTimelock : grows.

Lemma grows_transferOwnershipOfContracts chain config ownables :
  respects (grows chain)
    (transferOwnershipOfContracts env chain config ownables).
Proof.
  unfold transferOwnershipOfContracts. generalize (@nil Receipt).
  induction ownables as [|[contractName [ownable|]] rest IH]; intros receipts;
    cbn [transferOwnershipLoop]; grows_go.
  eapply grows_runIfOwner. grows_go.
Qed.
#[local] Hint Resolve grows_transferOwnershipOfContracts : grows.

Lemma grows_deployHook chain config coreAddresses :
  respects (grows chain) (deployHook env chain config coreAddresses).
Proof. unfold deployHook. grows_go. Qed.
#[local] Hint Resolve grows_deployHook : grows.

Lemma grows_deployIsm chain config mailbox :
  respects (grows chain) (deployIsm env chain config mailbox).
Proof. unfold deployIsm. grows_go. Qed.
#[local] Hint Resolve grows_deployIsm : grows.

Lemma grows_deployTestRecipient chain ism :
  respects (grows chain) (deployTestRecipient env chain ism).
Proof. unfold deployTestRecipient. grows_go. Qed.
#[local] Hint Resolve grows_deployTestRecipient : grows.

Lemma grows_deployValidatorAnnounce chain mailbox :
  respects (grows chain)
    (deployValidatorAnnounce env coreFactories chain mailbox).
Proof. unfold deployValidatorAnnounce. grows_go. Qed.
#[local] Hint Resolve grows_deployValidatorAnnounce : grows.

Lemma grows_deployMailbox_configure chain config mailbox ism defaultHook
    requiredHook :
  respects (grows chain)
    (deployMailbox_configure env coreFactories chain config mailbox ism
       defaultHook requiredHook).
Proof. unfold deployMailbox_configure. grows_go. Qed.
#[local] Hint Resolve grows_deployMailbox_configure : grows.

(** The assignment [this.cachedAddresses[chain].interchainSecurityModule =
    defaultIsm] of [deployMailbox], followed by the rest of the method. *)
Lemma grows_recordIsm {T} chain ism (k : M T) :
  respects (grows chain) k ->
  respects (grows chain)
    (let* cached := get (fun s : State => cachedAddresses s !! chain) in
     match cached with
     | Some addresses =>
         modify (fun s : State =>
           set_cachedAddresses
             (<[chain := <["interchainSecurityModule" := ism]> addresses]>
                (cachedAddresses s)) s)
     | None => throw (TypeError "interchainSecurityModule")
     end ;;; k).
Proof.
  intros Hk s r s'. unfold bind at 1. unfold get.
  destruct (cachedAddresses s !! chain) as [addresses|] eqn:Hc.
  - unfold bind, modify. intros H.
    assert (E : set_cachedAddresses
                  (<[chain := <["interchainSecurityModule" := ism]> addresses]>
                     (cachedAddresses s)) s
                = snd (writeCache chain "interchainSecurityModule" ism s)).
    { unfold writeCache, modify. cbn. now rewrite Hc. }
    rewrite E in H. eapply grows_trans; [|eapply Hk; exact H].
    apply (grows_writeCache chain "interchainSecurityModule" ism s (Ok tt)).
    reflexivity.
  - unfold bind, throw. intros H. inversion H. apply grows_refl.
Qed.

Lemma grows_deployMailbox chain config admin :
  respects (grows chain) (deployMailbox env coreFactories chain config admin).
Proof.
  unfold deployMailbox.
  do 4 (eapply grows_bind; [grows_go|intros ?]).
  eapply grows_bind; [grows_go|intros ?].
  eapply grows_recordIsm. grows_go.
Qed.
#[local] Hint Resolve grows_deployMailbox : grows.

Lemma grows_deployContracts chain config :
  respects (grows chain) (deployContracts env coreFactories chain config).
Proof. unfold deployContracts. grows_go. Qed.
End GrowsFunctions.

Section CoreBooks.
Context {W IsmSpec HookConfig : Type}.
Context (env : Env W IsmSpec HookConfig).
Context (coreFactories : string -> Factory).

Local Abbreviation State := (State W IsmSpec HookConfig).

(** X18.  The core deployer keeps chains apart: [deployContracts] for one
    chain leaves the ledger, the verification inputs and the
    [deployedContracts] entry of every other chain as they were, and
    writes no starting block number, whether it returns or throws. *)
Theorem core_deployContracts_isolated chain config other (s : State) r s' :
  other <> chain ->
  deployContracts env coreFactories chain config s = (r, s') ->
  cachedAddresses s' !! other = cachedAddresses s !! other
  /\ verificationInputs s' !! other = verificationInputs s !! other
  /\ deployedContracts s' !! other = deployedContracts s !! other
  /\ startingBlockNumbers s' = startingBlockNumbers s.
Proof.
  intros Hne Hrun.
  destruct (grows_deployContracts env coreFactories chain config _ _ _ Hrun)
    as [_ B _ D _ F _ H].
  auto.
Qed.

(** X19.  The books only grow: across a run of [deployContracts], whether
    it returns or throws, no ledger slot and no [deployedContracts] slot
    of any chain loses its binding (a slot may be rebound, as the
    implementation's slot is to its proxy), and the verification inputs
    recorded for a chain are kept in place, new ones coming after them. *)
Theorem core_deployContracts_books_grow chain config (s : State) r s' :
  deployContracts env coreFactories chain config s = (r, s') ->
  (forall c name,
     is_Some (ledger s c name) -> is_Some (ledger s' c name))
  /\ (forall c name,
        is_Some (deployed s c name) -> is_Some (deployed s' c name))
  /\ (forall c, exists added,
        default [] (verificationInputs s' !! c)
        = (default [] (verificationInputs s !! c) ++ added)%list).
Proof.
  intros Hrun.
  destruct (grows_deployContracts env coreFactories chain config _ _ _ Hrun)
    as [A _ C _ E _ _ _].
  auto.
Qed.

(** X20.  Every call that [deployContracts] makes for a chain --
    deployments, transactions, verification requests and the calls to the
    ISM factory, the hook deployer and the test recipient deployer -- is
    a call on that chain, and the trace of earlier calls is kept. *)
Theorem core_deployContracts_calls_on_chain chain config (s : State) r s' :
  deployContracts env coreFactories chain config s = (r, s') ->
  exists made,
    calls s' = (calls s ++ made)%list
    /\ Forall (fun call => callChain call = chain) made.
Proof.
  intros Hrun.
  exact (grows_calls _ _ _
           (grows_deployContracts env coreFactories chain config _ _ _ Hrun)).
Qed.
End CoreBooks.

(** ** Which ledger slots a deployment writes *)

Section Writes.
Context {W IsmSpec HookConfig : Type}.

Local Abbreviation M := (M W IsmSpec HookConfig).
Local Abbreviation State := (State W IsmSpec HookConfig).

(** From [s] to [s'] the only ledger slots that may have changed are
    slots of [chain] whose name satisfies [P]. *)
Definition writes (chain : string) (P : string -> bool) (s s' : State)
    : Prop :=
  forall c n, (c = chain -> P n = false) -> ledger s' c n = ledger s c n.

Lemma writes_same chain P (s s' : State) :
  cachedAddresses s' = cachedAddresses s -> writes chain P s s'.
Proof. intros E c n _. unfold ledger. now rewrite E. Qed.

Lemma writes_trans chain P (s1 s2 s3 : State) :
  writes chain P s1 s2 -> writes chain P s2 s3 -> writes chain P s1 s3.
Proof. intros H1 H2 c n H. now rewrite (H2 c n H), (H1 c n H). Qed.

Lemma writes_ret {A} chain P (a : A) : respects (writes chain P) (ret a).
Proof. intros s r s' H. inversion H. now apply writes_same. Qed.

Lemma writes_throw {A} chain P e :
  respects (writes chain P) (@throw W IsmSpec HookConfig A e).
Proof. intros s r s' H. inversion H. now apply writes_same. Qed.

Lemma writes_lift {A} chain P (x : Result A) :
  respects (writes chain P) (lift x).
Proof. intros s r s' H. inversion H. now apply writes_same. Qed.

Lemma writes_get {A} chain P (f : State -> A) :
  respects (writes chain P) (get f).
Proof. intros s r s' H. inversion H. now apply writes_same. Qed.

Lemma writes_read {A} chain P (f : W -> Result A) :
  respects (writes chain P) (read f).
Proof. intros s r s' H. inversion H. now apply writes_same. Qed.

Lemma writes_log chain P level msg :
  respects (writes chain P) (log level msg).
Proof. intros s r s' H. inversion H. now apply writes_same. Qed.

Lemma writes_act {A} chain P c (f : W -> Result A * W) :
  respects (writes chain P) (act c f).
Proof.
  intros s r s'. unfold act. destruct (f (world s)) as [r0 w'].
  intros H. inversion H. now apply writes_same.
Qed.

Lemma writes_bind {A B} chain P (m : M A) (k : A -> M B) :
  respects (writes chain P) m -> (forall a, respects (writes chain P) (k a)) ->
  respects (writes chain P) (bind m k).
Proof.
  intros Hm Hk s r s'. unfold bind.
  destruct (m s) as [[a|e] s1] eqn:E; intros H.
  - eapply writes_trans; [eapply Hm, E | eapply Hk, H].
  - inversion H; subst. eapply Hm, E.
Qed.

Lemma writes_tryCatch {A} chain P (m : M A) (h : JsError -> M A) :
  respects (writes chain P) m -> (forall e, respects (writes chain P) (h e)) ->
  respects (writes chain P) (tryCatch m h).
Proof.
  intros Hm Hh s r s'. unfold tryCatch.
  destruct (m s) as [[a|e] s1] eqn:E; intros H.
  - inversion H; subst. eapply Hm, E.
  - eapply writes_trans; [eapply Hm, E | eapply Hh, H].
Qed.

Lemma writes_writeCache chain P contractName address :
  P contractName = true ->
  respects (writes chain P) (writeCache chain contractName address).
Proof.
  intros HP s r s' H. inversion H. subst r s'.
  change (set_cachedAddresses _ s)
    with (snd (writeCache chain contractName address s)).
  intros c n Hn. rewrite ledger_writeCache. case_decide as Hd; [|reflexivity].
  destruct Hd as [-> ->]. rewrite (Hn eq_refl) in HP. discriminate.
Qed.

Lemma writes_addVerificationArtifacts chain P artifacts :
  respects (writes chain P) (addVerificationArtifacts chain artifacts).
Proof. intros s r s' H. inversion H. now apply writes_same. Qed.

Lemma writes_addDeployedContracts chain P contracts inputs :
  respects (writes chain P) (addDeployedContracts chain contracts inputs).
Proof.
  unfold addDeployedContracts. apply writes_bind.
  - intros s r s' H. inversion H. now apply writes_same.
  - intros _. destruct inputs.
    + apply writes_addVerificationArtifacts.
    + apply writes_ret.
Qed.

(** A run that returns went through both halves of a [bind]. *)
Lemma bind_Ok_inv {A B} (m : M A) (k : A -> M B) (s : State) b s' :
  bind m k s = (Ok b, s') ->
  exists a s1, m s = (Ok a, s1) /\ k a s1 = (Ok b, s').
Proof.
  unfold bind. destruct (m s) as [[a|e] s1]; intros H; [eauto|discriminate].
Qed.
End Writes.

Create HintDb writes.

#[export] Hint Extern 1 (_ = true) => reflexivity : writes.
#[export] Hint Extern 1 (_ = true) => assumption : writes.

Ltac writes_step :=
  match goal with
  | |- respects _ (bind _ _) => eapply writes_bind; [|intros ?]
  | |- respects _ (ret _) => eapply writes_ret
  | |- respects _ (throw _) => eapply writes_throw
  | |- respects _ (lift _) => eapply writes_lift
  | |- respects _ (get _) => eapply writes_get
  | |- respects _ (read _) => eapply writes_read
  | |- respects _ (log _ _) => eapply writes_log
  | |- respects _ (tryCatch _ _) => eapply writes_tryCatch; [|intros ?]
  | |- respects _ (act _ _) => eapply writes_act
  | |- respects _ (writeCache _ _ _) =>
      eapply writes_writeCache; solve [reflexivity | assumption]
  | |- respects _ (addVerificationArtifacts _ _) =>
      eapply writes_addVerificationArtifacts
  | |- respects _ (addDeployedContracts _ _ _) =>
      eapply writes_addDeployedContracts
  | |- respects _ (if ?b then _ else _) => destruct b
  | |- respects _ (match ?x with _ => _ end) => destruct x
  | |- respects _ (let _ := _ in _) => cbv zeta
  | |- respects _ _ => solve [eauto with writes]
  end.

Ltac writes_go := repeat writes_step.

Section WritesFunctions.
Context {W IsmSpec HookConfig : Type}.
Context (env : Env W IsmSpec HookConfig).
Context (coreFactories : string -> Factory).

Local Abbreviation M := (M W IsmSpec HookConfig).
Local Abbreviation State := (State W IsmSpec HookConfig).

Lemma writes_runIf {T} chain P address (fn : M T) label :
  respects (writes chain P) fn ->
  respects (writes chain P) (runIf env chain address fn label).
Proof. intros Hfn. unfold runIf. writes_go. Qed.
#[local] Hint Resolve writes_runIf : writes.

Lemma writes_runIfOwner {T} chain P ownable (fn : M T) :
  respects (writes chain P) fn ->
  respects (writes chain P) (runIfOwner env chain ownable fn).
Proof. intros Hfn. unfold runIfOwner. writes_go. Qed.
#[local] Hint Resolve writes_runIfOwner : writes.

Lemma writes_configureIsm o chain P contract config getIsm setIsm :
  respects (writes chain P)
    (configureIsm env o chain contract config getIsm setIsm).
Proof.
  unfold configureIsm. writes_go. eapply writes_runIfOwner. writes_go.
Qed.
#[local] Hint Resolve writes_configureIsm : writes.

Lemma writes_configureHook chain P contract targetHook getHook setHook :
  respects (writes chain P)
    (configureHook env chain contract targetHook getHook setHook).
Proof.
  unfold configureHook. writes_go. eapply writes_runIfOwner. writes_go.
Qed.
#[local] Hint Resolve writes_configureHook : writes.

Lemma writes_readCache chain P factory contractName :
  respects (writes chain P) (readCache env chain factory contractName).
Proof. unfold readCache. writes_go. Qed.
#[local] Hint Resolve writes_readCache : writes.

Lemma writes_recoverVerificationArtifacts chain P contractName cached
    constructorArgs initializeArgs :
  respects (writes chain P)
    (recoverVerificationArtifacts env chain contractName cached
       constructorArgs initializeArgs).
Proof. unfold recoverVerificationArtifacts. writes_go. Qed.
#[local] Hint Resolve writes_recoverVerificationArtifacts : writes.

Lemma writes_deployContractFromFactory o chain P factory contractName
    constructorArgs initializeArgs shouldRecover :
  respects (writes chain P)
    (deployContractFromFactory env o chain factory contractName
       constructorArgs initializeArgs shouldRecover).
Proof. unfold deployContractFromFactory. writes_go. Qed.
#[local] Hint Resolve writes_deployContractFromFactory : writes.

Lemma writes_deployContractWithName o chain P contractKey contractName
    constructorArgs initializeArgs shouldRecover :
  P contractName = true ->
  respects (writes chain P)
    (deployContractWithName env o chain contractKey contractName
       constructorArgs initializeArgs shouldRecover).
Proof. intros HP. unfold deployContractWithName. writes_go. Qed.
#[local] Hint Resolve writes_deployContractWithName : writes.

Lemma writes_deployProxy o chain P implementation admin initializeArgs :
  respects (writes chain P)
    (deployProxy env o chain implementation admin initializeArgs).
Proof. unfold deployProxy. writes_go. Qed.
#[local] Hint Resolve writes_deployProxy : writes.

Lemma writes_deployProxiedContract o chain P contractKey contractName admin
    constructorArgs initializeArgs :
  P contractName = true ->
  respects (writes chain P)
    (deployProxiedContract env o chain contractKey contractName admin
       constructorArgs initializeArgs).
Proof. intros HP. unfold deployProxiedContract. writes_go. Qed.
#[local] Hint Resolve writes_deployProxiedContract : writes.

Lemma writes_deployTimelock chain P timelockConfig :
  respects (writes chain P) (deployTimelock env chain timelockConfig).
Proof. unfold deployTimelock. writes_go. Qed.
#[local] Hint Resolve writes_deployTimelock : writes.

Lemma writes_transferOwnershipOfContracts chain P config ownables :
  respects (writes chain P)
    (transferOwnershipOfContracts env chain config ownables).
Proof.
  unfold transferOwnershipOfContracts. generalize (@nil Receipt).
  induction ownables as [|[contractName [ownable|]] rest IH]; intros receipts;
    cbn [transferOwnershipLoop]; writes_go.
  eapply writes_runIfOwner. writes_go.
Qed.
#[local] Hint Resolve writes_transferOwnershipOfContracts : writes.

Lemma writes_deployHook chain P config coreAddresses :
  respects (writes chain P) (deployHook env chain config coreAddresses).
Proof. unfold deployHook. writes_go. Qed.
#[local] Hint Resolve writes_deployHook : writes.

Lemma writes_deployIsm chain P config mailbox :
  respects (writes chain P) (deployIsm env chain config mailbox).
Proof. unfold deployIsm. writes_go. Qed.
#[local] Hint Resolve writes_deployIsm : writes.

Lemma writes_deployTestRecipient chain P ism :
  respects (writes chain P) (deployTestRecipient env chain ism).
Proof. unfold deployTestRecipient. writes_go. Qed.
#[local] Hint Resolve writes_deployTestRecipient : writes.

Lemma writes_deployValidatorAnnounce chain P mailbox :
  P "validatorAnnounce" = true ->
  respects (writes chain P)
    (deployValidatorAnnounce env coreFactories chain mailbox).
Proof.
  intros HP. unfold deployValidatorAnnounce, deployContract.
  now apply writes_deployContractWithName.
Qed.
#[local] Hint Resolve writes_deployValidatorAnnounce : writes.

Lemma writes_deployMailbox_configure chain P config mailbox ism defaultHook
    requiredHook :
  respects (writes chain P)
    (deployMailbox_configure env coreFactories chain config mailbox ism
       defaultHook requiredHook).
Proof. unfold deployMailbox_configure. writes_go. Qed.
#[local] Hint Resolve writes_deployMailbox_configure : writes.

(** The rest of [deployMailbox] after the default ISM has been recorded
    in the ledger. *)
Definition deployMailbox_afterIsm (chain : string)
    (config : CoreConfig IsmSpec HookConfig) (proxyAdmin mailbox ism : string)
    : M string :=
  let hookAddresses := mkHookAddresses mailbox proxyAdmin in
  log Debug LDeployingDefaultHook ;;;
  let* defaultHook :=
    deployHook env chain (defaultHook config) hookAddresses in
  log Debug LDeployingRequiredHook ;;;
  let* requiredHook :=
    deployHook env chain (requiredHook config) hookAddresses in
  deployMailbox_configure env coreFactories chain config mailbox ism
    defaultHook requiredHook ;;;
  ret mailbox.

Lemma writes_deployMailbox_afterIsm chain P config proxyAdmin mailbox ism :
  respects (writes chain P)
    (deployMailbox_afterIsm chain config proxyAdmin mailbox ism).
Proof. unfold deployMailbox_afterIsm. writes_go. Qed.

Lemma writes_recordIsm {T} chain P ism (k : M T) :
  P "interchainSecurityModule" = true ->
  respects (writes chain P) k ->
  respects (writes chain P)
    (let* cached := get (fun s : State => cachedAddresses s !! chain) in
     match cached with
     | Some addresses =>
         modify (fun s : State =>
           set_cachedAddresses
             (<[chain := <["interchainSecurityModule" := ism]> addresses]>
                (cachedAddresses s)) s)
     | None => throw (TypeError "interchainSecurityModule")
     end ;;; k).
Proof.
  intros HP Hk s r s'. unfold bind at 1. unfold get.
  destruct (cachedAddresses s !! chain) as [addresses|] eqn:Hc.
  - unfold bind, modify. intros H.
    assert (E : set_cachedAddresses
                  (<[chain := <["interchainSecurityModule" := ism]> addresses]>
                     (cachedAddresses s)) s
                = snd (writeCache chain "interchainSecurityModule" ism s)).
    { unfold writeCache, modify. cbn. now rewrite Hc. }
    rewrite E in H. eapply writes_trans; [|eapply Hk; exact H].
    apply (writes_writeCache chain P "interchainSecurityModule" ism HP s
             (Ok tt)).
    reflexivity.
  - unfold bind, throw. intros H. inversion H. now apply writes_same.
Qed.

Lemma writes_deployMailbox chain P config admin :
  P "mailbox" = true -> P "interchainSecurityModule" = true ->
  respects (writes chain P) (deployMailbox env coreFactories chain config admin).
Proof.
  intros Hm Hi. unfold deployMailbox.
  do 4 (eapply writes_bind; [writes_go|intros ?]).
  eapply writes_bind; [writes_go|intros ?].
  eapply writes_recordIsm; [assumption|]. writes_go.
Qed.
#[local] Hint Resolve writes_deployMailbox : writes.
End WritesFunctions.

Section CoreLedger.
Context {W IsmSpec HookConfig : Type}.
Context (env : Env W IsmSpec HookConfig).
Context (coreFactories : string -> Factory).

Local Abbreviation M := (M W IsmSpec HookConfig).
Local Abbreviation State := (State W IsmSpec HookConfig).

Definition noSlot (name : string) : bool := false.

Lemma deployContractWithName_binds o chain contractKey contractName
    constructorArgs initializeArgs shouldRecover (s : State) address s' :
  deployContractWithName env o chain contractKey contractName
    constructorArgs initializeArgs shouldRecover s = (Ok address, s') ->
  ledger s' chain contractName = Some address.
Proof.
  unfold deployContractWithName. intros H.
  apply bind_Ok_inv in H as (contract & s1 & _ & H).
  assert (E : s' = snd (writeCache chain contractName contract s1)
              /\ address = contract).
  { unfold bind, ret, writeCache, modify in *. inversion H. now split. }
  destruct E as [-> ->]. rewrite ledger_writeCache. now rewrite decide_True.
Qed.

Lemma deployProxiedContract_binds o chain contractKey contractName admin
    constructorArgs initializeArgs (s : State) address s' :
  deployProxiedContract env o chain contractKey contractName admin
    constructorArgs initializeArgs s = (Ok address, s') ->
  ledger s' chain contractName = Some address.
Proof.
  unfold deployProxiedContract. intros H.
  apply bind_Ok_inv in H as (implementation & s1 & _ & H).
  apply bind_Ok_inv in H as (contract & s2 & _ & H).
  assert (E : s' = snd (writeCache chain contractName contract s2)
              /\ address = contract).
  { unfold bind, ret, writeCache, modify in *. inversion H. now split. }
  destruct E as [-> ->]. rewrite ledger_writeCache. now rewrite decide_True.
Qed.

Lemma deployMailbox_afterIsm_result chain config proxyAdmin mailbox ism
    (s : State) address s' :
  deployMailbox_afterIsm env coreFactories chain config proxyAdmin mailbox ism
    s = (Ok address, s') ->
  address = mailbox.
Proof.
  unfold deployMailbox_afterIsm. cbv zeta. intros H.
  apply bind_Ok_inv in H as (? & ? & _ & H).
  apply bind_Ok_inv in H as (? & ? & _ & H).
  apply bind_Ok_inv in H as (? & ? & _ & H).
  apply bind_Ok_inv in H as (? & ? & _ & H).
  apply bind_Ok_inv in H as (? & ? & _ & H).
  now inversion H.
Qed.

Lemma deployMailbox_binds chain config proxyAdmin (s : State) mailbox s' :
  deployMailbox env coreFactories chain config proxyAdmin s
  = (Ok mailbox, s') ->
  ledger s' chain "mailbox" = Some mailbox
  /\ is_Some (ledger s' chain "interchainSecurityModule").
Proof.
  unfold deployMailbox. intros H.
  apply bind_Ok_inv in H as (domain & s1 & _ & H).
  apply bind_Ok_inv in H as (proxy & s2 & Hproxy & H).
  apply deployProxiedContract_binds in Hproxy.
  apply bind_Ok_inv in H as (configured & s3 & H3 & H).
  apply bind_Ok_inv in H as (matches & s4 & H4 & H).
  apply bind_Ok_inv in H as (ism & s5 & H5 & H).
  assert (F : writes chain noSlot s2 s5).
  { eapply writes_trans; [|eapply writes_trans].
    - eapply (writes_read chain noSlot), H3.
    - eapply (writes_read chain noSlot), H4.
    - assert (R : respects (writes chain noSlot)
        (if negb matches
         then bind (log Debug LDeployingDefaultIsm)
                (fun _ => deployIsm env chain (defaultIsm config) proxy)
         else ret configured)).
      { destruct (negb matches).
        - apply writes_bind;
            [apply writes_log|intros _; apply writes_deployIsm].
        - apply writes_ret. }
      exact (R _ _ _ H5). }
  change (bind (get (fun s : State => cachedAddresses s !! chain))
            (fun cached =>
               bind (match cached with
                     | Some addresses =>
                         modify (fun s : State =>
                           set_cachedAddresses
                             (<[chain := <["interchainSecurityModule" := ism]>
                                           addresses]>
                                (cachedAddresses s)) s)
                     | None => throw (TypeError "interchainSecurityModule")
                     end)
                 (fun _ =>
                    deployMailbox_afterIsm env coreFactories chain config
                      proxyAdmin proxy ism))
            s5 = (Ok mailbox, s')) in H.
  unfold bind at 1 in H. unfold get in H.
  destruct (cachedAddresses s5 !! chain) as [addresses|] eqn:Hc;
    [|discriminate].
  unfold bind, modify in H.
  assert (E : set_cachedAddresses
                (<[chain := <["interchainSecurityModule" := ism]> addresses]>
                   (cachedAddresses s5)) s5
              = snd (writeCache chain "interchainSecurityModule" ism s5)).
  { unfold writeCache, modify. cbn. now rewrite Hc. }
  rewrite E in H.
  pose proof (deployMailbox_afterIsm_result _ _ _ _ _ _ _ _ H) as ->.
  pose proof (writes_deployMailbox_afterIsm env coreFactories chain noSlot
                config proxyAdmin proxy ism _ _ _ H) as F'.
  split.
  - rewrite (F' chain "mailbox" (fun _ => eq_refl)), ledger_writeCache.
    rewrite decide_False by (intros [_ ?]; discriminate).
    now rewrite (F chain "mailbox" (fun _ => eq_refl)).
  - rewrite (F' chain "interchainSecurityModule" (fun _ => eq_refl)).
    rewrite ledger_writeCache. rewrite decide_True by done. eauto.
Qed.

(** X22.  The ledger records what a run returns: when [deployContracts]
    returns contracts for a chain, these are exactly the slots [mailbox],
    [proxyAdmin], [validatorAnnounce] and [testRecipient], the ledger of
    the chain binds the first three to the very addresses returned, and
    it holds a default ISM.  This is what lets a later run resume from
    the ledger. *)
Theorem core_deployContracts_ledger_records_result chain config (s : State)
    contracts s' :
  deployContracts env coreFactories chain config s
  = (Ok (Some contracts), s') ->
  exists mailbox proxyAdmin validatorAnnounce testRecipient,
    contracts
    = list_to_map [("mailbox", mailbox); ("proxyAdmin", proxyAdmin);
                   ("validatorAnnounce", validatorAnnounce);
                   ("testRecipient", testRecipient)]
    /\ ledger s' chain "mailbox" = Some mailbox
    /\ ledger s' chain "proxyAdmin" = Some proxyAdmin
    /\ ledger s' chain "validatorAnnounce" = Some validatorAnnounce
    /\ is_Some (ledger s' chain "interchainSecurityModule").
Proof.
  unfold deployContracts. destruct config as [config|]; [|discriminate].
  destruct (remove config); [discriminate|]. intros H.
  apply bind_Ok_inv in H as (proxyAdmin & s1 & H1 & H).
  apply deployContractWithName_binds in H1.
  apply bind_Ok_inv in H as (mailbox & s2 & H2 & H).
  pose proof (writes_deployMailbox env coreFactories chain
                (fun n => negb (String.eqb n "proxyAdmin")) config proxyAdmin
                eq_refl eq_refl _ _ _ H2 chain "proxyAdmin"
                (fun _ => eq_refl)) as F2.
  apply deployMailbox_binds in H2 as [Hm Hi].
  apply bind_Ok_inv in H as (validatorAnnounce & s3 & H3 & H).
  pose proof (writes_deployValidatorAnnounce env coreFactories chain
                (fun n => String.eqb n "validatorAnnounce") mailbox
                eq_refl _ _ _ H3) as F3.
  apply deployContractWithName_binds in H3.
  apply bind_Ok_inv in H as (overrides' & s4 & H4 & H).
  assert (F4 : writes chain noSlot s3 s4).
  { assert (R : respects (writes chain noSlot)
      (match upgrade config with
       | Some timelock =>
           bind (deployTimelock env chain timelock)
             (fun timelockController =>
                ret (Some (<["proxyAdmin" := timelockController]>
                             (default ∅ (ownerOverrides config)))))
       | None => ret (ownerOverrides config)
       end)).
    { destruct (upgrade config).
      - apply writes_bind;
          [apply writes_deployTimelock|intros ?; apply writes_ret].
      - apply writes_ret. }
    exact (R _ _ _ H4). }
  apply bind_Ok_inv in H as (cached & s5 & H5 & H). inversion H5. subst s5.
  apply bind_Ok_inv in H as (ism & s6 & H6 & H).
  assert (s6 = s4) as ->.
  { destruct cached; inversion H6; reflexivity. }
  apply bind_Ok_inv in H as (testRecipient & s7 & H7 & H).
  pose proof (writes_deployTestRecipient env chain noSlot _ _ _ _ H7) as F7.
  apply bind_Ok_inv in H as (receipts & s8 & H8 & H).
  pose proof (writes_transferOwnershipOfContracts env chain noSlot _ _ _ _ _
                H8) as F8.
  inversion H. subst.
  assert (F : forall n, ledger s' chain n = ledger s3 chain n).
  { intros n. rewrite (F8 chain n (fun _ => eq_refl)).
    rewrite (F7 chain n (fun _ => eq_refl)).
    apply (F4 chain n (fun _ => eq_refl)). }
  exists mailbox, proxyAdmin, validatorAnnounce, testRecipient.
  split; [reflexivity|]. rewrite !F.
  rewrite (F3 chain "mailbox" (fun _ => eq_refl)).
  rewrite (F3 chain "proxyAdmin" (fun _ => eq_refl)).
  rewrite (F3 chain "interchainSecurityModule" (fun _ => eq_refl)).
  rewrite F2. auto.
Qed.
End CoreLedger.

(** ** A test double for the collaborators

    One signer; chains whose contracts keep their storage in a table;
    an ISM factory that deploys a module per request; a hook deployer and
    a test-recipient deployer that reuse what they deployed.  It is used
    to run the deployer on concrete inputs. *)

Module Mock.

(** Structural ISM configurations and hook configurations are given by
    name. *)
Abbreviation IsmSpec := string (only parsing).
Abbreviation HookConfig := string (only parsing).

Record World := mkWorld {
  (** addresses handed out by the next deployments *)
  fresh : list string;
  (** chain|address|slot -> value *)
  storage : list (string * string);
  (** hooks the hook deployer has deployed: (chain, type, address) *)
  hooks : list (string * string * string);
}.

Record Setup := mkSetup {
  signer : string;
  protocols : list (string * ProtocolType);
  (** chains on which deployments are rejected *)
  broken : list string;
  (** set to make set-transactions succeed without any effect *)
  stuck : bool;
  (** what [initialize] throws on an initialized contract *)
  alreadyInitialized : JsError;
  (** set to make every [initialize] call throw this *)
  initializeFails : option JsError;
}.

Fixpoint assoc {V} (k : string) (l : list (string * V)) : option V :=
  match l with
  | [] => None
  | (k', v) :: l' => if String.eqb k k' then Some v else assoc k l'
  end.

Definition slot (chain address name : string) : string :=
  chain ++ "|" ++ address ++ "|" ++ name.

Definition load (chain address name : string) (w : World) : string :=
  default AddressZero (assoc (slot chain address name) (storage w)).

Definition store (chain address name value : string) (w : World) : World :=
  mkWorld (fresh w) ((slot chain address name, value) :: storage w) (hooks w).

Definition receipt (tx : Tx) : Receipt := mkReceipt (tx_method tx).

(** Allocates the next address and marks it as holding code. *)
Definition allocate {A} (chain : string) (w : World)
    (k : string -> World -> Result A * World) : Result A * World :=
  match fresh w with
  | [] => (Throw (Error "no address left"), w)
  | a :: rest =>
      k a (store chain a "code" "0x6080" (mkWorld rest (storage w) (hooks w)))
  end.

Definition mockHandleDeploy (setup : Setup) (chain : string)
    (factory : Factory) (args : list Arg) (w : World)
    : Result string * World :=
  if existsb (String.eqb chain) (broken setup) then
    (Throw (Error "insufficient funds for gas * price + value"), w)
  else
    allocate chain w (fun a w1 =>
      match factory_name factory, args with
      | "TransparentUpgradeableProxy", AStr impl :: AStr admin :: _ =>
          (Ok a, store chain a "implementation" impl
                   (store chain a "admin" admin w1))
      | "Mailbox", _ => (Ok a, w1)
      | _, _ => (Ok a, store chain a "owner" (signer setup) w1)
      end).

Definition mockHandleTx (setup : Setup) (chain : string) (tx : Tx)
    (w : World) : Result Receipt * World :=
  match tx_method tx, tx_args tx with
  | "initialize", [AStr o; AStr ism; AStr dh; AStr rh] =>
      match initializeFails setup with
      | Some e => (Throw e, w)
      | None =>
          if String.eqb (load chain (tx_to tx) "initialized" w) "1" then
            (Throw (alreadyInitialized setup), w)
          else
            (Ok (receipt tx),
             store chain (tx_to tx) "initialized" "1"
               (store chain (tx_to tx) "requiredHook" rh
                  (store chain (tx_to tx) "defaultHook" dh
                     (store chain (tx_to tx) "defaultIsm" ism
                        (store chain (tx_to tx) "owner" o w)))))
      end
  | "transferOwnership", [AStr o] =>
      (Ok (receipt tx), store chain (tx_to tx) "owner" o w)
  | "changeAdmin", [AStr a] =>
      (Ok (receipt tx), store chain (tx_to tx) "admin" a w)
  | "changeProxyAdmin", [AStr proxy; AStr a] =>
      (Ok (receipt tx), store chain proxy "admin" a w)
  | _, _ => (Ok (receipt tx), w)
  end.

Definition mockSendTransaction (setup : Setup) (chain : string) (tx : Tx)
    (w : World) : Result Receipt * World :=
  if stuck setup then (Ok (receipt tx), w)
  else
    match tx_method tx, tx_args tx with
    | "setDefaultHook", [AStr h] =>
        (Ok (receipt tx), store chain (tx_to tx) "defaultHook" h w)
    | "setRequiredHook", [AStr h] =>
        (Ok (receipt tx), store chain (tx_to tx) "requiredHook" h w)
    | "setDefaultIsm", [AStr m] =>
        (Ok (receipt tx), store chain (tx_to tx) "defaultIsm" m w)
    | "setHook", [AStr h] =>
        (Ok (receipt tx), store chain (tx_to tx) "hook" h w)
    | "setInterchainSecurityModule", [AStr m] =>
        (Ok (receipt tx),
         store chain (tx_to tx) "interchainSecurityModule" m w)
    | _, _ => (Ok (receipt tx), w)
    end.

Definition mockIntersect (setup : Setup) (chains : list string)
    (throwIfNotSubset : bool) : Result (list string) :=
  let known c :=
    match assoc c (protocols setup) with Some _ => true | None => false end in
  if forallb known chains then Ok chains
  else if throwIfNotSubset then
    Throw (Error "MultiProvider does not have a configured chain")
  else Ok (List.filter known chains).

Definition mockIsmDeploy (chain : string) (config : IsmConfig string)
    (mailbox : option string) (w : World) : Result string * World :=
  match config with
  | IsmAddress a => (Ok a, w)
  | IsmObject spec =>
      allocate chain w (fun a w1 =>
        (Ok a, store chain "ismFactory" "last" a (store chain a "spec" spec w1)))
  end.

Definition mockHookDeploy (chain : string) (config : string)
    (coreAddresses : HookAddresses) (w : World)
    : Result (gmap string string) * World :=
  match load chain "hookDeployer" config w with
  | "0x0000000000000000000000000000000000000000" =>
      allocate chain w (fun a w1 =>
        let w2 := store chain "hookDeployer" config a w1 in
        (Ok {[config := a]},
         mkWorld (fresh w2) (storage w2) ((chain, config, a) :: hooks w2)))
  | a => (Ok {[config := a]}, w)
  end.

Definition mockHooksOf (chain : string) (w : World)
    : option (gmap string string) :=
  match List.filter (fun '(c, _, _) => String.eqb c chain) (hooks w) with
  | [] => None
  | l => Some (list_to_map (map (fun '(_, t, a) => (t, a)) l))
  end.

Definition mockTestRecipient (setup : Setup) (chain : string)
    (ism : option (IsmConfig string)) (w : World) : Result string * World :=
  match load chain "testRecipientDeployer" "testRecipient" w with
  | "0x0000000000000000000000000000000000000000" =>
      allocate chain w (fun a w1 =>
        (Ok a,
         store chain "testRecipientDeployer" "testRecipient" a
           (store chain a "owner" (signer setup) w1)))
  | a => (Ok a, w)
  end.

Definition env (setup : Setup) : Env World string string := {|
  eqAddress := String.eqb;
  getChainMetadata_protocol := fun chain =>
    match assoc chain (protocols setup) with
    | Some p => Ok p
    | None => Throw (Error ("No chain metadata set for " ++ chain))
    end;
  intersect := mockIntersect setup;
  getDomainId := fun chain => Ok (Z.of_nat (String.length chain));
  getTransactionOverrides := fun _ => [];
  tryGetExplorerAddressUrl := fun _ _ => Ok None;
  getSignerAddress := fun _ _ => Ok (signer setup);
  getSignerOrProvider := fun _ _ => Ok tt;
  getBlockNumber := fun _ w => Ok (Z.of_nat (length (storage w)));
  getCode := fun chain a w =>
    Ok (match load chain a "code" w with
        | "0x0000000000000000000000000000000000000000" => "0x"
        | code => code
        end);
  callStatic := fun chain a method w => Ok (load chain a method w);
  proxyAdmin := fun chain a w => Ok (load chain a "admin" w);
  isProxy := fun chain a w =>
    Ok (negb (String.eqb (load chain a "admin" w) AddressZero));
  proxyImplementation := fun chain a w => Ok (load chain a "implementation" w);
  proxyConstructorArgs := fun impl admin init =>
    [AStr impl; AStr admin;
     AStr (match init with Some _ => "0xc4d66de8" | None => "0x" end)];
  encodeInitialize := fun _ => "0xc4d66de8";
  moduleMatchesConfig := fun chain a config w =>
    Ok (match config with
        | IsmAddress b => String.eqb a b
        | IsmObject spec => String.eqb (load chain a "spec" w) spec
        end);
  handleDeploy := mockHandleDeploy setup;
  handleTx := mockHandleTx setup;
  sendTransaction := mockSendTransaction setup;
  verifyContract := fun _ _ w => (Ok tt, w);
  getContractVerificationInput := fun name a code => mkVI name a code false;
  buildVerificationInput := fun name a args => mkVI name a args false;
  encodeDeploy := fun _ _ => "0x";
  TransparentUpgradeableProxy__factory :=
    mkFactory "TransparentUpgradeableProxy" "0x60a0";
  TimelockController__factory := mkFactory "TimelockController" "0x60c0";
  ismFactory_deploy := mockIsmDeploy;
  ismFactory_deployedIsms := fun chain w =>
    match load chain "ismFactory" "last" w with
    | "0x0000000000000000000000000000000000000000" => None
    | a => Some {["ism" := a]}
    end;
  hookType := fun config => config;
  hookDeployer_deployContracts := mockHookDeploy;
  hookDeployer_deployedContracts := mockHooksOf;
  hookDeployer_verificationInputs := fun chain w =>
    match mockHooksOf chain w with Some _ => Some [] | None => None end;
  testRecipient_deployContracts := mockTestRecipient setup;
|}.

(** [coreFactories] *)
Definition coreFactories (key : string) : Factory :=
  match key with
  | "mailbox" => mkFactory "Mailbox" "0x6101"
  | "proxyAdmin" => mkFactory "ProxyAdmin" "0x6102"
  | "validatorAnnounce" => mkFactory "ValidatorAnnounce" "0x6103"
  | other => mkFactory other "0x"
  end.

(** The timer of this double never fires. *)
Definition runWithTimeout (A : Type) (timeoutMs : Z)
    (callback : M World string string A) : M World string string A :=
  callback.

Definition deployer : string := "0xd3b1".

Definition setup0 : Setup := {|
  signer := deployer;
  protocols := [("alfajores", Ethereum); ("fuji", Ethereum);
                ("sepolia", Ethereum);
                ("solanadevnet", OtherProtocol "sealevel")];
  broken := ["fuji"];
  stuck := false;
  alreadyInitialized :=
    mkError "cannot estimate gas; transaction may fail"
      (Some "Initializable: contract is already initialized");
  initializeFails := None;
|}.

Definition world0 : World := {|
  fresh := ["0xa001"; "0xa002"; "0xa003"; "0xa004"; "0xa005"; "0xa006";
            "0xa007"; "0xa008"; "0xa009"; "0xa010"; "0xa011"; "0xa012";
            "0xa013"; "0xa014"; "0xa015"; "0xa016"; "0xa017"; "0xa018";
            "0xa019"; "0xa020"; "0xa021"; "0xa022"; "0xa023"; "0xa024"];
  storage := [];
  hooks := [];
|}.

Definition state0 : State World string string :=
  mkState ∅ ∅ ∅ ∅ world0 [] [].

Definition config0 : CoreConfig string string := {|
  owner := deployer;
  ownerOverrides := None;
  defaultIsm := IsmObject "multisig{0xv1,0xv2};2";
  defaultHook := "merkleTreeHook";
  requiredHook := "protocolFee";
  remove := false;
  upgrade := None;
|}.
(** The same configuration with a multisig as owner. *)
Definition configSafe : CoreConfig string string := {|
  owner := "0x5afe";
  ownerOverrides := None;
  defaultIsm := IsmObject "multisig{0xv1,0xv2};2";
  defaultHook := "merkleTreeHook";
  requiredHook := "protocolFee";
  remove := false;
  upgrade := None;
|}.

(** A configuration with other hooks and another module. *)
Definition configNew : CoreConfig string string := {|
  owner := deployer;
  ownerOverrides := None;
  defaultIsm := IsmObject "multisig{0xv1,0xv2,0xv3};2";
  defaultHook := "interchainGasPaymaster";
  requiredHook := "pausableHook";
  remove := false;
  upgrade := None;
|}.

(** A configuration with a timelock for upgrades. *)
Definition configUpgrade : CoreConfig string string := {|
  owner := deployer;
  ownerOverrides := None;
  defaultIsm := IsmObject "multisig{0xv1,0xv2};2";
  defaultHook := "merkleTreeHook";
  requiredHook := "protocolFee";
  remove := false;
  upgrade := Some (mkTimelock 86400 "0x5afe" "0x5afe");
|}.

(** All chains accept deployments. *)
Definition setupOk : Setup := {|
  signer := deployer;
  protocols := protocols setup0;
  broken := [];
  stuck := false;
  alreadyInitialized := alreadyInitialized setup0;
  initializeFails := None;
|}.

(** Set-transactions are accepted and change nothing. *)
Definition setupStuck : Setup := {|
  signer := deployer;
  protocols := protocols setup0;
  broken := [];
  stuck := true;
  alreadyInitialized := alreadyInitialized setup0;
  initializeFails := None;
|}.



(** [initialize] is rejected by the provider for a reason of its own. *)
Definition setupNonce : Setup := {|
  signer := deployer;
  protocols := protocols setup0;
  broken := [];
  stuck := false;
  alreadyInitialized := alreadyInitialized setup0;
  initializeFails := Some (Error "nonce has already been used");
|}.


(** Other hooks, another module, and the multisig as the new owner. *)
Definition configHandover : CoreConfig string string := {|
  owner := "0x5afe";
  ownerOverrides := None;
  defaultIsm := IsmObject "multisig{0xv1,0xv2,0xv3};2";
  defaultHook := "interchainGasPaymaster";
  requiredHook := "pausableHook";
  remove := false;
  upgrade := None;
|}.

(** The method of the transaction a call submits. *)
Definition txMethod (c : Call string string) : option string :=
  match c with
  | CallHandleTx _ tx | CallSendTransaction _ tx => Some (tx_method tx)
  | _ => None
  end.

(** One chain's [deployContracts] of the core deployer. *)
Definition deployCore (setup : Setup) (chain : string)
    (config : CoreConfig string string) (s : State World string string)
    : Result (option Contracts) * State World string string :=
  deployContracts (env setup) coreFactories chain (Some config) s.

(** [deploy] of the core deployer. *)
Definition deployAll (setup : Setup)
    (configMap : list (string * CoreConfig string string))
    (s : State World string string) :=
  deploy (env setup) (coreOptions coreFactories) runWithTimeout
    (deployContracts (env setup) coreFactories) configMap s.

(** alfajores after a first deployment, owned by the signer. *)
Definition stateOwned : State World string string :=
  snd (deployCore setupOk "alfajores" config0 state0).

(** alfajores after a first deployment, handed over to the multisig. *)
Definition stateSafe : State World string string :=
  snd (deployCore setupOk "alfajores" configSafe state0).
End Mock.

(** ** The claims on concrete runs *)

(** C1 (counterexample).  Three chains, the second of which rejects
    deployments: the run does not return an outcome map but throws the
    error of the second chain; the third chain -- which deploys without
    error when it is alone -- is never attempted; the contracts of the
    first chain are in [deployedContracts] but are not returned. *)
Lemma deploy_batch_counterexample :
  let configMap :=
    [("alfajores", Mock.config0); ("fuji", Mock.config0);
     ("sepolia", Mock.config0)] in
  let run := Mock.deployAll Mock.setup0 configMap Mock.state0 in
  fst run = Throw (Error "insufficient funds for gas * price + value")
  /\ startingBlockNumbers (snd run) !! "sepolia" = None
  /\ deployedContracts (snd run) !! "sepolia" = None
  /\ (deployedContracts (snd run) !! "alfajores") ≫= (.!! "mailbox")
     = Some "0xa003"
  /\ (exists contractsMap,
        fst (Mock.deployAll Mock.setup0 [("sepolia", Mock.config0)]
               Mock.state0) = Ok contractsMap
        /\ contractsMap !! "sepolia" ≫= (.!! "mailbox") = Some "0xa003").
Proof.
  cbv zeta. repeat split; try (vm_compute; reflexivity).
  exists (match fst (Mock.deployAll Mock.setup0 [("sepolia", Mock.config0)]
                       Mock.state0) with
          | Ok contractsMap => contractsMap
          | Throw _ => ∅
          end).
  split; vm_compute; reflexivity.
Qed.

Lemma mockIntersect_subset setup chains targets :
  Mock.mockIntersect setup chains true = Ok targets ->
  forall c, In c targets -> In c chains.
Proof.
  unfold Mock.mockIntersect.
  destruct (forallb _ chains); intros H; inversion H; subst; auto.
Qed.

Lemma deployContracts_keeps {W IsmSpec HookConfig}
    (env : Env W IsmSpec HookConfig) coreFactories chain config other :
  chain <> other ->
  respects (keeps other) (deployContracts env coreFactories chain config).
Proof.
  intros Hne.
  eapply respects_deployContracts;
    [tc_solve | exact Hne | intros; exact I | intros; exact I].
Qed.

Lemma deploy_stops_at_first_failure_witness :
  let configMap :=
    [("alfajores", Mock.config0); ("fuji", Mock.config0);
     ("sepolia", Mock.config0)] in
  let body :=
    deployChain (Mock.env Mock.setup0) (coreOptions Mock.coreFactories)
      Mock.runWithTimeout
      (deployContracts (Mock.env Mock.setup0) Mock.coreFactories) configMap in
  let s1 :=
    snd (forEach ["alfajores"] body
           (set_logs [(Debug, LStartDeploy ["alfajores"; "fuji"; "sepolia"])]
              Mock.state0)) in
  Mock.deployAll Mock.setup0 configMap Mock.state0
  = (Throw (Error "insufficient funds for gas * price + value"),
     snd (body "fuji" s1))
  /\ deployedContracts (snd (body "fuji" s1)) !! "alfajores"
     = deployedContracts s1 !! "alfajores"
  /\ (deployedContracts s1 !! "alfajores") ≫= (.!! "mailbox")
     = Some "0xa003".
Proof.
  cbv zeta. unfold Mock.deployAll.
  destruct (deploy_stops_at_first_failure (Mock.env Mock.setup0)
              (coreOptions Mock.coreFactories) Mock.runWithTimeout
              (deployContracts (Mock.env Mock.setup0) Mock.coreFactories)
              [("alfajores", Mock.config0); ("fuji", Mock.config0);
               ("sepolia", Mock.config0)]
              Mock.state0 ["alfajores"; "fuji"; "sepolia"] ["alfajores"]
              "fuji" ["sepolia"]
              (snd (forEach ["alfajores"]
                      (deployChain (Mock.env Mock.setup0)
                         (coreOptions Mock.coreFactories) Mock.runWithTimeout
                         (deployContracts (Mock.env Mock.setup0)
                            Mock.coreFactories)
                         [("alfajores", Mock.config0); ("fuji", Mock.config0);
                          ("sepolia", Mock.config0)])
                      (set_logs
                         [(Debug,
                           LStartDeploy ["alfajores"; "fuji"; "sepolia"])]
                         Mock.state0)))
              (Error "insufficient funds for gas * price + value")
              (snd (deployChain (Mock.env Mock.setup0)
                      (coreOptions Mock.coreFactories) Mock.runWithTimeout
                      (deployContracts (Mock.env Mock.setup0)
                         Mock.coreFactories)
                      [("alfajores", Mock.config0); ("fuji", Mock.config0);
                       ("sepolia", Mock.config0)]
                      "fuji"
                      (snd (forEach ["alfajores"]
                              (deployChain (Mock.env Mock.setup0)
                                 (coreOptions Mock.coreFactories)
                                 Mock.runWithTimeout
                                 (deployContracts (Mock.env Mock.setup0)
                                    Mock.coreFactories)
                                 [("alfajores", Mock.config0);
                                  ("fuji", Mock.config0);
                                  ("sepolia", Mock.config0)])
                              (set_logs
                                 [(Debug,
                                   LStartDeploy
                                     ["alfajores"; "fuji"; "sepolia"])]
                                 Mock.state0)))))
              ltac:(vm_compute; reflexivity) ltac:(vm_compute; reflexivity)
              ltac:(vm_compute; reflexivity) ltac:(vm_compute; reflexivity))
    as [Hrun Hkept].
  split; [exact Hrun|]. split.
  - apply Hkept.
    + intros ms cb s0 r s1 H. exists r. exact H.
    + intros cfg other Hne. now apply deployContracts_keeps.
    + discriminate.
  - vm_compute. reflexivity.
Defined.

Lemma deploy_skips_other_protocols_witness :
  let configMap :=
    [("alfajores", Mock.config0); ("solanadevnet", Mock.config0);
     ("sepolia", Mock.config0)] in
  Mock.deployAll Mock.setupOk configMap Mock.state0
  = Mock.deployAll Mock.setupOk
      [("alfajores", Mock.config0); ("sepolia", Mock.config0)] Mock.state0
  /\ deployedContracts
       (snd (Mock.deployAll Mock.setupOk configMap Mock.state0))
     !! "solanadevnet" = None
  /\ getChainMetadata_protocol (Mock.env Mock.setupOk) "sepolia"
     = Ok Ethereum.
Proof.
  cbv zeta.
  destruct (deploy_skips_other_protocols (Mock.env Mock.setupOk)
              (coreOptions Mock.coreFactories) Mock.runWithTimeout
              (deployContracts (Mock.env Mock.setupOk) Mock.coreFactories)
              [("alfajores", Mock.config0); ("solanadevnet", Mock.config0);
               ("sepolia", Mock.config0)] Mock.state0)
    as [Heq [Htargets Hkeeps]].
  - apply mockIntersect_subset.
  - intros ms cb s0 r s1 H. exists r. exact H.
  - intros chain cfg other Hne. now apply deployContracts_keeps.
  - split; [exact Heq|]. split.
    + refine (proj1 (Hkeeps "solanadevnet" _ _ eq_refl
                       (surjective_pairing _))).
    + refine (proj2 (Htargets ["alfajores"; "sepolia"]
                       ["alfajores"; "sepolia"] eq_refl eq_refl "sepolia" _)).
      right. now left.
Defined.



Lemma post_write_mismatch_witness :
  let env := Mock.env Mock.setupStuck in
  let opts := coreOptions Mock.coreFactories in
  let getIsm := fun m => callStatic env "alfajores" m "defaultIsm" in
  let setIsm := fun m ism => mkTx m "setDefaultIsm" [AStr ism] None in
  let getHook := fun m => callStatic env "alfajores" m "defaultHook" in
  let setHook := fun m hook => mkTx m "setDefaultHook" [AStr hook] None in
  fst (configureIsm env opts "alfajores" "0xa003" (IsmAddress "0xa0ff")
         getIsm setIsm Mock.stateOwned)
  = Throw (Error "Set ISM failed on alfajores")
  /\ fst (configureIsm env opts "alfajores" "0xa003"
            (IsmObject "multisig{0xv1,0xv2,0xv3};2") getIsm setIsm
            Mock.stateOwned)
     = Throw (Error "Set ISM failed on alfajores")
  /\ fst (configureHook env "alfajores" "0xa003" "0xa0ff" getHook setHook
            Mock.stateOwned)
     = Throw (Error "Set hook failed on alfajores, wanted 0xa0ff, got 0xa005").
Proof.
  cbv zeta.
  destruct (post_write_mismatch_throws (Mock.env Mock.setupStuck)
              (coreOptions Mock.coreFactories) "alfajores" "0xa003" "0xa0ff"
              Mock.stateOwned) as (Hliteral & _ & Hhook).
  destruct (post_write_mismatch_throws (Mock.env Mock.setupStuck)
              (coreOptions Mock.coreFactories) "alfajores" "0xa003" "0xa009"
              Mock.stateOwned) as (_ & Hstructural & _).
  split; [|split].
  - edestruct Hliteral as (s' & Hrun & _);
      [..|rewrite Hrun; reflexivity]; vm_compute; reflexivity.
  - edestruct Hstructural as (s' & Hrun & _);
      [..|rewrite Hrun; reflexivity]; vm_compute; reflexivity.
  - edestruct Hhook as (s' & Hrun & _);
      [..|rewrite Hrun; reflexivity]; vm_compute; reflexivity.
Defined.

Lemma configureHook_customHook_witness :
  let env := Mock.env Mock.setupOk in
  let getHook := fun m => callStatic env "alfajores" m "defaultHook" in
  let setHook := fun m hook => mkTx m "setDefaultHook" [AStr hook] None in
  let run :=
    configureHook env "alfajores" "0xa003" "0xa0ff" getHook setHook
      Mock.stateSafe in
  getHook "0xa003" (world Mock.stateSafe) = Ok "0xa005"
  /\ fst run = Ok tt
  /\ calls (snd run) = calls Mock.stateSafe
  /\ deployedContracts (snd run) !! "alfajores" ≫= (.!! "customHook")
     = Some "0xa0ff"
  /\ configureHook env "alfajores" "0xa003" "0xa005" getHook setHook
       Mock.stateSafe = (Ok tt, Mock.stateSafe).
Proof.
  cbv zeta.
  destruct (configureHook_customHook (Mock.env Mock.setupOk) "alfajores"
              "0xa003" "0xa0ff"
              (fun m => callStatic (Mock.env Mock.setupOk) "alfajores" m
                          "defaultHook")
              (fun m hook => mkTx m "setDefaultHook" [AStr hook] None)
              Mock.stateSafe "0xa005" ltac:(vm_compute; reflexivity))
    as [_ Hdiffer].
  destruct (configureHook_customHook (Mock.env Mock.setupOk) "alfajores"
              "0xa003" "0xa005"
              (fun m => callStatic (Mock.env Mock.setupOk) "alfajores" m
                          "defaultHook")
              (fun m hook => mkTx m "setDefaultHook" [AStr hook] None)
              Mock.stateSafe "0xa005" ltac:(vm_compute; reflexivity))
    as [Hsame _].
  destruct (Hdiffer "0x5afe" Mock.deployer ltac:(vm_compute; reflexivity)
              ltac:(vm_compute; reflexivity) ltac:(vm_compute; reflexivity)
              ltac:(vm_compute; reflexivity))
    as (s' & slots & Hrun & Hcalls & _ & Hslots & Hcustom & _).
  split; [vm_compute; reflexivity|].
  rewrite Hrun. cbn [fst snd]. rewrite Hslots. cbn.
  split; [reflexivity|]. split; [exact Hcalls|]. split; [exact Hcustom|].
  apply Hsame. vm_compute; reflexivity.
Defined.

Lemma no_double_proxy_witness :
  let env := Mock.env Mock.setupOk in
  let opts := coreOptions Mock.coreFactories in
  let first :=
    deployProxiedContract env opts "alfajores" "mailbox" "mailbox" "0xa0ad"
      [ANum 9] None Mock.state0 in
  let second :=
    deployProxiedContract env opts "alfajores" "mailbox" "mailbox" "0xa0ad"
      [ANum 9] None (snd first) in
  fst first = Ok "0xa002"
  /\ isProxy env "alfajores" "0xa002" (world (snd first)) = Ok true
  /\ fst second = Ok "0xa002"
  /\ calls (snd second) = calls (snd first)
  /\ deployProxy env opts "alfajores" "0xa002" "0xa0ad" None (snd first)
     = (Ok "0xa002", snd first).
Proof.
  cbv zeta.
  destruct (no_double_proxy (Mock.env Mock.setupOk)
              (coreOptions Mock.coreFactories) "alfajores" Mock.state0)
    as [_ Hagain].
  destruct (no_double_proxy (Mock.env Mock.setupOk)
              (coreOptions Mock.coreFactories) "alfajores"
              (snd (deployProxiedContract (Mock.env Mock.setupOk)
                      (coreOptions Mock.coreFactories) "alfajores" "mailbox"
                      "mailbox" "0xa0ad" [ANum 9] None Mock.state0)))
    as [Hprobe _].
  destruct (Hagain "mailbox" "mailbox" "0xa0ad" [ANum 9] None "0xa0ad"
              [ANum 9] None "0xa002"
              (snd (deployProxiedContract (Mock.env Mock.setupOk)
                      (coreOptions Mock.coreFactories) "alfajores" "mailbox"
                      "mailbox" "0xa0ad" [ANum 9] None Mock.state0))
              ltac:(vm_compute; reflexivity) ltac:(vm_compute; reflexivity)
              ltac:(vm_compute; reflexivity) ltac:(vm_compute; reflexivity)
              ltac:(vm_compute; reflexivity) ltac:(vm_compute; reflexivity))
    as (s2 & Hrun & Hcalls & _).
  split; [vm_compute; reflexivity|].
  split; [vm_compute; reflexivity|].
  rewrite Hrun. cbn [fst snd].
  split; [reflexivity|]. split; [exact Hcalls|].
  apply Hprobe. vm_compute; reflexivity.
Defined.

Lemma configureIsm_deploys_although_matching_witness :
  let env := Mock.env Mock.setupOk in
  let config := IsmObject "multisig{0xv1,0xv2};2" in
  let getIsm := fun m => callStatic env "alfajores" m "defaultIsm" in
  let setIsm := fun m ism => mkTx m "setDefaultIsm" [AStr ism] None in
  let run :=
    configureIsm env (coreOptions Mock.coreFactories) "alfajores" "0xa003"
      config getIsm setIsm Mock.stateOwned in
  moduleMatchesConfig env "alfajores" "0xa004" config (world Mock.stateOwned)
  = Ok true
  /\ getIsm "0xa003" (world Mock.stateOwned) = Ok "0xa004"
  /\ fst run = Ok tt
  /\ calls (snd run)
     = (calls Mock.stateOwned
        ++ [CallIsmFactoryDeploy "alfajores" config None])%list
  /\ getCode env "alfajores" "0xa009" (world Mock.stateOwned) = Ok "0x"
  /\ getCode env "alfajores" "0xa009" (world (snd run)) = Ok "0x6080".
Proof.
  cbv zeta.
  edestruct (configureIsm_deploys_although_matching (Mock.env Mock.setupOk)
               (coreOptions Mock.coreFactories) "alfajores" "0xa003"
               "multisig{0xv1,0xv2};2"
               (fun m => callStatic (Mock.env Mock.setupOk) "alfajores" m
                           "defaultIsm")
               (fun m ism => mkTx m "setDefaultIsm" [AStr ism] None)
               Mock.stateOwned "0xa004")
    as (s' & Hrun & Hcalls & Hworld);
    [vm_compute; reflexivity ..|].
  split; [vm_compute; reflexivity|].
  split; [vm_compute; reflexivity|].
  rewrite Hrun. cbn [fst snd].
  split; [reflexivity|]. split; [exact Hcalls|].
  split; [vm_compute; reflexivity|].
  rewrite Hworld. vm_compute; reflexivity.
Defined.



(** C7 (counterexample).  A deployment that finds the mailbox
    initialized, with other hooks and another module configured and a new
    owner: the set-hook transactions are sent before the set-module
    transaction, not after it. *)
Lemma reconciliation_order_counterexample :
  let run :=
    Mock.deployCore Mock.setupOk "alfajores" Mock.configHandover
      Mock.stateOwned in
  let l := drop (length (calls Mock.stateOwned)) (calls (snd run)) in
  omap Mock.txMethod l
  = ["initialize"; "setDefaultHook"; "setRequiredHook"; "setDefaultIsm";
     "transferOwnership"; "transferOwnership"; "transferOwnership";
     "transferOwnership"]
  /\ (exists i j hookTx ismTx,
        i < j
        /\ l !! i = Some (CallSendTransaction "alfajores" hookTx)
        /\ tx_method hookTx = "setDefaultHook"
        /\ l !! j = Some (CallSendTransaction "alfajores" ismTx)
        /\ tx_method ismTx = "setDefaultIsm").
Proof.
  cbv zeta. split; [vm_compute; reflexivity|].
  exists 4, 6,
    (mkTx "0xa003" "setDefaultHook" [AStr "0xa010"] (Some [])),
    (mkTx "0xa003" "setDefaultIsm" [AStr "0xa009"] None).
  split; [lia|]. repeat split; vm_compute; reflexivity.
Qed.

Lemma reconciliation_order_witness :
  let run :=
    Mock.deployCore Mock.setupOk "alfajores" Mock.configHandover
      Mock.stateOwned in
  exists l,
    calls (snd run) = (calls Mock.stateOwned ++ l)%list
    /\ ordered l
    /\ omap phase l = [1; 1; 2; 3; 3; 3; 3].
Proof.
  cbv zeta.
  destruct (reconciliation_order (Mock.env Mock.setupOk) Mock.coreFactories
              "alfajores" Mock.stateOwned) as [Hcore _].
  destruct (Hcore (Some Mock.configHandover) _ _ (surjective_pairing _))
    as (l & Hl & Ho).
  exists l. split; [exact Hl|]. split; [exact Ho|].
  assert (El : l = drop (length (calls Mock.stateOwned))
                     (calls (snd (Mock.deployCore Mock.setupOk "alfajores"
                                    Mock.configHandover Mock.stateOwned)))).
  { unfold Mock.deployCore. rewrite Hl. now rewrite drop_app_length. }
  rewrite El. vm_compute. reflexivity.
Defined.

(** C2 (what the code does).  A second run on a chain deployed with an
    upgrade timelock: both runs return, the second resolves the proxy
    admin, the mailbox and the validator registry from the ledger, and
    still deploys a TimelockController -- a contract exists afterwards at
    an address that held no code -- while the proxy admin stays owned by
    the timelock of the first run.  Without the upgrade configuration the
    second run requests no deployment and submits no set or transfer
    transaction. *)
Theorem second_run_redeploys_timelock :
  let env := Mock.env Mock.setupOk in
  let first :=
    Mock.deployCore Mock.setupOk "alfajores" Mock.configUpgrade Mock.state0 in
  let second :=
    Mock.deployCore Mock.setupOk "alfajores" Mock.configUpgrade (snd first) in
  let newCalls := drop (length (calls (snd first))) (calls (snd second)) in
  let plain :=
    Mock.deployCore Mock.setupOk "alfajores" Mock.config0 Mock.stateOwned in
  let plainCalls :=
    drop (length (calls Mock.stateOwned)) (calls (snd plain)) in
  let isDeploy := fun c : Call string string =>
    match c with CallHandleDeploy _ _ _ => true | _ => false end in
  (match fst first, fst second with Ok _, Ok _ => True | _, _ => False end)
  /\ List.filter isDeploy newCalls
     = [CallHandleDeploy "alfajores" (TimelockController__factory env)
          [ANum 86400; AList [AStr "0x5afe"]; AList [AStr "0x5afe"];
           AStr AddressZero]]
  /\ getCode env "alfajores" "0xa010" (world (snd first)) = Ok "0x"
  /\ getCode env "alfajores" "0xa010" (world (snd second)) = Ok "0x6080"
  /\ callStatic env "alfajores" "0xa001" "owner" (world (snd second))
     = Ok "0xa008"
  /\ List.filter isDeploy plainCalls = []
  /\ omap Mock.txMethod plainCalls = ["initialize"]
  /\ world (snd plain) = world Mock.stateOwned.
Proof.
  cbv zeta.
  split; [vm_compute; exact I|].
  split; [vm_compute; reflexivity|].
  split; [vm_compute; reflexivity|].
  split; [vm_compute; reflexivity|].
  split; [vm_compute; reflexivity|].
  split; [vm_compute; reflexivity|].
  split; vm_compute; reflexivity.
Qed.

(** ** The further properties on concrete runs *)

(** X1 on the test double: a mailbox address written to the ledger is the
    one read back. *)
Lemma readCache_after_writeCache_witness :
  exists s',
    (writeCache "alfajores" "mailbox" "0xa003" ;;;
     readCache (Mock.env Mock.setupOk) "alfajores"
       (Mock.coreFactories "mailbox") "mailbox") Mock.state0
    = (Ok (Some "0xa003"), s')
    /\ calls s' = calls Mock.state0
    /\ world s' = world Mock.state0
    /\ ledger s' "alfajores" "mailbox" = Some "0xa003".
Proof.
  exact (readCache_after_writeCache (Mock.env Mock.setupOk) "alfajores"
           (Mock.coreFactories "mailbox") "mailbox" "0xa003" Mock.state0
           ltac:(vm_compute; reflexivity) ltac:(vm_compute; reflexivity)
           ltac:(vm_compute; reflexivity)).
Defined.

(** X2 on the test double: a ledger that binds the mailbox to the zero
    address. *)
Lemma readCache_miss_witness :
  let s := snd (writeCache "alfajores" "mailbox" AddressZero Mock.state0) in
  readCache (Mock.env Mock.setupOk) "alfajores"
    (Mock.coreFactories "mailbox") "mailbox" s
  = (Ok None, s).
Proof.
  exact (readCache_miss (Mock.env Mock.setupOk) "alfajores"
           (Mock.coreFactories "mailbox") "mailbox"
           (snd (writeCache "alfajores" "mailbox" AddressZero Mock.state0))
           ltac:(right; right; vm_compute; reflexivity)
           ltac:(vm_compute; reflexivity)).
Defined.

(** X4 on the test double: the first deployment of the proxy admin. *)
Lemma deployContractFromFactory_fresh_witness :
  let env := Mock.env Mock.setupOk in
  let factory := Mock.coreFactories "proxyAdmin" in
  let input :=
    getContractVerificationInput env "proxyAdmin" "0xa001"
      (bytecode factory) in
  let w1 := snd (handleDeploy env "alfajores" factory [] Mock.world0) in
  exists s',
    deployContractFromFactory env (coreOptions Mock.coreFactories)
      "alfajores" factory "proxyAdmin" [] None true Mock.state0
    = (Ok "0xa001", s')
    /\ world s' = w1
    /\ calls s'
       = (calls Mock.state0
          ++ [CallHandleDeploy "alfajores" factory [];
              CallVerifyContract "alfajores" input])%list
    /\ verificationInputs s' !! "alfajores"
       = Some (default [] (verificationInputs Mock.state0 !! "alfajores")
               ++ [input])%list
    /\ cachedAddresses s' = cachedAddresses Mock.state0.
Proof.
  exact (deployContractFromFactory_fresh (Mock.env Mock.setupOk)
           (coreOptions Mock.coreFactories) "alfajores"
           (Mock.coreFactories "proxyAdmin") "proxyAdmin" [] true Mock.state0
           "0xa001"
           (snd (handleDeploy (Mock.env Mock.setupOk) "alfajores"
                   (Mock.coreFactories "proxyAdmin") [] Mock.world0))
           (Ok tt)
           (snd (handleDeploy (Mock.env Mock.setupOk) "alfajores"
                   (Mock.coreFactories "proxyAdmin") [] Mock.world0))
           ltac:(right; split; [left|]; vm_compute; reflexivity)
           ltac:(vm_compute; reflexivity) ltac:(vm_compute; reflexivity)).
Defined.

(** X5 on the test double: the provider rejects [initialize]; the
    contract at 0xa001 is deployed and recorded nowhere. *)
Lemma deployContractWithName_initialize_fails_witness :
  let env := Mock.env Mock.setupNonce in
  let opts := coreOptions Mock.coreFactories in
  let args := [AStr Mock.deployer; AStr "0x1"; AStr "0x2"; AStr "0x3"] in
  let initTx := mkTx "0xa001" "initialize" args (Some []) in
  let w1 :=
    snd (handleDeploy env "alfajores" (factories opts "mailbox") [ANum 9]
           Mock.world0) in
  exists s',
    deployContractWithName env opts "alfajores" "mailbox" "mailbox" [ANum 9]
      (Some args) true Mock.state0
    = (Throw (Error "nonce has already been used"), s')
    /\ world s' = w1
    /\ calls s'
       = (calls Mock.state0
          ++ [CallHandleDeploy "alfajores" (factories opts "mailbox")
                [ANum 9];
              CallHandleTx "alfajores" initTx])%list
    /\ cachedAddresses s' = cachedAddresses Mock.state0
    /\ verificationInputs s' = verificationInputs Mock.state0.
Proof.
  exact (deployContractWithName_initialize_fails (Mock.env Mock.setupNonce)
           (coreOptions Mock.coreFactories) "alfajores" "mailbox" "mailbox"
           [ANum 9]
           [AStr Mock.deployer; AStr "0x1"; AStr "0x2"; AStr "0x3"] true
           Mock.state0 "0xa001"
           (snd (handleDeploy (Mock.env Mock.setupNonce) "alfajores"
                   (Mock.coreFactories "mailbox") [ANum 9] Mock.world0))
           (Error "nonce has already been used")
           (snd (handleDeploy (Mock.env Mock.setupNonce) "alfajores"
                   (Mock.coreFactories "mailbox") [ANum 9] Mock.world0))
           ltac:(right; split; [left|]; vm_compute; reflexivity)
           ltac:(vm_compute; reflexivity) ltac:(vm_compute; reflexivity)).
Defined.

(** A ledger that holds a proxy under the factory's name, as one loaded
    from an artifact file may. *)
Definition stateProxyCached : State Mock.World string string :=
  snd (writeCache "alfajores" "TransparentUpgradeableProxy" "0xbeef"
         Mock.state0).

(** X6 on the test double: the proxy asked for an unrelated
    implementation is the one of the ledger. *)
Lemma deployProxy_reuses_ledger_proxy_witness :
  exists s',
    deployProxy (Mock.env Mock.setupOk) (coreOptions Mock.coreFactories)
      "alfajores" "0x1111" "0xa0ad" None stateProxyCached
    = (Ok "0xbeef", s')
    /\ calls s' = calls stateProxyCached
    /\ world s' = world stateProxyCached.
Proof.
  exact (deployProxy_reuses_ledger_proxy (Mock.env Mock.setupOk)
           (coreOptions Mock.coreFactories) "alfajores" "0x1111" "0xa0ad"
           None stateProxyCached "0xbeef"
           ltac:(vm_compute; reflexivity)
           ltac:(repeat split; vm_compute; reflexivity)
           ltac:(vm_compute; reflexivity) ltac:(vm_compute; reflexivity)).
Defined.

(** A ledger left by a run that deployed the mailbox implementation and
    failed before its proxy. *)
Definition stateImplementationOnly : State Mock.World string string :=
  snd (writeCache "alfajores" "mailbox" "0x1111" Mock.state0).

(** X7 on the test double. *)
Lemma deployProxiedContract_resumes_witness :
  let env := Mock.env Mock.setupOk in
  let proxyArgs := proxyConstructorArgs env "0x1111" "0xa0ad" None in
  let input :=
    getContractVerificationInput env "TransparentUpgradeableProxy" "0xa001"
      (bytecode (TransparentUpgradeableProxy__factory env)) in
  let w1 :=
    snd (handleDeploy env "alfajores"
           (TransparentUpgradeableProxy__factory env) proxyArgs
           Mock.world0) in
  exists s',
    deployProxiedContract env (coreOptions Mock.coreFactories) "alfajores"
      "mailbox" "mailbox" "0xa0ad" [ANum 9] None stateImplementationOnly
    = (Ok "0xa001", s')
    /\ calls s'
       = (calls stateImplementationOnly
          ++ [CallHandleDeploy "alfajores"
                (TransparentUpgradeableProxy__factory env) proxyArgs;
              CallVerifyContract "alfajores" input])%list
    /\ world s' = w1
    /\ ledger s' "alfajores" "mailbox" = Some "0xa001".
Proof.
  exact (deployProxiedContract_resumes (Mock.env Mock.setupOk)
           (coreOptions Mock.coreFactories) "alfajores" "mailbox" "mailbox"
           "0xa0ad" [ANum 9] None stateImplementationOnly "0x1111" "0xa001"
           (snd (handleDeploy (Mock.env Mock.setupOk) "alfajores"
                   (TransparentUpgradeableProxy__factory
                      (Mock.env Mock.setupOk))
                   (proxyConstructorArgs (Mock.env Mock.setupOk) "0x1111"
                      "0xa0ad" None)
                   Mock.world0))
           (Ok tt)
           (snd (handleDeploy (Mock.env Mock.setupOk) "alfajores"
                   (TransparentUpgradeableProxy__factory
                      (Mock.env Mock.setupOk))
                   (proxyConstructorArgs (Mock.env Mock.setupOk) "0x1111"
                      "0xa0ad" None)
                   Mock.world0))
           ltac:(discriminate)
           ltac:(repeat split; vm_compute; reflexivity)
           ltac:(vm_compute; reflexivity) ltac:(vm_compute; reflexivity)
           ltac:(vm_compute; reflexivity) ltac:(vm_compute; reflexivity)
           ltac:(vm_compute; reflexivity) ltac:(vm_compute; reflexivity)).
Defined.

(** The core deployer's options with [recoverVerificationInputs] set. *)
Definition recoveringOptions : Options :=
  mkOptions Mock.coreFactories (1000 * 60 * 10) true true.

(** X8 on the test double: the validator registry of a deployed chain is
    resolved from the ledger and its verification input is rebuilt. *)
Lemma deployContractFromFactory_recovers_inputs_witness :
  let env := Mock.env Mock.setupOk in
  exists s',
    deployContractFromFactory env recoveringOptions "alfajores"
      (Mock.coreFactories "validatorAnnounce") "validatorAnnounce"
      [AStr "0xa003"] None true Mock.stateOwned
    = (Ok "0xa007", s')
    /\ calls s' = calls Mock.stateOwned
    /\ world s' = world Mock.stateOwned
    /\ cachedAddresses s' = cachedAddresses Mock.stateOwned
    /\ verificationInputs s' !! "alfajores"
       = Some (default [] (verificationInputs Mock.stateOwned !! "alfajores")
               ++ [buildVerificationInput env "validatorAnnounce" "0xa007"
                     (encodeDeploy env "validatorAnnounce"
                        [AStr "0xa003"])])%list.
Proof.
  exact (proj1
           (deployContractFromFactory_recovers_inputs (Mock.env Mock.setupOk)
              recoveringOptions "alfajores"
              (Mock.coreFactories "validatorAnnounce") "validatorAnnounce"
              [AStr "0xa003"] None Mock.stateOwned "0xa007" false
              ltac:(repeat split; vm_compute; reflexivity)
              ltac:(vm_compute; reflexivity) ltac:(vm_compute; reflexivity)
              ltac:(vm_compute; reflexivity))
           eq_refl).
Defined.

(** X9 on the test double: the mailbox proxy is administered by the
    ProxyAdmin contract, which the signer owns. *)
Lemma changeAdmin_routes_witness :
  let tx :=
    mkTx "0xa001" "changeProxyAdmin" [AStr "0xa003"; AStr "0xad02"]
      (Some []) in
  let run :=
    changeAdmin (Mock.env Mock.setupOk) "alfajores" "0xa003" "0xad02"
      Mock.stateOwned in
  fst run = Ok tt
  /\ calls (snd run)
     = (calls Mock.stateOwned ++ [CallHandleTx "alfajores" tx])%list
  /\ world (snd run)
     = Mock.store "alfajores" "0xa003" "admin" "0xad02"
         (world Mock.stateOwned).
Proof.
  cbv zeta.
  destruct (changeAdmin_routes (Mock.env Mock.setupOk) "alfajores" "0xa003"
              "0xad02" Mock.stateOwned "0xa001" Mock.deployer
              ltac:(vm_compute; reflexivity) ltac:(vm_compute; reflexivity))
    as [_ Hdiffers].
  destruct (Hdiffers ltac:(vm_compute; reflexivity)) as [_ Hcontract].
  destruct (Hcontract "0x6080" Mock.deployer ltac:(vm_compute; reflexivity)
              ltac:(vm_compute; reflexivity) ltac:(vm_compute; reflexivity))
    as [_ Hsends].
  exact (Hsends
           (Mock.receipt
              (mkTx "0xa001" "changeProxyAdmin"
                 [AStr "0xa003"; AStr "0xad02"] (Some [])))
           (Mock.store "alfajores" "0xa003" "admin" "0xad02"
              (world Mock.stateOwned))
           ltac:(vm_compute; reflexivity) ltac:(vm_compute; reflexivity)).
Defined.

(** X10 on the test double: an upgrade of the mailbox proxy goes through
    the ProxyAdmin contract. *)
Lemma upgradeAndInitialize_routes_witness :
  let tx :=
    mkTx "0xa001" "upgradeAndCall"
      [AStr "0xa003"; AStr "0xa0ff"; AStr "0xc4d66de8"] (Some []) in
  let run :=
    upgradeAndInitialize (Mock.env Mock.setupOk) "alfajores" "0xa003"
      "0xa0ff" [ANum 9] Mock.stateOwned in
  fst run = Ok tt
  /\ calls (snd run)
     = (calls Mock.stateOwned ++ [CallHandleTx "alfajores" tx])%list
  /\ world (snd run) = world Mock.stateOwned.
Proof.
  cbv zeta.
  destruct (upgradeAndInitialize_routes (Mock.env Mock.setupOk) "alfajores"
              "0xa003" "0xa0ff" [ANum 9] Mock.stateOwned "0xa002" "0xa001"
              Mock.deployer
              ltac:(vm_compute; reflexivity) ltac:(vm_compute; reflexivity)
              ltac:(vm_compute; reflexivity))
    as [_ Hdiffers].
  destruct (Hdiffers ltac:(vm_compute; reflexivity)) as [_ Hcontract].
  destruct (Hcontract "0x6080" Mock.deployer ltac:(vm_compute; reflexivity)
              ltac:(vm_compute; reflexivity) ltac:(vm_compute; reflexivity))
    as [_ Hsends].
  exact (Hsends
           (Mock.receipt
              (mkTx "0xa001" "upgradeAndCall"
                 [AStr "0xa003"; AStr "0xa0ff"; AStr "0xc4d66de8"]
                 (Some [])))
           (world Mock.stateOwned)
           ltac:(vm_compute; reflexivity) ltac:(vm_compute; reflexivity)).
Defined.

(** X11 on the test double: after a deployment owned by the signer
    nothing is left to transfer. *)
Lemma transferOwnership_settled_witness :
  transferOwnershipOfContracts (Mock.env Mock.setupOk) "alfajores"
    (mkOwnableConfig Mock.deployer None)
    [("proxyAdmin", Some "0xa001"); ("mailbox", Some "0xa003");
     ("igp", None)]
    Mock.stateOwned
  = (Ok [], Mock.stateOwned).
Proof.
  apply (transferOwnership_settled (Mock.env Mock.setupOk) "alfajores"
           (mkOwnableConfig Mock.deployer None)
           [("proxyAdmin", Some "0xa001"); ("mailbox", Some "0xa003");
            ("igp", None)]
           Mock.stateOwned).
  intros contractName ownable [H|[H|[H|[]]]]; inversion H;
    exists Mock.deployer; split; vm_compute; reflexivity.
Defined.

(** X12 on the test double: handing the proxy admin and the mailbox over
    to the multisig. *)
Lemma transferOwnership_receipts_witness :
  let env := Mock.env Mock.setupOk in
  let config := mkOwnableConfig "0x5afe" None in
  let ownables :=
    [("proxyAdmin", Some "0xa001"); ("mailbox", Some "0xa003")] in
  let run :=
    transferOwnershipOfContracts env "alfajores" config ownables
      Mock.stateOwned in
  exists l,
    calls (snd run) = (calls Mock.stateOwned ++ l)%list
    /\ Forall (fun c =>
                 exists contractName ownable,
                   In (contractName, Some ownable) ownables
                   /\ c = CallHandleTx "alfajores"
                            (transferTx env "alfajores" ownable
                               (wantedOwner config contractName))) l
    /\ forall receipts, fst run = Ok receipts -> length receipts = length l.
Proof.
  exact (transferOwnership_receipts (Mock.env Mock.setupOk) "alfajores"
           (mkOwnableConfig "0x5afe" None)
           [("proxyAdmin", Some "0xa001"); ("mailbox", Some "0xa003")]
           Mock.stateOwned _ _ (surjective_pairing _)).
Defined.

(** X16 on the test double: one chain of the configuration is unknown to
    the provider. *)
Lemma deploy_aborts_before_any_chain_witness :
  let configMap := [("alfajores", Mock.config0); ("mumbai", Mock.config0)] in
  exists chain e,
    In chain (map fst configMap)
    /\ getChainMetadata_protocol (Mock.env Mock.setupOk) chain = Throw e
    /\ deploy (Mock.env Mock.setupOk) (coreOptions Mock.coreFactories)
         Mock.runWithTimeout
         (deployContracts (Mock.env Mock.setupOk) Mock.coreFactories)
         configMap Mock.state0
       = (Throw e, Mock.state0).
Proof.
  apply (proj1
           (deploy_aborts_before_any_chain (Mock.env Mock.setupOk)
              (coreOptions Mock.coreFactories) Mock.runWithTimeout
              (deployContracts (Mock.env Mock.setupOk) Mock.coreFactories)
              [("alfajores", Mock.config0); ("mumbai", Mock.config0)]
              Mock.state0)).
  exists "mumbai", (Error "No chain metadata set for mumbai").
  split; [right; left; reflexivity | vm_compute; reflexivity].
Defined.

(** The test double with a provider that cannot be reached. *)
Definition envOffline : Env Mock.World string string :=
  let env := Mock.env Mock.setupOk in {|
  eqAddress := eqAddress env;
  getChainMetadata_protocol := getChainMetadata_protocol env;
  intersect := intersect env;
  getDomainId := getDomainId env;
  getTransactionOverrides := getTransactionOverrides env;
  tryGetExplorerAddressUrl := tryGetExplorerAddressUrl env;
  getSignerAddress := getSignerAddress env;
  getSignerOrProvider := getSignerOrProvider env;
  getBlockNumber := fun _ _ => Throw (Error "could not detect network");
  getCode := getCode env;
  callStatic := callStatic env;
  proxyAdmin := proxyAdmin env;
  isProxy := isProxy env;
  proxyImplementation := proxyImplementation env;
  proxyConstructorArgs := proxyConstructorArgs env;
  encodeInitialize := encodeInitialize env;
  moduleMatchesConfig := moduleMatchesConfig env;
  handleDeploy := handleDeploy env;
  handleTx := handleTx env;
  sendTransaction := sendTransaction env;
  verifyContract := verifyContract env;
  getContractVerificationInput := getContractVerificationInput env;
  buildVerificationInput := buildVerificationInput env;
  encodeDeploy := encodeDeploy env;
  TransparentUpgradeableProxy__factory :=
    TransparentUpgradeableProxy__factory env;
  TimelockController__factory := TimelockController__factory env;
  ismFactory_deploy := ismFactory_deploy env;
  ismFactory_deployedIsms := ismFactory_deployedIsms env;
  hookType := hookType env;
  hookDeployer_deployContracts := hookDeployer_deployContracts env;
  hookDeployer_deployedContracts := hookDeployer_deployedContracts env;
  hookDeployer_verificationInputs := hookDeployer_verificationInputs env;
  testRecipient_deployContracts := testRecipient_deployContracts env;
|}.

(** X17 on the test double: the block number cannot be read. *)
Lemma deployChain_read_failure_witness :
  exists s',
    deployChain envOffline (coreOptions Mock.coreFactories)
      Mock.runWithTimeout (deployContracts envOffline Mock.coreFactories)
      [("alfajores", Mock.config0)] "alfajores" Mock.state0
    = (Throw (Error "could not detect network"), s')
    /\ calls s' = calls Mock.state0
    /\ world s' = world Mock.state0
    /\ startingBlockNumbers s' = startingBlockNumbers Mock.state0
    /\ deployedContracts s' = deployedContracts Mock.state0
    /\ cachedAddresses s' = cachedAddresses Mock.state0.
Proof.
  apply (deployChain_read_failure envOffline (coreOptions Mock.coreFactories)
           Mock.runWithTimeout (deployContracts envOffline Mock.coreFactories)
           [("alfajores", Mock.config0)] "alfajores" Mock.state0
           (Error "could not detect network")).
  right; right. exists None, Mock.deployer.
  split; [|split]; vm_compute; reflexivity.
Defined.

(** X18 on the test double: deploying sepolia after alfajores. *)
Lemma core_deployContracts_isolated_witness :
  let run := Mock.deployCore Mock.setupOk "sepolia" Mock.config0
               Mock.stateOwned in
  cachedAddresses (snd run) !! "alfajores"
  = cachedAddresses Mock.stateOwned !! "alfajores"
  /\ verificationInputs (snd run) !! "alfajores"
     = verificationInputs Mock.stateOwned !! "alfajores"
  /\ deployedContracts (snd run) !! "alfajores"
     = deployedContracts Mock.stateOwned !! "alfajores"
  /\ startingBlockNumbers (snd run) = startingBlockNumbers Mock.stateOwned.
Proof.
  exact (core_deployContracts_isolated (Mock.env Mock.setupOk)
           Mock.coreFactories "sepolia" (Some Mock.config0) "alfajores"
           Mock.stateOwned _ _ ltac:(discriminate) (surjective_pairing _)).
Defined.

(** X19 on the test double: a second run on alfajores with other hooks
    and another module. *)
Lemma core_deployContracts_books_grow_witness :
  let run := Mock.deployCore Mock.setupOk "alfajores" Mock.configNew
               Mock.stateOwned in
  (forall c name,
     is_Some (ledger Mock.stateOwned c name) ->
     is_Some (ledger (snd run) c name))
  /\ (forall c name,
        is_Some (deployed Mock.stateOwned c name) ->
        is_Some (deployed (snd run) c name))
  /\ (forall c, exists added,
        default [] (verificationInputs (snd run) !! c)
        = (default [] (verificationInputs Mock.stateOwned !! c)
           ++ added)%list).
Proof.
  exact (core_deployContracts_books_grow (Mock.env Mock.setupOk)
           Mock.coreFactories "alfajores" (Some Mock.configNew)
           Mock.stateOwned _ _ (surjective_pairing _)).
Defined.

(** X20 on the test double: a run that fails on a chain rejecting
    deployments. *)
Lemma core_deployContracts_calls_on_chain_witness :
  let run := Mock.deployCore Mock.setup0 "fuji" Mock.config0
               Mock.stateOwned in
  exists made,
    calls (snd run) = (calls Mock.stateOwned ++ made)%list
    /\ Forall (fun call => callChain call = "fuji") made.
Proof.
  exact (core_deployContracts_calls_on_chain (Mock.env Mock.setup0)
           Mock.coreFactories "fuji" (Some Mock.config0) Mock.stateOwned
           _ _ (surjective_pairing _)).
Defined.

(** X22 on the test double: the first run on alfajores. *)
Lemma core_deployContracts_ledger_records_result_witness :
  exists mailbox proxyAdmin validatorAnnounce testRecipient,
    (list_to_map
       [("mailbox", "0xa003"); ("proxyAdmin", "0xa001");
        ("validatorAnnounce", "0xa007"); ("testRecipient", "0xa008")]
     : gmap string string)
    = list_to_map [("mailbox", mailbox); ("proxyAdmin", proxyAdmin);
                   ("validatorAnnounce", validatorAnnounce);
                   ("testRecipient", testRecipient)]
    /\ ledger Mock.stateOwned "alfajores" "mailbox" = Some mailbox
    /\ ledger Mock.stateOwned "alfajores" "proxyAdmin" = Some proxyAdmin
    /\ ledger Mock.stateOwned "alfajores" "validatorAnnounce"
       = Some validatorAnnounce
    /\ is_Some (ledger Mock.stateOwned "alfajores" "interchainSecurityModule").
Proof.
  apply (core_deployContracts_ledger_records_result (Mock.env Mock.setupOk)
           Mock.coreFactories "alfajores" (Some Mock.config0) Mock.state0).
  vm_compute. reflexivity.
Defined.
